(** * Notes storage module: repository and query engine

    A shallow embedding of [storage.ts] / [storage.js] (the two files carry
    the same functions; the TypeScript one only adds type annotations).

    Layout:
    - [JsString]: ECMAScript strings as sequences of UTF-16 code units, with
      the String.prototype methods the module calls; the case conversions
      run on the case tables of Unicode;
    - [Note] and the pure operations on notes and note arrays;
    - [Array_sort], a stable sort driven by a comparator;
    - JSON text: [JSON_stringify_notes] and [JSON_parse];
    - the repository ([loadNotes], [saveNotes], [clearNotes]) in a state and
      exception monad over an abstract [localStorage];
    - [createNote] over the identifier generator and the clock;
    - [calculateStats] over IEEE-754 binary64 ([SpecFloat]);
    - [ByReference]: the query engine once more, on objects and references;
    - a host and a browser store to run the module on, and the notes of the
      test suite;
    - the properties, and the cases of the test suite run on the model. *)

From Stdlib Require Import ZArith NArith List Bool Lia String Ascii.
From Stdlib Require Import Permutation Sorted.
From Stdlib Require Import Floats.SpecFloat.
From stdpp Require Import gmap.
Import ListNotations.

Set Default Proof Using "Type".
Set Warnings "-register-all".

(* ===================================================================== *)
(** ** ECMAScript strings *)
(* ===================================================================== *)

(** A String value is a finite sequence of 16-bit code units. *)
Abbreviation jsstring := (list N).

(** Literals of the source are ASCII; [js] turns a Rocq literal into code
    units. *)
Definition js (s : string) : jsstring :=
  List.map N_of_ascii (list_ascii_of_string s).

Module JsString.

(** WhiteSpace and LineTerminator code units, as stripped by
    String.prototype.trim. *)
Definition is_white_space (c : N) : bool :=
  ((9 <=? c) && (c <=? 13) || (c =? 32) || (c =? 160) || (c =? 5760)
   || (8192 <=? c) && (c <=? 8202) || (c =? 8232) || (c =? 8233)
   || (c =? 8239) || (c =? 8287) || (c =? 12288) || (c =? 65279))%N.

Fixpoint trimStart (s : jsstring) : jsstring :=
  match s with
  | [] => []
  | c :: r => if is_white_space c then trimStart r else s
  end.

Definition trimEnd (s : jsstring) : jsstring := rev (trimStart (rev s)).

Definition trim (s : jsstring) : jsstring := trimEnd (trimStart s).

(** *** Code points

    The case conversions work on the code points of a string
    (StringToCodePoints): a leading surrogate followed by a trailing one
    is one code point, any other code unit, a lone surrogate included, is
    a code point by itself. *)
Definition is_leading_surrogate (c : N) : bool :=
  ((0xD800 <=? c) && (c <=? 0xDBFF))%N.

Definition is_trailing_surrogate (c : N) : bool :=
  ((0xDC00 <=? c) && (c <=? 0xDFFF))%N.

Definition UTF16SurrogatePairToCodePoint (lead trail : N) : N :=
  ((lead - 0xD800) * 0x400 + (trail - 0xDC00) + 0x10000)%N.

Fixpoint StringToCodePoints (s : jsstring) : list N :=
  match s with
  | [] => []
  | c :: r =>
      match r with
      | t :: r' =>
          if is_leading_surrogate c && is_trailing_surrogate t
          then UTF16SurrogatePairToCodePoint c t :: StringToCodePoints r'
          else c :: StringToCodePoints r
      | [] => [c]
      end
  end.

(** A code point is at most 0x10FFFF; the last branch is there for the
    numbers above, which are no code points, and leaves them as they
    are. *)
Definition UTF16EncodeCodePoint (cp : N) : jsstring :=
  (if cp <=? 0xFFFF then [cp]
   else if cp <=? 0x10FFFF then
     [(cp - 0x10000) / 0x400 + 0xD800; (cp - 0x10000) mod 0x400 + 0xDC00]
   else [cp])%N.

Definition CodePointsToString (cps : list N) : jsstring :=
  flat_map UTF16EncodeCodePoint cps.

(** *** Case mapping

    String.prototype.toLowerCase and toUpperCase use the locale-insensitive
    case mappings of the Unicode Character Database: the simple mappings of
    UnicodeData.txt, the unconditional mappings of SpecialCasing.txt and its
    one context-sensitive, language-insensitive rule, Final_Sigma.  The
    tables below are those of Unicode 14.0. *)

(** Simple lower-case mappings (UnicodeData.txt, field 13), as runs
    [(first, last, step, image of first)]: every [step]-th code point from
    [first] to [last] maps to the code point at the same distance from the
    image of [first]. *)
Definition lowercase_ranges : list (N * N * N * N) :=
  [(0x41, 0x5A, 1, 0x61); (0xC0, 0xD6, 1, 0xE0); (0xD8, 0xDE, 1, 0xF8);
   (0x100, 0x12E, 2, 0x101); (0x132, 0x136, 2, 0x133);
   (0x139, 0x147, 2, 0x13A); (0x14A, 0x176, 2, 0x14B);
   (0x178, 0x178, 1, 0xFF); (0x179, 0x17D, 2, 0x17A);
   (0x181, 0x181, 1, 0x253); (0x182, 0x184, 2, 0x183);
   (0x186, 0x186, 1, 0x254); (0x187, 0x187, 1, 0x188);
   (0x189, 0x18A, 1, 0x256); (0x18B, 0x18B, 1, 0x18C);
   (0x18E, 0x18E, 1, 0x1DD); (0x18F, 0x18F, 1, 0x259);
   (0x190, 0x190, 1, 0x25B); (0x191, 0x191, 1, 0x192);
   (0x193, 0x193, 1, 0x260); (0x194, 0x194, 1, 0x263);
   (0x196, 0x196, 1, 0x269); (0x197, 0x197, 1, 0x268);
   (0x198, 0x198, 1, 0x199); (0x19C, 0x19C, 1, 0x26F);
   (0x19D, 0x19D, 1, 0x272); (0x19F, 0x19F, 1, 0x275);
   (0x1A0, 0x1A4, 2, 0x1A1); (0x1A6, 0x1A6, 1, 0x280);
   (0x1A7, 0x1A7, 1, 0x1A8); (0x1A9, 0x1A9, 1, 0x283);
   (0x1AC, 0x1AC, 1, 0x1AD); (0x1AE, 0x1AE, 1, 0x288);
   (0x1AF, 0x1AF, 1, 0x1B0); (0x1B1, 0x1B2, 1, 0x28A);
   (0x1B3, 0x1B5, 2, 0x1B4); (0x1B7, 0x1B7, 1, 0x292);
   (0x1B8, 0x1B8, 1, 0x1B9); (0x1BC, 0x1BC, 1, 0x1BD);
   (0x1C4, 0x1C4, 1, 0x1C6); (0x1C5, 0x1C5, 1, 0x1C6);
   (0x1C7, 0x1C7, 1, 0x1C9); (0x1C8, 0x1C8, 1, 0x1C9);
   (0x1CA, 0x1CA, 1, 0x1CC); (0x1CB, 0x1DB, 2, 0x1CC);
   (0x1DE, 0x1EE, 2, 0x1DF); (0x1F1, 0x1F1, 1, 0x1F3);
   (0x1F2, 0x1F4, 2, 0x1F3); (0x1F6, 0x1F6, 1, 0x195);
   (0x1F7, 0x1F7, 1, 0x1BF); (0x1F8, 0x21E, 2, 0x1F9);
   (0x220, 0x220, 1, 0x19E); (0x222, 0x232, 2, 0x223);
   (0x23A, 0x23A, 1, 0x2C65); (0x23B, 0x23B, 1, 0x23C);
   (0x23D, 0x23D, 1, 0x19A); (0x23E, 0x23E, 1, 0x2C66);
   (0x241, 0x241, 1, 0x242); (0x243, 0x243, 1, 0x180);
   (0x244, 0x244, 1, 0x289); (0x245, 0x245, 1, 0x28C);
   (0x246, 0x24E, 2, 0x247); (0x370, 0x372, 2, 0x371);
   (0x376, 0x376, 1, 0x377); (0x37F, 0x37F, 1, 0x3F3);
   (0x386, 0x386, 1, 0x3AC); (0x388, 0x38A, 1, 0x3AD);
   (0x38C, 0x38C, 1, 0x3CC); (0x38E, 0x38F, 1, 0x3CD);
   (0x391, 0x3A1, 1, 0x3B1); (0x3A3, 0x3AB, 1, 0x3C3);
   (0x3CF, 0x3CF, 1, 0x3D7); (0x3D8, 0x3EE, 2, 0x3D9);
   (0x3F4, 0x3F4, 1, 0x3B8); (0x3F7, 0x3F7, 1, 0x3F8);
   (0x3F9, 0x3F9, 1, 0x3F2); (0x3FA, 0x3FA, 1, 0x3FB);
   (0x3FD, 0x3FF, 1, 0x37B); (0x400, 0x40F, 1, 0x450);
   (0x410, 0x42F, 1, 0x430); (0x460, 0x480, 2, 0x461);
   (0x48A, 0x4BE, 2, 0x48B); (0x4C0, 0x4C0, 1, 0x4CF);
   (0x4C1, 0x4CD, 2, 0x4C2); (0x4D0, 0x52E, 2, 0x4D1);
   (0x531, 0x556, 1, 0x561); (0x10A0, 0x10C5, 1, 0x2D00);
   (0x10C7, 0x10C7, 1, 0x2D27); (0x10CD, 0x10CD, 1, 0x2D2D);
   (0x13A0, 0x13EF, 1, 0xAB70); (0x13F0, 0x13F5, 1, 0x13F8);
   (0x1C90, 0x1CBA, 1, 0x10D0); (0x1CBD, 0x1CBF, 1, 0x10FD);
   (0x1E00, 0x1E94, 2, 0x1E01); (0x1E9E, 0x1E9E, 1, 0xDF);
   (0x1EA0, 0x1EFE, 2, 0x1EA1); (0x1F08, 0x1F0F, 1, 0x1F00);
   (0x1F18, 0x1F1D, 1, 0x1F10); (0x1F28, 0x1F2F, 1, 0x1F20);
   (0x1F38, 0x1F3F, 1, 0x1F30); (0x1F48, 0x1F4D, 1, 0x1F40);
   (0x1F59, 0x1F5F, 2, 0x1F51); (0x1F68, 0x1F6F, 1, 0x1F60);
   (0x1F88, 0x1F8F, 1, 0x1F80); (0x1F98, 0x1F9F, 1, 0x1F90);
   (0x1FA8, 0x1FAF, 1, 0x1FA0); (0x1FB8, 0x1FB9, 1, 0x1FB0);
   (0x1FBA, 0x1FBB, 1, 0x1F70); (0x1FBC, 0x1FBC, 1, 0x1FB3);
   (0x1FC8, 0x1FCB, 1, 0x1F72); (0x1FCC, 0x1FCC, 1, 0x1FC3);
   (0x1FD8, 0x1FD9, 1, 0x1FD0); (0x1FDA, 0x1FDB, 1, 0x1F76);
   (0x1FE8, 0x1FE9, 1, 0x1FE0); (0x1FEA, 0x1FEB, 1, 0x1F7A);
   (0x1FEC, 0x1FEC, 1, 0x1FE5); (0x1FF8, 0x1FF9, 1, 0x1F78);
   (0x1FFA, 0x1FFB, 1, 0x1F7C); (0x1FFC, 0x1FFC, 1, 0x1FF3);
   (0x2126, 0x2126, 1, 0x3C9); (0x212A, 0x212A, 1, 0x6B);
   (0x212B, 0x212B, 1, 0xE5); (0x2132, 0x2132, 1, 0x214E);
   (0x2160, 0x216F, 1, 0x2170); (0x2183, 0x2183, 1, 0x2184);
   (0x24B6, 0x24CF, 1, 0x24D0); (0x2C00, 0x2C2F, 1, 0x2C30);
   (0x2C60, 0x2C60, 1, 0x2C61); (0x2C62, 0x2C62, 1, 0x26B);
   (0x2C63, 0x2C63, 1, 0x1D7D); (0x2C64, 0x2C64, 1, 0x27D);
   (0x2C67, 0x2C6B, 2, 0x2C68); (0x2C6D, 0x2C6D, 1, 0x251);
   (0x2C6E, 0x2C6E, 1, 0x271); (0x2C6F, 0x2C6F, 1, 0x250);
   (0x2C70, 0x2C70, 1, 0x252); (0x2C72, 0x2C72, 1, 0x2C73);
   (0x2C75, 0x2C75, 1, 0x2C76); (0x2C7E, 0x2C7F, 1, 0x23F);
   (0x2C80, 0x2CE2, 2, 0x2C81); (0x2CEB, 0x2CED, 2, 0x2CEC);
   (0x2CF2, 0x2CF2, 1, 0x2CF3); (0xA640, 0xA66C, 2, 0xA641);
   (0xA680, 0xA69A, 2, 0xA681); (0xA722, 0xA72E, 2, 0xA723);
   (0xA732, 0xA76E, 2, 0xA733); (0xA779, 0xA77B, 2, 0xA77A);
   (0xA77D, 0xA77D, 1, 0x1D79); (0xA77E, 0xA786, 2, 0xA77F);
   (0xA78B, 0xA78B, 1, 0xA78C); (0xA78D, 0xA78D, 1, 0x265);
   (0xA790, 0xA792, 2, 0xA791); (0xA796, 0xA7A8, 2, 0xA797);
   (0xA7AA, 0xA7AA, 1, 0x266); (0xA7AB, 0xA7AB, 1, 0x25C);
   (0xA7AC, 0xA7AC, 1, 0x261); (0xA7AD, 0xA7AD, 1, 0x26C);
   (0xA7AE, 0xA7AE, 1, 0x26A); (0xA7B0, 0xA7B0, 1, 0x29E);
   (0xA7B1, 0xA7B1, 1, 0x287); (0xA7B2, 0xA7B2, 1, 0x29D);
   (0xA7B3, 0xA7B3, 1, 0xAB53); (0xA7B4, 0xA7C2, 2, 0xA7B5);
   (0xA7C4, 0xA7C4, 1, 0xA794); (0xA7C5, 0xA7C5, 1, 0x282);
   (0xA7C6, 0xA7C6, 1, 0x1D8E); (0xA7C7, 0xA7C9, 2, 0xA7C8);
   (0xA7D0, 0xA7D0, 1, 0xA7D1); (0xA7D6, 0xA7D8, 2, 0xA7D7);
   (0xA7F5, 0xA7F5, 1, 0xA7F6); (0xFF21, 0xFF3A, 1, 0xFF41);
   (0x10400, 0x10427, 1, 0x10428); (0x104B0, 0x104D3, 1, 0x104D8);
   (0x10570, 0x1057A, 1, 0x10597); (0x1057C, 0x1058A, 1, 0x105A3);
   (0x1058C, 0x10592, 1, 0x105B3); (0x10594, 0x10595, 1, 0x105BB);
   (0x10C80, 0x10CB2, 1, 0x10CC0); (0x118A0, 0x118BF, 1, 0x118C0);
   (0x16E40, 0x16E5F, 1, 0x16E60); (0x1E900, 0x1E921, 1, 0x1E922)]%N.

(** The unconditional lower-case mappings of SpecialCasing.txt. *)
Definition lowercase_special : list (N * list N) :=
  [(0x130, [0x69; 0x307])]%N.

(** Simple upper-case mappings (UnicodeData.txt, field 12), as runs. *)
Definition uppercase_ranges : list (N * N * N * N) :=
  [(0x61, 0x7A, 1, 0x41); (0xB5, 0xB5, 1, 0x39C); (0xE0, 0xF6, 1, 0xC0);
   (0xF8, 0xFE, 1, 0xD8); (0xFF, 0xFF, 1, 0x178); (0x101, 0x12F, 2, 0x100);
   (0x131, 0x131, 1, 0x49); (0x133, 0x137, 2, 0x132);
   (0x13A, 0x148, 2, 0x139); (0x14B, 0x177, 2, 0x14A);
   (0x17A, 0x17E, 2, 0x179); (0x17F, 0x17F, 1, 0x53);
   (0x180, 0x180, 1, 0x243); (0x183, 0x185, 2, 0x182);
   (0x188, 0x188, 1, 0x187); (0x18C, 0x18C, 1, 0x18B);
   (0x192, 0x192, 1, 0x191); (0x195, 0x195, 1, 0x1F6);
   (0x199, 0x199, 1, 0x198); (0x19A, 0x19A, 1, 0x23D);
   (0x19E, 0x19E, 1, 0x220); (0x1A1, 0x1A5, 2, 0x1A0);
   (0x1A8, 0x1A8, 1, 0x1A7); (0x1AD, 0x1AD, 1, 0x1AC);
   (0x1B0, 0x1B0, 1, 0x1AF); (0x1B4, 0x1B6, 2, 0x1B3);
   (0x1B9, 0x1B9, 1, 0x1B8); (0x1BD, 0x1BD, 1, 0x1BC);
   (0x1BF, 0x1BF, 1, 0x1F7); (0x1C5, 0x1C5, 1, 0x1C4);
   (0x1C6, 0x1C6, 1, 0x1C4); (0x1C8, 0x1C8, 1, 0x1C7);
   (0x1C9, 0x1C9, 1, 0x1C7); (0x1CB, 0x1CB, 1, 0x1CA);
   (0x1CC, 0x1CC, 1, 0x1CA); (0x1CE, 0x1DC, 2, 0x1CD);
   (0x1DD, 0x1DD, 1, 0x18E); (0x1DF, 0x1EF, 2, 0x1DE);
   (0x1F2, 0x1F2, 1, 0x1F1); (0x1F3, 0x1F3, 1, 0x1F1);
   (0x1F5, 0x1F5, 1, 0x1F4); (0x1F9, 0x21F, 2, 0x1F8);
   (0x223, 0x233, 2, 0x222); (0x23C, 0x23C, 1, 0x23B);
   (0x23F, 0x240, 1, 0x2C7E); (0x242, 0x242, 1, 0x241);
   (0x247, 0x24F, 2, 0x246); (0x250, 0x250, 1, 0x2C6F);
   (0x251, 0x251, 1, 0x2C6D); (0x252, 0x252, 1, 0x2C70);
   (0x253, 0x253, 1, 0x181); (0x254, 0x254, 1, 0x186);
   (0x256, 0x257, 1, 0x189); (0x259, 0x259, 1, 0x18F);
   (0x25B, 0x25B, 1, 0x190); (0x25C, 0x25C, 1, 0xA7AB);
   (0x260, 0x260, 1, 0x193); (0x261, 0x261, 1, 0xA7AC);
   (0x263, 0x263, 1, 0x194); (0x265, 0x265, 1, 0xA78D);
   (0x266, 0x266, 1, 0xA7AA); (0x268, 0x268, 1, 0x197);
   (0x269, 0x269, 1, 0x196); (0x26A, 0x26A, 1, 0xA7AE);
   (0x26B, 0x26B, 1, 0x2C62); (0x26C, 0x26C, 1, 0xA7AD);
   (0x26F, 0x26F, 1, 0x19C); (0x271, 0x271, 1, 0x2C6E);
   (0x272, 0x272, 1, 0x19D); (0x275, 0x275, 1, 0x19F);
   (0x27D, 0x27D, 1, 0x2C64); (0x280, 0x280, 1, 0x1A6);
   (0x282, 0x282, 1, 0xA7C5); (0x283, 0x283, 1, 0x1A9);
   (0x287, 0x287, 1, 0xA7B1); (0x288, 0x288, 1, 0x1AE);
   (0x289, 0x289, 1, 0x244); (0x28A, 0x28B, 1, 0x1B1);
   (0x28C, 0x28C, 1, 0x245); (0x292, 0x292, 1, 0x1B7);
   (0x29D, 0x29D, 1, 0xA7B2); (0x29E, 0x29E, 1, 0xA7B0);
   (0x345, 0x345, 1, 0x399); (0x371, 0x373, 2, 0x370);
   (0x377, 0x377, 1, 0x376); (0x37B, 0x37D, 1, 0x3FD);
   (0x3AC, 0x3AC, 1, 0x386); (0x3AD, 0x3AF, 1, 0x388);
   (0x3B1, 0x3C1, 1, 0x391); (0x3C2, 0x3C2, 1, 0x3A3);
   (0x3C3, 0x3CB, 1, 0x3A3); (0x3CC, 0x3CC, 1, 0x38C);
   (0x3CD, 0x3CE, 1, 0x38E); (0x3D0, 0x3D0, 1, 0x392);
   (0x3D1, 0x3D1, 1, 0x398); (0x3D5, 0x3D5, 1, 0x3A6);
   (0x3D6, 0x3D6, 1, 0x3A0); (0x3D7, 0x3D7, 1, 0x3CF);
   (0x3D9, 0x3EF, 2, 0x3D8); (0x3F0, 0x3F0, 1, 0x39A);
   (0x3F1, 0x3F1, 1, 0x3A1); (0x3F2, 0x3F2, 1, 0x3F9);
   (0x3F3, 0x3F3, 1, 0x37F); (0x3F5, 0x3F5, 1, 0x395);
   (0x3F8, 0x3F8, 1, 0x3F7); (0x3FB, 0x3FB, 1, 0x3FA);
   (0x430, 0x44F, 1, 0x410); (0x450, 0x45F, 1, 0x400);
   (0x461, 0x481, 2, 0x460); (0x48B, 0x4BF, 2, 0x48A);
   (0x4C2, 0x4CE, 2, 0x4C1); (0x4CF, 0x4CF, 1, 0x4C0);
   (0x4D1, 0x52F, 2, 0x4D0); (0x561, 0x586, 1, 0x531);
   (0x10D0, 0x10FA, 1, 0x1C90); (0x10FD, 0x10FF, 1, 0x1CBD);
   (0x13F8, 0x13FD, 1, 0x13F0); (0x1C80, 0x1C80, 1, 0x412);
   (0x1C81, 0x1C81, 1, 0x414); (0x1C82, 0x1C82, 1, 0x41E);
   (0x1C83, 0x1C84, 1, 0x421); (0x1C85, 0x1C85, 1, 0x422);
   (0x1C86, 0x1C86, 1, 0x42A); (0x1C87, 0x1C87, 1, 0x462);
   (0x1C88, 0x1C88, 1, 0xA64A); (0x1D79, 0x1D79, 1, 0xA77D);
   (0x1D7D, 0x1D7D, 1, 0x2C63); (0x1D8E, 0x1D8E, 1, 0xA7C6);
   (0x1E01, 0x1E95, 2, 0x1E00); (0x1E9B, 0x1E9B, 1, 0x1E60);
   (0x1EA1, 0x1EFF, 2, 0x1EA0); (0x1F00, 0x1F07, 1, 0x1F08);
   (0x1F10, 0x1F15, 1, 0x1F18); (0x1F20, 0x1F27, 1, 0x1F28);
   (0x1F30, 0x1F37, 1, 0x1F38); (0x1F40, 0x1F45, 1, 0x1F48);
   (0x1F51, 0x1F57, 2, 0x1F59); (0x1F60, 0x1F67, 1, 0x1F68);
   (0x1F70, 0x1F71, 1, 0x1FBA); (0x1F72, 0x1F75, 1, 0x1FC8);
   (0x1F76, 0x1F77, 1, 0x1FDA); (0x1F78, 0x1F79, 1, 0x1FF8);
   (0x1F7A, 0x1F7B, 1, 0x1FEA); (0x1F7C, 0x1F7D, 1, 0x1FFA);
   (0x1FB0, 0x1FB1, 1, 0x1FB8); (0x1FBE, 0x1FBE, 1, 0x399);
   (0x1FD0, 0x1FD1, 1, 0x1FD8); (0x1FE0, 0x1FE1, 1, 0x1FE8);
   (0x1FE5, 0x1FE5, 1, 0x1FEC); (0x214E, 0x214E, 1, 0x2132);
   (0x2170, 0x217F, 1, 0x2160); (0x2184, 0x2184, 1, 0x2183);
   (0x24D0, 0x24E9, 1, 0x24B6); (0x2C30, 0x2C5F, 1, 0x2C00);
   (0x2C61, 0x2C61, 1, 0x2C60); (0x2C65, 0x2C65, 1, 0x23A);
   (0x2C66, 0x2C66, 1, 0x23E); (0x2C68, 0x2C6C, 2, 0x2C67);
   (0x2C73, 0x2C73, 1, 0x2C72); (0x2C76, 0x2C76, 1, 0x2C75);
   (0x2C81, 0x2CE3, 2, 0x2C80); (0x2CEC, 0x2CEE, 2, 0x2CEB);
   (0x2CF3, 0x2CF3, 1, 0x2CF2); (0x2D00, 0x2D25, 1, 0x10A0);
   (0x2D27, 0x2D27, 1, 0x10C7); (0x2D2D, 0x2D2D, 1, 0x10CD);
   (0xA641, 0xA66D, 2, 0xA640); (0xA681, 0xA69B, 2, 0xA680);
   (0xA723, 0xA72F, 2, 0xA722); (0xA733, 0xA76F, 2, 0xA732);
   (0xA77A, 0xA77C, 2, 0xA779); (0xA77F, 0xA787, 2, 0xA77E);
   (0xA78C, 0xA78C, 1, 0xA78B); (0xA791, 0xA793, 2, 0xA790);
   (0xA794, 0xA794, 1, 0xA7C4); (0xA797, 0xA7A9, 2, 0xA796);
   (0xA7B5, 0xA7C3, 2, 0xA7B4); (0xA7C8, 0xA7CA, 2, 0xA7C7);
   (0xA7D1, 0xA7D1, 1, 0xA7D0); (0xA7D7, 0xA7D9, 2, 0xA7D6);
   (0xA7F6, 0xA7F6, 1, 0xA7F5); (0xAB53, 0xAB53, 1, 0xA7B3);
   (0xAB70, 0xABBF, 1, 0x13A0); (0xFF41, 0xFF5A, 1, 0xFF21);
   (0x10428, 0x1044F, 1, 0x10400); (0x104D8, 0x104FB, 1, 0x104B0);
   (0x10597, 0x105A1, 1, 0x10570); (0x105A3, 0x105B1, 1, 0x1057C);
   (0x105B3, 0x105B9, 1, 0x1058C); (0x105BB, 0x105BC, 1, 0x10594);
   (0x10CC0, 0x10CF2, 1, 0x10C80); (0x118C0, 0x118DF, 1, 0x118A0);
   (0x16E60, 0x16E7F, 1, 0x16E40); (0x1E922, 0x1E943, 1, 0x1E900)]%N.

(** The unconditional upper-case mappings of SpecialCasing.txt. *)
Definition uppercase_special : list (N * list N) :=
  [(0xDF, [0x53; 0x53]); (0x149, [0x2BC; 0x4E]); (0x1F0, [0x4A; 0x30C]);
   (0x390, [0x399; 0x308; 0x301]); (0x3B0, [0x3A5; 0x308; 0x301]);
   (0x587, [0x535; 0x552]); (0x1E96, [0x48; 0x331]); (0x1E97, [0x54; 0x308]);
   (0x1E98, [0x57; 0x30A]); (0x1E99, [0x59; 0x30A]); (0x1E9A, [0x41; 0x2BE]);
   (0x1F50, [0x3A5; 0x313]); (0x1F52, [0x3A5; 0x313; 0x300]);
   (0x1F54, [0x3A5; 0x313; 0x301]); (0x1F56, [0x3A5; 0x313; 0x342]);
   (0x1F80, [0x1F08; 0x399]); (0x1F81, [0x1F09; 0x399]);
   (0x1F82, [0x1F0A; 0x399]); (0x1F83, [0x1F0B; 0x399]);
   (0x1F84, [0x1F0C; 0x399]); (0x1F85, [0x1F0D; 0x399]);
   (0x1F86, [0x1F0E; 0x399]); (0x1F87, [0x1F0F; 0x399]);
   (0x1F88, [0x1F08; 0x399]); (0x1F89, [0x1F09; 0x399]);
   (0x1F8A, [0x1F0A; 0x399]); (0x1F8B, [0x1F0B; 0x399]);
   (0x1F8C, [0x1F0C; 0x399]); (0x1F8D, [0x1F0D; 0x399]);
   (0x1F8E, [0x1F0E; 0x399]); (0x1F8F, [0x1F0F; 0x399]);
   (0x1F90, [0x1F28; 0x399]); (0x1F91, [0x1F29; 0x399]);
   (0x1F92, [0x1F2A; 0x399]); (0x1F93, [0x1F2B; 0x399]);
   (0x1F94, [0x1F2C; 0x399]); (0x1F95, [0x1F2D; 0x399]);
   (0x1F96, [0x1F2E; 0x399]); (0x1F97, [0x1F2F; 0x399]);
   (0x1F98, [0x1F28; 0x399]); (0x1F99, [0x1F29; 0x399]);
   (0x1F9A, [0x1F2A; 0x399]); (0x1F9B, [0x1F2B; 0x399]);
   (0x1F9C, [0x1F2C; 0x399]); (0x1F9D, [0x1F2D; 0x399]);
   (0x1F9E, [0x1F2E; 0x399]); (0x1F9F, [0x1F2F; 0x399]);
   (0x1FA0, [0x1F68; 0x399]); (0x1FA1, [0x1F69; 0x399]);
   (0x1FA2, [0x1F6A; 0x399]); (0x1FA3, [0x1F6B; 0x399]);
   (0x1FA4, [0x1F6C; 0x399]); (0x1FA5, [0x1F6D; 0x399]);
   (0x1FA6, [0x1F6E; 0x399]); (0x1FA7, [0x1F6F; 0x399]);
   (0x1FA8, [0x1F68; 0x399]); (0x1FA9, [0x1F69; 0x399]);
   (0x1FAA, [0x1F6A; 0x399]); (0x1FAB, [0x1F6B; 0x399]);
   (0x1FAC, [0x1F6C; 0x399]); (0x1FAD, [0x1F6D; 0x399]);
   (0x1FAE, [0x1F6E; 0x399]); (0x1FAF, [0x1F6F; 0x399]);
   (0x1FB2, [0x1FBA; 0x399]); (0x1FB3, [0x391; 0x399]);
   (0x1FB4, [0x386; 0x399]); (0x1FB6, [0x391; 0x342]);
   (0x1FB7, [0x391; 0x342; 0x399]); (0x1FBC, [0x391; 0x399]);
   (0x1FC2, [0x1FCA; 0x399]); (0x1FC3, [0x397; 0x399]);
   (0x1FC4, [0x389; 0x399]); (0x1FC6, [0x397; 0x342]);
   (0x1FC7, [0x397; 0x342; 0x399]); (0x1FCC, [0x397; 0x399]);
   (0x1FD2, [0x399; 0x308; 0x300]); (0x1FD3, [0x399; 0x308; 0x301]);
   (0x1FD6, [0x399; 0x342]); (0x1FD7, [0x399; 0x308; 0x342]);
   (0x1FE2, [0x3A5; 0x308; 0x300]); (0x1FE3, [0x3A5; 0x308; 0x301]);
   (0x1FE4, [0x3A1; 0x313]); (0x1FE6, [0x3A5; 0x342]);
   (0x1FE7, [0x3A5; 0x308; 0x342]); (0x1FF2, [0x1FFA; 0x399]);
   (0x1FF3, [0x3A9; 0x399]); (0x1FF4, [0x38F; 0x399]);
   (0x1FF6, [0x3A9; 0x342]); (0x1FF7, [0x3A9; 0x342; 0x399]);
   (0x1FFC, [0x3A9; 0x399]); (0xFB00, [0x46; 0x46]); (0xFB01, [0x46; 0x49]);
   (0xFB02, [0x46; 0x4C]); (0xFB03, [0x46; 0x46; 0x49]);
   (0xFB04, [0x46; 0x46; 0x4C]); (0xFB05, [0x53; 0x54]);
   (0xFB06, [0x53; 0x54]); (0xFB13, [0x544; 0x546]);
   (0xFB14, [0x544; 0x535]); (0xFB15, [0x544; 0x53B]);
   (0xFB16, [0x54E; 0x546]); (0xFB17, [0x544; 0x53D])]%N.

(** The code points with the property Cased (DerivedCoreProperties.txt). *)
Definition Cased_ranges : list (N * N) :=
  [(0x41, 0x5A); (0x61, 0x7A); (0xAA, 0xAA); (0xB5, 0xB5); (0xBA, 0xBA);
   (0xC0, 0xD6); (0xD8, 0xF6); (0xF8, 0x1BA); (0x1BC, 0x1BF); (0x1C4, 0x293);
   (0x295, 0x2B8); (0x2C0, 0x2C1); (0x2E0, 0x2E4); (0x345, 0x345);
   (0x370, 0x373); (0x376, 0x377); (0x37A, 0x37D); (0x37F, 0x37F);
   (0x386, 0x386); (0x388, 0x38A); (0x38C, 0x38C); (0x38E, 0x3A1);
   (0x3A3, 0x3F5); (0x3F7, 0x481); (0x48A, 0x52F); (0x531, 0x556);
   (0x560, 0x588); (0x10A0, 0x10C5); (0x10C7, 0x10C7); (0x10CD, 0x10CD);
   (0x10D0, 0x10FA); (0x10FD, 0x10FF); (0x13A0, 0x13F5); (0x13F8, 0x13FD);
   (0x1C80, 0x1C88); (0x1C90, 0x1CBA); (0x1CBD, 0x1CBF); (0x1D00, 0x1DBF);
   (0x1E00, 0x1F15); (0x1F18, 0x1F1D); (0x1F20, 0x1F45); (0x1F48, 0x1F4D);
   (0x1F50, 0x1F57); (0x1F59, 0x1F59); (0x1F5B, 0x1F5B); (0x1F5D, 0x1F5D);
   (0x1F5F, 0x1F7D); (0x1F80, 0x1FB4); (0x1FB6, 0x1FBC); (0x1FBE, 0x1FBE);
   (0x1FC2, 0x1FC4); (0x1FC6, 0x1FCC); (0x1FD0, 0x1FD3); (0x1FD6, 0x1FDB);
   (0x1FE0, 0x1FEC); (0x1FF2, 0x1FF4); (0x1FF6, 0x1FFC); (0x2071, 0x2071);
   (0x207F, 0x207F); (0x2090, 0x209C); (0x2102, 0x2102); (0x2107, 0x2107);
   (0x210A, 0x2113); (0x2115, 0x2115); (0x2119, 0x211D); (0x2124, 0x2124);
   (0x2126, 0x2126); (0x2128, 0x2128); (0x212A, 0x212D); (0x212F, 0x2134);
   (0x2139, 0x2139); (0x213C, 0x213F); (0x2145, 0x2149); (0x214E, 0x214E);
   (0x2160, 0x217F); (0x2183, 0x2184); (0x24B6, 0x24E9); (0x2C00, 0x2CE4);
   (0x2CEB, 0x2CEE); (0x2CF2, 0x2CF3); (0x2D00, 0x2D25); (0x2D27, 0x2D27);
   (0x2D2D, 0x2D2D); (0xA640, 0xA66D); (0xA680, 0xA69D); (0xA722, 0xA787);
   (0xA78B, 0xA78E); (0xA790, 0xA7CA); (0xA7D0, 0xA7D1); (0xA7D3, 0xA7D3);
   (0xA7D5, 0xA7D9); (0xA7F5, 0xA7F6); (0xA7F8, 0xA7FA); (0xAB30, 0xAB5A);
   (0xAB5C, 0xAB68); (0xAB70, 0xABBF); (0xFB00, 0xFB06); (0xFB13, 0xFB17);
   (0xFF21, 0xFF3A); (0xFF41, 0xFF5A); (0x10400, 0x1044F);
   (0x104B0, 0x104D3); (0x104D8, 0x104FB); (0x10570, 0x1057A);
   (0x1057C, 0x1058A); (0x1058C, 0x10592); (0x10594, 0x10595);
   (0x10597, 0x105A1); (0x105A3, 0x105B1); (0x105B3, 0x105B9);
   (0x105BB, 0x105BC); (0x10780, 0x10780); (0x10783, 0x10785);
   (0x10787, 0x107B0); (0x107B2, 0x107BA); (0x10C80, 0x10CB2);
   (0x10CC0, 0x10CF2); (0x118A0, 0x118DF); (0x16E40, 0x16E7F);
   (0x1D400, 0x1D454); (0x1D456, 0x1D49C); (0x1D49E, 0x1D49F);
   (0x1D4A2, 0x1D4A2); (0x1D4A5, 0x1D4A6); (0x1D4A9, 0x1D4AC);
   (0x1D4AE, 0x1D4B9); (0x1D4BB, 0x1D4BB); (0x1D4BD, 0x1D4C3);
   (0x1D4C5, 0x1D505); (0x1D507, 0x1D50A); (0x1D50D, 0x1D514);
   (0x1D516, 0x1D51C); (0x1D51E, 0x1D539); (0x1D53B, 0x1D53E);
   (0x1D540, 0x1D544); (0x1D546, 0x1D546); (0x1D54A, 0x1D550);
   (0x1D552, 0x1D6A5); (0x1D6A8, 0x1D6C0); (0x1D6C2, 0x1D6DA);
   (0x1D6DC, 0x1D6FA); (0x1D6FC, 0x1D714); (0x1D716, 0x1D734);
   (0x1D736, 0x1D74E); (0x1D750, 0x1D76E); (0x1D770, 0x1D788);
   (0x1D78A, 0x1D7A8); (0x1D7AA, 0x1D7C2); (0x1D7C4, 0x1D7CB);
   (0x1DF00, 0x1DF09); (0x1DF0B, 0x1DF1E); (0x1E900, 0x1E943);
   (0x1F130, 0x1F149); (0x1F150, 0x1F169); (0x1F170, 0x1F189)]%N.

(** The code points with the property Case_Ignorable
    (DerivedCoreProperties.txt). *)
Definition Case_Ignorable_ranges : list (N * N) :=
  [(0x27, 0x27); (0x2E, 0x2E); (0x3A, 0x3A); (0x5E, 0x5E); (0x60, 0x60);
   (0xA8, 0xA8); (0xAD, 0xAD); (0xAF, 0xAF); (0xB4, 0xB4); (0xB7, 0xB8);
   (0x2B0, 0x36F); (0x374, 0x375); (0x37A, 0x37A); (0x384, 0x385);
   (0x387, 0x387); (0x483, 0x489); (0x559, 0x559); (0x55F, 0x55F);
   (0x591, 0x5BD); (0x5BF, 0x5BF); (0x5C1, 0x5C2); (0x5C4, 0x5C5);
   (0x5C7, 0x5C7); (0x5F4, 0x5F4); (0x600, 0x605); (0x610, 0x61A);
   (0x61C, 0x61C); (0x640, 0x640); (0x64B, 0x65F); (0x670, 0x670);
   (0x6D6, 0x6DD); (0x6DF, 0x6E8); (0x6EA, 0x6ED); (0x70F, 0x70F);
   (0x711, 0x711); (0x730, 0x74A); (0x7A6, 0x7B0); (0x7EB, 0x7F5);
   (0x7FA, 0x7FA); (0x7FD, 0x7FD); (0x816, 0x82D); (0x859, 0x85B);
   (0x888, 0x888); (0x890, 0x891); (0x898, 0x89F); (0x8C9, 0x902);
   (0x93A, 0x93A); (0x93C, 0x93C); (0x941, 0x948); (0x94D, 0x94D);
   (0x951, 0x957); (0x962, 0x963); (0x971, 0x971); (0x981, 0x981);
   (0x9BC, 0x9BC); (0x9C1, 0x9C4); (0x9CD, 0x9CD); (0x9E2, 0x9E3);
   (0x9FE, 0x9FE); (0xA01, 0xA02); (0xA3C, 0xA3C); (0xA41, 0xA42);
   (0xA47, 0xA48); (0xA4B, 0xA4D); (0xA51, 0xA51); (0xA70, 0xA71);
   (0xA75, 0xA75); (0xA81, 0xA82); (0xABC, 0xABC); (0xAC1, 0xAC5);
   (0xAC7, 0xAC8); (0xACD, 0xACD); (0xAE2, 0xAE3); (0xAFA, 0xAFF);
   (0xB01, 0xB01); (0xB3C, 0xB3C); (0xB3F, 0xB3F); (0xB41, 0xB44);
   (0xB4D, 0xB4D); (0xB55, 0xB56); (0xB62, 0xB63); (0xB82, 0xB82);
   (0xBC0, 0xBC0); (0xBCD, 0xBCD); (0xC00, 0xC00); (0xC04, 0xC04);
   (0xC3C, 0xC3C); (0xC3E, 0xC40); (0xC46, 0xC48); (0xC4A, 0xC4D);
   (0xC55, 0xC56); (0xC62, 0xC63); (0xC81, 0xC81); (0xCBC, 0xCBC);
   (0xCBF, 0xCBF); (0xCC6, 0xCC6); (0xCCC, 0xCCD); (0xCE2, 0xCE3);
   (0xD00, 0xD01); (0xD3B, 0xD3C); (0xD41, 0xD44); (0xD4D, 0xD4D);
   (0xD62, 0xD63); (0xD81, 0xD81); (0xDCA, 0xDCA); (0xDD2, 0xDD4);
   (0xDD6, 0xDD6); (0xE31, 0xE31); (0xE34, 0xE3A); (0xE46, 0xE4E);
   (0xEB1, 0xEB1); (0xEB4, 0xEBC); (0xEC6, 0xEC6); (0xEC8, 0xECD);
   (0xF18, 0xF19); (0xF35, 0xF35); (0xF37, 0xF37); (0xF39, 0xF39);
   (0xF71, 0xF7E); (0xF80, 0xF84); (0xF86, 0xF87); (0xF8D, 0xF97);
   (0xF99, 0xFBC); (0xFC6, 0xFC6); (0x102D, 0x1030); (0x1032, 0x1037);
   (0x1039, 0x103A); (0x103D, 0x103E); (0x1058, 0x1059); (0x105E, 0x1060);
   (0x1071, 0x1074); (0x1082, 0x1082); (0x1085, 0x1086); (0x108D, 0x108D);
   (0x109D, 0x109D); (0x10FC, 0x10FC); (0x135D, 0x135F); (0x1712, 0x1714);
   (0x1732, 0x1733); (0x1752, 0x1753); (0x1772, 0x1773); (0x17B4, 0x17B5);
   (0x17B7, 0x17BD); (0x17C6, 0x17C6); (0x17C9, 0x17D3); (0x17D7, 0x17D7);
   (0x17DD, 0x17DD); (0x180B, 0x180F); (0x1843, 0x1843); (0x1885, 0x1886);
   (0x18A9, 0x18A9); (0x1920, 0x1922); (0x1927, 0x1928); (0x1932, 0x1932);
   (0x1939, 0x193B); (0x1A17, 0x1A18); (0x1A1B, 0x1A1B); (0x1A56, 0x1A56);
   (0x1A58, 0x1A5E); (0x1A60, 0x1A60); (0x1A62, 0x1A62); (0x1A65, 0x1A6C);
   (0x1A73, 0x1A7C); (0x1A7F, 0x1A7F); (0x1AA7, 0x1AA7); (0x1AB0, 0x1ACE);
   (0x1B00, 0x1B03); (0x1B34, 0x1B34); (0x1B36, 0x1B3A); (0x1B3C, 0x1B3C);
   (0x1B42, 0x1B42); (0x1B6B, 0x1B73); (0x1B80, 0x1B81); (0x1BA2, 0x1BA5);
   (0x1BA8, 0x1BA9); (0x1BAB, 0x1BAD); (0x1BE6, 0x1BE6); (0x1BE8, 0x1BE9);
   (0x1BED, 0x1BED); (0x1BEF, 0x1BF1); (0x1C2C, 0x1C33); (0x1C36, 0x1C37);
   (0x1C78, 0x1C7D); (0x1CD0, 0x1CD2); (0x1CD4, 0x1CE0); (0x1CE2, 0x1CE8);
   (0x1CED, 0x1CED); (0x1CF4, 0x1CF4); (0x1CF8, 0x1CF9); (0x1D2C, 0x1D6A);
   (0x1D78, 0x1D78); (0x1D9B, 0x1DFF); (0x1FBD, 0x1FBD); (0x1FBF, 0x1FC1);
   (0x1FCD, 0x1FCF); (0x1FDD, 0x1FDF); (0x1FED, 0x1FEF); (0x1FFD, 0x1FFE);
   (0x200B, 0x200F); (0x2018, 0x2019); (0x2024, 0x2024); (0x2027, 0x2027);
   (0x202A, 0x202E); (0x2060, 0x2064); (0x2066, 0x206F); (0x2071, 0x2071);
   (0x207F, 0x207F); (0x2090, 0x209C); (0x20D0, 0x20F0); (0x2C7C, 0x2C7D);
   (0x2CEF, 0x2CF1); (0x2D6F, 0x2D6F); (0x2D7F, 0x2D7F); (0x2DE0, 0x2DFF);
   (0x2E2F, 0x2E2F); (0x3005, 0x3005); (0x302A, 0x302D); (0x3031, 0x3035);
   (0x303B, 0x303B); (0x3099, 0x309E); (0x30FC, 0x30FE); (0xA015, 0xA015);
   (0xA4F8, 0xA4FD); (0xA60C, 0xA60C); (0xA66F, 0xA672); (0xA674, 0xA67D);
   (0xA67F, 0xA67F); (0xA69C, 0xA69F); (0xA6F0, 0xA6F1); (0xA700, 0xA721);
   (0xA770, 0xA770); (0xA788, 0xA78A); (0xA7F2, 0xA7F4); (0xA7F8, 0xA7F9);
   (0xA802, 0xA802); (0xA806, 0xA806); (0xA80B, 0xA80B); (0xA825, 0xA826);
   (0xA82C, 0xA82C); (0xA8C4, 0xA8C5); (0xA8E0, 0xA8F1); (0xA8FF, 0xA8FF);
   (0xA926, 0xA92D); (0xA947, 0xA951); (0xA980, 0xA982); (0xA9B3, 0xA9B3);
   (0xA9B6, 0xA9B9); (0xA9BC, 0xA9BD); (0xA9CF, 0xA9CF); (0xA9E5, 0xA9E6);
   (0xAA29, 0xAA2E); (0xAA31, 0xAA32); (0xAA35, 0xAA36); (0xAA43, 0xAA43);
   (0xAA4C, 0xAA4C); (0xAA70, 0xAA70); (0xAA7C, 0xAA7C); (0xAAB0, 0xAAB0);
   (0xAAB2, 0xAAB4); (0xAAB7, 0xAAB8); (0xAABE, 0xAABF); (0xAAC1, 0xAAC1);
   (0xAADD, 0xAADD); (0xAAEC, 0xAAED); (0xAAF3, 0xAAF4); (0xAAF6, 0xAAF6);
   (0xAB5B, 0xAB5F); (0xAB69, 0xAB6B); (0xABE5, 0xABE5); (0xABE8, 0xABE8);
   (0xABED, 0xABED); (0xFB1E, 0xFB1E); (0xFBB2, 0xFBC2); (0xFE00, 0xFE0F);
   (0xFE13, 0xFE13); (0xFE20, 0xFE2F); (0xFE52, 0xFE52); (0xFE55, 0xFE55);
   (0xFEFF, 0xFEFF); (0xFF07, 0xFF07); (0xFF0E, 0xFF0E); (0xFF1A, 0xFF1A);
   (0xFF3E, 0xFF3E); (0xFF40, 0xFF40); (0xFF70, 0xFF70); (0xFF9E, 0xFF9F);
   (0xFFE3, 0xFFE3); (0xFFF9, 0xFFFB); (0x101FD, 0x101FD);
   (0x102E0, 0x102E0); (0x10376, 0x1037A); (0x10780, 0x10785);
   (0x10787, 0x107B0); (0x107B2, 0x107BA); (0x10A01, 0x10A03);
   (0x10A05, 0x10A06); (0x10A0C, 0x10A0F); (0x10A38, 0x10A3A);
   (0x10A3F, 0x10A3F); (0x10AE5, 0x10AE6); (0x10D24, 0x10D27);
   (0x10EAB, 0x10EAC); (0x10F46, 0x10F50); (0x10F82, 0x10F85);
   (0x11001, 0x11001); (0x11038, 0x11046); (0x11070, 0x11070);
   (0x11073, 0x11074); (0x1107F, 0x11081); (0x110B3, 0x110B6);
   (0x110B9, 0x110BA); (0x110BD, 0x110BD); (0x110C2, 0x110C2);
   (0x110CD, 0x110CD); (0x11100, 0x11102); (0x11127, 0x1112B);
   (0x1112D, 0x11134); (0x11173, 0x11173); (0x11180, 0x11181);
   (0x111B6, 0x111BE); (0x111C9, 0x111CC); (0x111CF, 0x111CF);
   (0x1122F, 0x11231); (0x11234, 0x11234); (0x11236, 0x11237);
   (0x1123E, 0x1123E); (0x112DF, 0x112DF); (0x112E3, 0x112EA);
   (0x11300, 0x11301); (0x1133B, 0x1133C); (0x11340, 0x11340);
   (0x11366, 0x1136C); (0x11370, 0x11374); (0x11438, 0x1143F);
   (0x11442, 0x11444); (0x11446, 0x11446); (0x1145E, 0x1145E);
   (0x114B3, 0x114B8); (0x114BA, 0x114BA); (0x114BF, 0x114C0);
   (0x114C2, 0x114C3); (0x115B2, 0x115B5); (0x115BC, 0x115BD);
   (0x115BF, 0x115C0); (0x115DC, 0x115DD); (0x11633, 0x1163A);
   (0x1163D, 0x1163D); (0x1163F, 0x11640); (0x116AB, 0x116AB);
   (0x116AD, 0x116AD); (0x116B0, 0x116B5); (0x116B7, 0x116B7);
   (0x1171D, 0x1171F); (0x11722, 0x11725); (0x11727, 0x1172B);
   (0x1182F, 0x11837); (0x11839, 0x1183A); (0x1193B, 0x1193C);
   (0x1193E, 0x1193E); (0x11943, 0x11943); (0x119D4, 0x119D7);
   (0x119DA, 0x119DB); (0x119E0, 0x119E0); (0x11A01, 0x11A0A);
   (0x11A33, 0x11A38); (0x11A3B, 0x11A3E); (0x11A47, 0x11A47);
   (0x11A51, 0x11A56); (0x11A59, 0x11A5B); (0x11A8A, 0x11A96);
   (0x11A98, 0x11A99); (0x11C30, 0x11C36); (0x11C38, 0x11C3D);
   (0x11C3F, 0x11C3F); (0x11C92, 0x11CA7); (0x11CAA, 0x11CB0);
   (0x11CB2, 0x11CB3); (0x11CB5, 0x11CB6); (0x11D31, 0x11D36);
   (0x11D3A, 0x11D3A); (0x11D3C, 0x11D3D); (0x11D3F, 0x11D45);
   (0x11D47, 0x11D47); (0x11D90, 0x11D91); (0x11D95, 0x11D95);
   (0x11D97, 0x11D97); (0x11EF3, 0x11EF4); (0x13430, 0x13438);
   (0x16AF0, 0x16AF4); (0x16B30, 0x16B36); (0x16B40, 0x16B43);
   (0x16F4F, 0x16F4F); (0x16F8F, 0x16F9F); (0x16FE0, 0x16FE1);
   (0x16FE3, 0x16FE4); (0x1AFF0, 0x1AFF3); (0x1AFF5, 0x1AFFB);
   (0x1AFFD, 0x1AFFE); (0x1BC9D, 0x1BC9E); (0x1BCA0, 0x1BCA3);
   (0x1CF00, 0x1CF2D); (0x1CF30, 0x1CF46); (0x1D167, 0x1D169);
   (0x1D173, 0x1D182); (0x1D185, 0x1D18B); (0x1D1AA, 0x1D1AD);
   (0x1D242, 0x1D244); (0x1DA00, 0x1DA36); (0x1DA3B, 0x1DA6C);
   (0x1DA75, 0x1DA75); (0x1DA84, 0x1DA84); (0x1DA9B, 0x1DA9F);
   (0x1DAA1, 0x1DAAF); (0x1E000, 0x1E006); (0x1E008, 0x1E018);
   (0x1E01B, 0x1E021); (0x1E023, 0x1E024); (0x1E026, 0x1E02A);
   (0x1E130, 0x1E13D); (0x1E2AE, 0x1E2AE); (0x1E2EC, 0x1E2EF);
   (0x1E8D0, 0x1E8D6); (0x1E944, 0x1E94B); (0x1F3FB, 0x1F3FF);
   (0xE0001, 0xE0001); (0xE0020, 0xE007F); (0xE0100, 0xE01EF)]%N.

Definition expand_range (r : N * N * N * N) : list (N * list N) :=
  let '(first, last, step, image) := r in
  List.map
    (fun k => (first + step * N.of_nat k, [image + step * N.of_nat k])%N)
    (seq 0 (S (N.to_nat ((last - first) / step)))).

(** The mappings, code point by code point: the special ones, then the
    simple ones. *)
Definition lowercase_mapping : list (N * list N) :=
  Eval vm_compute in
    lowercase_special ++ flat_map expand_range lowercase_ranges.

Definition uppercase_mapping : list (N * list N) :=
  Eval vm_compute in
    uppercase_special ++ flat_map expand_range uppercase_ranges.

Fixpoint assoc {A} (c : N) (l : list (N * A)) : option A :=
  match l with
  | [] => None
  | (k, v) :: r => if (k =? c)%N then Some v else assoc c r
  end.

(** A code point without a mapping is its own lower and upper case. *)
Definition lower_cp (c : N) : list N :=
  match assoc c lowercase_mapping with
  | Some l => l
  | None => [c]
  end.

Definition upper_cp (c : N) : list N :=
  match assoc c uppercase_mapping with
  | Some l => l
  | None => [c]
  end.

Definition in_ranges (ranges : list (N * N)) (c : N) : bool :=
  existsb (fun '(first, last) => (first <=? c) && (c <=? last))%N ranges.

Definition Cased (c : N) : bool := in_ranges Cased_ranges c.

Definition Case_Ignorable (c : N) : bool := in_ranges Case_Ignorable_ranges c.

(** The code points start with zero or more case-ignorable ones and then a
    cased letter.  Final_Sigma asks this of what follows a capital sigma
    and, read backwards, of what comes before it. *)
Fixpoint followed_by_cased (cps : list N) : bool :=
  match cps with
  | [] => false
  | c :: r => if Case_Ignorable c then followed_by_cased r else Cased c
  end.

(** The lower case of [c] between the code points [before] (nearest
    first) and [after]: U+03A3 becomes U+03C2 at the end of a word and
    U+03C3 elsewhere. *)
Definition lower_at (before : list N) (c : N) (after : list N) : list N :=
  if (c =? 0x3A3)%N then
    if followed_by_cased before && negb (followed_by_cased after)
    then [0x3C2%N] else [0x3C3%N]
  else lower_cp c.

Fixpoint toLowercase (before cps : list N) : list N :=
  match cps with
  | [] => []
  | c :: r => lower_at before c r ++ toLowercase (c :: before) r
  end.

Definition toLowerCase (s : jsstring) : jsstring :=
  CodePointsToString (toLowercase [] (StringToCodePoints s)).


Fixpoint startsWith (s p : jsstring) : bool :=
  match p, s with
  | [], _ => true
  | _ :: _, [] => false
  | a :: p', b :: s' => (a =? b)%N && startsWith s' p'
  end.

(** [s.includes(p)]: [p] occurs in [s] as a contiguous run of code
    units. *)
Fixpoint includes (s p : jsstring) : bool :=
  startsWith s p ||
  match s with
  | [] => false
  | _ :: r => includes r p
  end.

(** Truthiness of a string: the empty string is the only falsy one. *)
Definition truthy (s : jsstring) : bool :=
  match s with [] => false | _ :: _ => true end.

(** A code unit that is a code point by itself, whatever its neighbours,
    and is mapped without looking at them: not a surrogate and not
    U+03A3. *)
Definition plain (c : N) : bool :=
  ((c <=? 0xFFFF) && negb ((0xD800 <=? c) && (c <=? 0xDFFF))
   && negb (c =? 0x3A3))%N.



(** [p] is a substring of [s]. *)
Definition substring_of (p s : jsstring) : Prop :=
  exists pre post, s = pre ++ p ++ post.

End JsString.

(* ===================================================================== *)
(** ** Notes *)
(* ===================================================================== *)

Record Note := mkNote {
  id : jsstring;
  text : jsstring;
  done : bool;
  createdAt : jsstring
}.

Definition STORAGE_KEY : jsstring := js "notes.v1".

(** [{ ...note, done: !note.done }] *)
Definition toggleNote (note : Note) : Note :=
  {| id := id note;
     text := text note;
     done := negb (done note);
     createdAt := createdAt note |}.

Definition searchNotes (notes : list Note) (query : jsstring) : list Note :=
  if negb (JsString.truthy (JsString.trim query)) then notes
  else
    let searchTerm := JsString.trim (JsString.toLowerCase query) in
    List.filter
      (fun note => JsString.includes (JsString.toLowerCase (text note)) searchTerm)
      notes.

(** The [switch] compares with [===]; anything but the two named cases
    falls to [default]. *)
Definition filterNotesByStatus (notes : list Note) (filter : jsstring)
  : list Note :=
  if decide (filter = js "open") then
    List.filter (fun note => negb (done note)) notes
  else if decide (filter = js "done") then
    List.filter (fun note => done note) notes
  else notes.

(* ===================================================================== *)
(** ** Numbers, dates and the host *)
(* ===================================================================== *)

(** The Number values that reach a comparator: integral time values and
    their differences, the constants [1] and [-1], and [NaN] (the time value
    of an invalid Date, which absorbs subtraction).  Time values are below
    [2^53] in magnitude, so the sign of a binary64 difference is the sign of
    the integer difference, and only the sign is used. *)
Inductive number :=
| NaN
| Num (z : Z).

Definition number_sub (a b : number) : number :=
  match a, b with
  | Num x, Num y => Num (x - y)
  | _, _ => NaN
  end.

(** What the module takes from its host: how a [createdAt] string is read
    as a Date ([new Date(s).getTime()], whose accepted formats beyond the
    ISO one are the host's), and the collation of the default locale
    ([a.localeCompare(b)]). *)
Class Host := {
  Date_getTime : jsstring -> number;
  localeCompare : jsstring -> jsstring -> Z
}.

(* ===================================================================== *)
(** ** Array.prototype.sort *)
(* ===================================================================== *)

(** SortCompare: a [NaN] from the comparator counts as [+0]. *)
Definition SortCompare {A} (comparefn : A -> A -> number) (x y : A) : Z :=
  match comparefn x y with
  | NaN => 0
  | Num v => v
  end.

(** ECMAScript leaves the sorting algorithm to the engine, requires the sort
    to be stable, and for a consistent comparator thereby fixes the result.
    The model is a stable insertion sort: an element is placed in front of
    the first later element it does not come after.  [Array_sort_conforming]
    and [conforming_unique] below show that on a consistent comparator it
    returns what every engine must. *)
Fixpoint sort_insert {A} (comparefn : A -> A -> number) (x : A)
  (sorted : list A) : list A :=
  match sorted with
  | [] => [x]
  | y :: rest =>
      if (SortCompare comparefn x y <=? 0)%Z then x :: y :: rest
      else y :: sort_insert comparefn x rest
  end.

Fixpoint Array_sort {A} (comparefn : A -> A -> number) (items : list A)
  : list A :=
  match items with
  | [] => []
  | x :: rest => sort_insert comparefn x (Array_sort comparefn rest)
  end.

(** The order a comparator induces: [x] may come before [y]. *)
Definition precedes {A} (comparefn : A -> A -> number) (x y : A) : Prop :=
  (SortCompare comparefn x y <= 0)%Z.

(** [x] and [y] compare as equal. *)
Definition same_rank {A} (comparefn : A -> A -> number) (x y : A) : bool :=
  (SortCompare comparefn x y =? 0)%Z.

(** A consistent comparator on the values satisfying [P], after the
    conditions ECMAScript lists: equal-ranking is an equivalence, [<] is
    transitive, and [a < b] exactly when [b > a]. *)
Record consistent {A} (comparefn : A -> A -> number) (P : A -> Prop) : Prop := {
  consistent_refl : forall a, P a -> SortCompare comparefn a a = 0%Z;
  consistent_sym : forall a b, P a -> P b ->
    SortCompare comparefn a b = 0%Z -> SortCompare comparefn b a = 0%Z;
  consistent_flip : forall a b, P a -> P b ->
    ((SortCompare comparefn a b < 0)%Z <-> (0 < SortCompare comparefn b a)%Z);
  consistent_trans_eq : forall a b c, P a -> P b -> P c ->
    SortCompare comparefn a b = 0%Z -> SortCompare comparefn b c = 0%Z ->
    SortCompare comparefn a c = 0%Z;
  consistent_trans_lt : forall a b c, P a -> P b -> P c ->
    (SortCompare comparefn a b < 0)%Z -> (SortCompare comparefn b c < 0)%Z ->
    (SortCompare comparefn a c < 0)%Z
}.

(** What ECMAScript requires of the result of a sort with a consistent
    comparator: the same values, none after one it compares below, and
    equal-ranking values in their original order. *)
Definition conforming {A} (comparefn : A -> A -> number)
  (items result : list A) : Prop :=
  Permutation items result /\
  StronglySorted (precedes comparefn) result /\
  forall x, In x items ->
    List.filter (same_rank comparefn x) result
    = List.filter (same_rank comparefn x) items.

Section Sorting.
Context `{Host}.

Definition by_text (a b : Note) : number :=
  Num (localeCompare (text a) (text b)).

Definition by_date (a b : Note) : number :=
  number_sub (Date_getTime (createdAt b)) (Date_getTime (createdAt a)).

Definition by_status (a b : Note) : number :=
  if Bool.eqb (done a) (done b) then
    number_sub (Date_getTime (createdAt b)) (Date_getTime (createdAt a))
  else if done a then Num 1 else Num (-1).

(** [sorted] is a copy of [notes]; the input array is never written. *)
Definition sortNotes (notes : list Note) (sortBy : jsstring) : list Note :=
  let sorted := notes in
  if decide (sortBy = js "alphabetical") then Array_sort by_text sorted
  else if decide (sortBy = js "status") then Array_sort by_status sorted
  else Array_sort by_date sorted.

(** A [createdAt] the host reads as a valid Date. *)
Definition valid_date (n : Note) : Prop :=
  exists t, Date_getTime (createdAt n) = Num t.

(** The time value of a note, for stating orderings. *)
Definition time_of (n : Note) : Z :=
  match Date_getTime (createdAt n) with
  | Num t => t
  | NaN => 0
  end.

(** Notes with [done = false] first; within a status, newer first. *)
Definition status_order (a b : Note) : Prop :=
  (done a = false /\ done b = true) \/
  (done a = done b /\ (time_of b <= time_of a)%Z).

(** Newer first. *)
Definition date_order (a b : Note) : Prop := (time_of b <= time_of a)%Z.

End Sorting.

(* ===================================================================== *)
(** ** JSON *)
(* ===================================================================== *)

(** ECMAScript values as far as JSON text can denote them.  A number keeps
    the literal it was read from (the engine rounds it to the nearest
    binary64; nothing below inspects a number).  An object keeps its
    properties in creation order. *)
Inductive json :=
| JNull
| JBool (b : bool)
| JNumber (literal : jsstring)
| JString (s : jsstring)
| JArray (elements : list json)
| JObject (properties : list (jsstring * json)).

(** A Note as an object, and an array of Notes. *)
Definition json_of_note (n : Note) : json :=
  JObject [ (js "id", JString (id n));
            (js "text", JString (text n));
            (js "done", JBool (done n));
            (js "createdAt", JString (createdAt n)) ].

Definition json_of_notes (ns : list Note) : json :=
  JArray (List.map json_of_note ns).

(** *** JSON.stringify on a [Note[]] *)

Definition hex_digit (d : N) : N :=
  (if d <? 10 then 48 + d else 87 + d)%N.

(** [\uXXXX] with lower-case hexadecimal digits. *)
Definition unicode_escape (c : N) : jsstring :=
  [92; 117; hex_digit (c / 4096 mod 16); hex_digit (c / 256 mod 16);
   hex_digit (c / 16 mod 16); hex_digit (c mod 16)]%N.

Definition is_high_surrogate (c : N) : bool := ((55296 <=? c) && (c <=? 56319))%N.
Definition is_low_surrogate (c : N) : bool := ((56320 <=? c) && (c <=? 57343))%N.

(** One code unit that is not part of a surrogate pair. *)
Definition quote_unit (c : N) : jsstring :=
  (if c =? 8 then [92; 98]
   else if c =? 9 then [92; 116]
   else if c =? 10 then [92; 110]
   else if c =? 12 then [92; 102]
   else if c =? 13 then [92; 114]
   else if c =? 34 then [92; 34]
   else if c =? 92 then [92; 92]
   else if c <? 32 then unicode_escape c
   else if is_high_surrogate c || is_low_surrogate c then unicode_escape c
   else [c])%N.

(** QuoteJSONString walks the code points of the string: a high surrogate
    followed by a low one is a single code point and is copied; any other
    surrogate is escaped. *)
Fixpoint quote_units (s : jsstring) : jsstring :=
  match s with
  | [] => []
  | c :: r =>
      match r with
      | d :: r' =>
          if is_high_surrogate c && is_low_surrogate d
          then c :: d :: quote_units r'
          else quote_unit c ++ quote_units r
      | [] => quote_unit c
      end
  end.

Definition QuoteJSONString (s : jsstring) : jsstring :=
  34%N :: quote_units s ++ [34%N].

Definition stringify_bool (b : bool) : jsstring :=
  if b then js "true" else js "false".

(** SerializeJSONObject on a Note: the own properties in creation order. *)
Definition stringify_note (n : Note) : jsstring :=
  js "{" ++ QuoteJSONString (js "id") ++ js ":" ++ QuoteJSONString (id n)
  ++ js "," ++ QuoteJSONString (js "text") ++ js ":" ++ QuoteJSONString (text n)
  ++ js "," ++ QuoteJSONString (js "done") ++ js ":" ++ stringify_bool (done n)
  ++ js "," ++ QuoteJSONString (js "createdAt") ++ js ":"
  ++ QuoteJSONString (createdAt n) ++ js "}".

Fixpoint stringify_elements (ns : list Note) : jsstring :=
  match ns with
  | [] => []
  | [n] => stringify_note n
  | n :: rest => stringify_note n ++ js "," ++ stringify_elements rest
  end.

(** SerializeJSONArray, no indentation. *)
Definition JSON_stringify_notes (ns : list Note) : jsstring :=
  js "[" ++ stringify_elements ns ++ js "]".

(** *** JSON.parse

    The text is read one code unit at a time by a pushdown recogniser for
    the JSON grammar that builds the value as it goes; a text outside the
    grammar gives [None], where JSON.parse throws a SyntaxError. *)

(** A container being filled: the elements read so far (last first), or the
    properties read so far and the key whose value is awaited. *)
Inductive frame :=
| FArray (elements_rev : list json)
| FObject (properties : list (jsstring * json)) (key : option jsstring).

(** Where in a number literal the reader is. *)
Inductive number_state :=
| NMinus | NZero | NInt | NDot | NFrac | NExp | NExpSign | NExpDigits.

Inductive mode :=
| MValue                                   (* a value must start *)
| MArrayStart                              (* after "[": a value or "]" *)
| MObjectStart                             (* after "{": a key or "}" *)
| MKey                                     (* after "," in an object *)
| MColon                                   (* after a key *)
| MAfter                                   (* after a value *)
| MString (is_key : bool) (acc_rev : jsstring)
| MEscape (is_key : bool) (acc_rev : jsstring)
| MUnicode (is_key : bool) (acc_rev : jsstring) (digits : nat) (value : N)
| MLiteral (rest : jsstring) (v : json)
| MNumber (st : number_state) (literal_rev : jsstring).

Record parser := mkParser {
  p_mode : mode;
  p_stack : list frame;
  p_result : option json
}.

(** CreateDataProperty: a repeated key overwrites the earlier value and
    keeps its place. *)
Fixpoint set_property (ps : list (jsstring * json)) (k : jsstring) (v : json)
  : list (jsstring * json) :=
  match ps with
  | [] => [(k, v)]
  | (k', v') :: rest =>
      if decide (k' = k) then (k, v) :: rest
      else (k', v') :: set_property rest k v
  end.

(** A value is complete: hand it to the enclosing container, or keep it as
    the result of the whole text. *)
Definition deliver (v : json) (stack : list frame) (result : option json)
  : option parser :=
  match stack with
  | [] =>
      match result with
      | None => Some (mkParser MAfter [] (Some v))
      | Some _ => None
      end
  | FArray es :: up => Some (mkParser MAfter (FArray (v :: es) :: up) result)
  | FObject ps (Some k) :: up =>
      Some (mkParser MAfter (FObject (set_property ps k v) None :: up) result)
  | FObject _ None :: _ => None
  end.

Definition is_json_space (c : N) : bool :=
  ((c =? 9) || (c =? 10) || (c =? 13) || (c =? 32))%N.

Definition is_digit (c : N) : bool := ((48 <=? c) && (c <=? 57))%N.

Definition hex_value (c : N) : option N :=
  (if (48 <=? c) && (c <=? 57) then Some (c - 48)
   else if (97 <=? c) && (c <=? 102) then Some (c - 87)
   else if (65 <=? c) && (c <=? 70) then Some (c - 55)
   else None)%N.

Definition close_array (stack : list frame) (result : option json)
  : option parser :=
  match stack with
  | FArray es :: up => deliver (JArray (rev es)) up result
  | _ => None
  end.

Definition close_object (stack : list frame) (result : option json)
  : option parser :=
  match stack with
  | FObject ps None :: up => deliver (JObject ps) up result
  | _ => None
  end.

(** After a value: white space, a separator or a closing bracket. *)
Definition step_after (stack : list frame) (result : option json) (c : N)
  : option parser :=
  if is_json_space c then Some (mkParser MAfter stack result)
  else if (c =? 44)%N then
    match stack with
    | FArray _ :: _ => Some (mkParser MValue stack result)
    | FObject _ None :: _ => Some (mkParser MKey stack result)
    | _ => None
    end
  else if (c =? 93)%N then close_array stack result
  else if (c =? 125)%N then close_object stack result
  else None.

(** The start of a value. *)
Definition step_value (stack : list frame) (result : option json) (c : N)
  : option parser :=
  if (c =? 34)%N then Some (mkParser (MString false []) stack result)
  else if (c =? 123)%N then
    Some (mkParser MObjectStart (FObject [] None :: stack) result)
  else if (c =? 91)%N then
    Some (mkParser MArrayStart (FArray [] :: stack) result)
  else if (c =? 116)%N then
    Some (mkParser (MLiteral (js "rue") (JBool true)) stack result)
  else if (c =? 102)%N then
    Some (mkParser (MLiteral (js "alse") (JBool false)) stack result)
  else if (c =? 110)%N then
    Some (mkParser (MLiteral (js "ull") JNull) stack result)
  else if (c =? 45)%N then Some (mkParser (MNumber NMinus [c]) stack result)
  else if (c =? 48)%N then Some (mkParser (MNumber NZero [c]) stack result)
  else if is_digit c then Some (mkParser (MNumber NInt [c]) stack result)
  else None.

(** A string literal ends: as a key it is recorded in the open object, as a
    value it is delivered. *)
Definition end_string (is_key : bool) (s : jsstring) (stack : list frame)
  (result : option json) : option parser :=
  if is_key then
    match stack with
    | FObject ps None :: up =>
        Some (mkParser MColon (FObject ps (Some s) :: up) result)
    | _ => None
    end
  else deliver (JString s) stack result.

(** The next state inside a number literal, if [c] continues it. *)
Definition number_next (st : number_state) (c : N) : option number_state :=
  let e := ((c =? 101) || (c =? 69))%N in
  let sign := ((c =? 43) || (c =? 45))%N in
  match st with
  | NMinus => if (c =? 48)%N then Some NZero
              else if is_digit c then Some NInt else None
  | NZero => if (c =? 46)%N then Some NDot else if e then Some NExp else None
  | NInt => if is_digit c then Some NInt
            else if (c =? 46)%N then Some NDot
            else if e then Some NExp else None
  | NDot => if is_digit c then Some NFrac else None
  | NFrac => if is_digit c then Some NFrac else if e then Some NExp else None
  | NExp => if is_digit c then Some NExpDigits
            else if sign then Some NExpSign else None
  | NExpSign => if is_digit c then Some NExpDigits else None
  | NExpDigits => if is_digit c then Some NExpDigits else None
  end.

(** The states in which a number literal may end. *)
Definition number_complete (st : number_state) : bool :=
  match st with
  | NZero | NInt | NFrac | NExpDigits => true
  | _ => false
  end.

Definition step (p : parser) (c : N) : option parser :=
  let stack := p_stack p in
  let result := p_result p in
  match p_mode p with
  | MValue =>
      if is_json_space c then Some p else step_value stack result c
  | MArrayStart =>
      if is_json_space c then Some p
      else if (c =? 93)%N then close_array stack result
      else step_value stack result c
  | MObjectStart =>
      if is_json_space c then Some p
      else if (c =? 125)%N then close_object stack result
      else if (c =? 34)%N then Some (mkParser (MString true []) stack result)
      else None
  | MKey =>
      if is_json_space c then Some p
      else if (c =? 34)%N then Some (mkParser (MString true []) stack result)
      else None
  | MColon =>
      if is_json_space c then Some p
      else if (c =? 58)%N then Some (mkParser MValue stack result)
      else None
  | MAfter => step_after stack result c
  | MString k acc =>
      if (c =? 34)%N then end_string k (rev acc) stack result
      else if (c =? 92)%N then Some (mkParser (MEscape k acc) stack result)
      else if (c <? 32)%N then None
      else Some (mkParser (MString k (c :: acc)) stack result)
  | MEscape k acc =>
      let plain u := Some (mkParser (MString k (u :: acc)) stack result) in
      if (c =? 34)%N || (c =? 92)%N || (c =? 47)%N then plain c
      else if (c =? 98)%N then plain 8%N
      else if (c =? 102)%N then plain 12%N
      else if (c =? 110)%N then plain 10%N
      else if (c =? 114)%N then plain 13%N
      else if (c =? 116)%N then plain 9%N
      else if (c =? 117)%N then Some (mkParser (MUnicode k acc 0 0%N) stack result)
      else None
  | MUnicode k acc n v =>
      match hex_value c with
      | None => None
      | Some d =>
          let v' := (v * 16 + d)%N in
          if (n =? 3)%nat then Some (mkParser (MString k (v' :: acc)) stack result)
          else Some (mkParser (MUnicode k acc (S n) v') stack result)
      end
  | MLiteral rest v =>
      match rest with
      | [] => None
      | x :: rest' =>
          if (c =? x)%N then
            match rest' with
            | [] => deliver v stack result
            | _ :: _ => Some (mkParser (MLiteral rest' v) stack result)
            end
          else None
      end
  | MNumber st lit =>
      match number_next st c with
      | Some st' => Some (mkParser (MNumber st' (c :: lit)) stack result)
      | None =>
          if number_complete st then
            match deliver (JNumber (rev lit)) stack result with
            | Some p' => step_after (p_stack p') (p_result p') c
            | None => None
            end
          else None
      end
  end.

Fixpoint run (p : parser) (s : jsstring) : option parser :=
  match s with
  | [] => Some p
  | c :: rest =>
      match step p c with
      | Some p' => run p' rest
      | None => None
      end
  end.

(** End of the text: a number may still be open at top level; otherwise
    exactly one value must have been read and every container closed. *)
Definition finish (p : parser) : option json :=
  match p_mode p, p_stack p with
  | MAfter, [] => p_result p
  | MNumber st lit, [] =>
      if number_complete st then
        match p_result p with
        | None => Some (JNumber (rev lit))
        | Some _ => None
        end
      else None
  | _, _ => None
  end.

Definition and_then (r : option parser) (k : parser -> option parser)
  : option parser :=
  match r with Some p => k p | None => None end.

Definition JSON_parse (s : jsstring) : option json :=
  match run (mkParser MValue [] None) s with
  | Some p => finish p
  | None => None
  end.

(* ===================================================================== *)
(** ** Effects: exceptions, the console, localStorage *)
(* ===================================================================== *)

(** What a [catch] clause may receive. *)
Inductive jserror :=
| SyntaxError
| DOMException (name : string)
| OtherError (message : string).

Inductive completion (A : Type) :=
| Normal (a : A)
| Throw (e : jserror).
Arguments Normal {A} a.
Arguments Throw {A} e.

Inductive severity := Warn | Error.

(** One call of [console.warn] or [console.error]. *)
Record log_entry := mkLog {
  level : severity;
  message : string;
  cause : jserror
}.

(** The three methods of the Storage object the module calls.  A method
    either completes or throws, and may change the store either way; [S] is
    whatever state the store keeps. *)
Class LocalStorage (S : Type) := {
  getItem : jsstring -> S -> completion (option jsstring) * S;
  setItem : jsstring -> jsstring -> S -> completion unit * S;
  removeItem : jsstring -> S -> completion unit * S
}.

Record World (S : Type) := mkWorld {
  storage : S;
  console : list log_entry
}.
Arguments mkWorld {S} storage console.
Arguments storage {S} w.
Arguments console {S} w.

(** Computations that read and write the world and may throw. *)
Definition M (S A : Type) : Type := World S -> completion A * World S.

Definition ret {S A} (a : A) : M S A := fun w => (Normal a, w).

Definition bind {S A B} (m : M S A) (k : A -> M S B) : M S B :=
  fun w =>
    match m w with
    | (Normal a, w') => k a w'
    | (Throw e, w') => (Throw e, w')
    end.

Definition throw {S A} (e : jserror) : M S A := fun w => (Throw e, w).

(** [try { body } catch (error) { handler }] *)
Definition try_catch {S A} (body : M S A) (handler : jserror -> M S A)
  : M S A :=
  fun w =>
    match body w with
    | (Normal a, w') => (Normal a, w')
    | (Throw e, w') => handler e w'
    end.

Declare Scope js_scope.
Delimit Scope js_scope with js_m.
Notation "x <- m ;; k" := (bind m (fun x => k))
  (at level 100, m at next level, right associativity) : js_scope.
Notation "m ;;; k" := (bind m (fun _ => k))
  (at level 100, right associativity) : js_scope.

(** A call into the store. *)
Definition on_storage {S A} (f : S -> completion A * S) : M S A :=
  fun w =>
    let (r, s') := f (storage w) in
    (r, mkWorld s' (console w)).

Definition console_log {S} (l : severity) (msg : string) (e : jserror)
  : M S unit :=
  fun w => (Normal tt, mkWorld (storage w) (console w ++ [mkLog l msg e])).

Definition console_warn {S} := @console_log S Warn.
Definition console_error {S} := @console_log S Error.

Definition JSON_parse_M {S} (s : jsstring) : M S json :=
  match JSON_parse s with
  | Some v => ret v
  | None => throw SyntaxError
  end.

(** The three messages of the module. *)
Definition load_warning (e : jserror) : log_entry :=
  mkLog Warn "Failed to load notes from localStorage:" e.
Definition save_error (e : jserror) : log_entry :=
  mkLog Error "Failed to save notes to localStorage:" e.
Definition clear_error (e : jserror) : log_entry :=
  mkLog Error "Failed to clear notes from localStorage:" e.

(* ===================================================================== *)
(** ** The repository *)
(* ===================================================================== *)

Section Repository.
Context {S : Type} `{LocalStorage S}.
Local Open Scope js_scope.

(** [JSON.parse(stored) as Note[]]: the assertion is erased at run time, so
    the result is whatever value the text denotes. *)
Definition loadNotes : M S json :=
  try_catch
    (stored <- on_storage (getItem STORAGE_KEY) ;;
     match stored with
     | None => ret (JArray [])
     | Some payload =>
         if negb (JsString.truthy payload) then ret (JArray [])
         else JSON_parse_M payload
     end)
    (fun error =>
       console_warn "Failed to load notes from localStorage:" error ;;;
       ret (JArray [])).

Definition saveNotes (notes : list Note) : M S unit :=
  try_catch
    (on_storage (setItem STORAGE_KEY (JSON_stringify_notes notes)))
    (fun error =>
       console_error "Failed to save notes to localStorage:" error).

Definition clearNotes : M S unit :=
  try_catch
    (on_storage (removeItem STORAGE_KEY))
    (fun error =>
       console_error "Failed to clear notes from localStorage:" error).

(** A store on which a write under [k] completes and is then read back. *)
Definition healthy (s : S) (k v : jsstring) : Prop :=
  exists s1 s2,
    setItem k v s = (Normal tt, s1) /\
    getItem k s1 = (Normal (Some v), s2).

End Repository.

(** Reading a loaded value as notes: an array whose elements are objects
    with the four properties of a Note, of the right types. *)
Definition lookup_property (ps : list (jsstring * json)) (k : jsstring)
  : option json :=
  match List.find (fun p => bool_decide (fst p = k)) ps with
  | Some p => Some (snd p)
  | None => None
  end.

Definition note_of_json (v : json) : option Note :=
  match v with
  | JObject ps =>
      match lookup_property ps (js "id"), lookup_property ps (js "text"),
            lookup_property ps (js "done"), lookup_property ps (js "createdAt")
      with
      | Some (JString i), Some (JString t), Some (JBool d), Some (JString c) =>
          if (length ps =? 4)%nat then Some (mkNote i t d c) else None
      | _, _, _, _ => None
      end
  | _ => None
  end.

Fixpoint notes_of_elements (vs : list json) : option (list Note) :=
  match vs with
  | [] => Some []
  | v :: rest =>
      match note_of_json v, notes_of_elements rest with
      | Some n, Some ns => Some (n :: ns)
      | _, _ => None
      end
  end.

Definition notes_of_json (v : json) : option (list Note) :=
  match v with
  | JArray vs => notes_of_elements vs
  | _ => None
  end.

(* ===================================================================== *)
(** ** Creating a note *)
(* ===================================================================== *)

(** Day number (days since 1970-01-01) to year, month, day of the proleptic
    Gregorian calendar, and back. *)
Definition civil_from_days (days : Z) : Z * Z * Z :=
  (let z := days + 719468 in
   let era := z / 146097 in
   let doe := z - era * 146097 in
   let yoe := (doe - doe / 1460 + doe / 36524 - doe / 146096) / 365 in
   let doy := doe - (365 * yoe + yoe / 4 - yoe / 100) in
   let mp := (5 * doy + 2) / 153 in
   let d := doy - (153 * mp + 2) / 5 + 1 in
   let m := if mp <? 10 then mp + 3 else mp - 9 in
   let y := yoe + era * 400 in
   (if m <=? 2 then y + 1 else y, m, d))%Z.

Definition days_from_civil (y m d : Z) : Z :=
  (let y := if m <=? 2 then y - 1 else y in
   let era := y / 400 in
   let yoe := y - era * 400 in
   let doy := (153 * (if 2 <? m then m - 3 else m + 9) + 2) / 5 + d - 1 in
   let doe := yoe * 365 + yoe / 4 - yoe / 100 + doy in
   era * 146097 + doe - 719468)%Z.

(** [n] in decimal, padded with zeros to [width] digits. *)
Fixpoint pad (width : nat) (n : Z) : jsstring :=
  match width with
  | O => []
  | S w => pad w (n / 10) ++ [(48 + Z.to_N (n mod 10))%N]
  end.

(** Date.prototype.toISOString of a time value:
    [YYYY-MM-DDTHH:mm:ss.sssZ], the year with a sign and six digits outside
    0..9999. *)
Definition toISOString (t : Z) : jsstring :=
  (let '(y, m, d) := civil_from_days (t / 86400000) in
   let ms := t mod 86400000 in
   let year :=
     if (0 <=? y) && (y <=? 9999) then pad 4 y
     else (if y <? 0 then js "-" else js "+") ++ pad 6 (Z.abs y) in
   year ++ js "-" ++ pad 2 m ++ js "-" ++ pad 2 d ++ js "T"
   ++ pad 2 (ms / 3600000) ++ js ":" ++ pad 2 (ms / 60000 mod 60) ++ js ":"
   ++ pad 2 (ms / 1000 mod 60) ++ js "." ++ pad 3 (ms mod 1000) ++ js "Z")%Z.

(** What [createNote] reads from its surroundings: the identifiers
    [crypto.randomUUID()] hands out, call after call, and the readings of
    the clock behind [new Date()]. *)
Record Env := mkEnv {
  uuid_source : nat -> jsstring;
  uuids_drawn : nat;
  clock_source : nat -> Z;
  clock_reads : nat
}.

Definition randomUUID (e : Env) : jsstring * Env :=
  (uuid_source e (uuids_drawn e),
   mkEnv (uuid_source e) (S (uuids_drawn e)) (clock_source e) (clock_reads e)).

Definition Date_now (e : Env) : Z * Env :=
  (clock_source e (clock_reads e),
   mkEnv (uuid_source e) (uuids_drawn e) (clock_source e) (S (clock_reads e))).

(** The properties are evaluated in the order written. *)
Definition createNote (text : jsstring) (e : Env) : Note * Env :=
  let (uuid, e1) := randomUUID e in
  let trimmed := JsString.trim text in
  let (t, e2) := Date_now e1 in
  ({| id := uuid; text := trimmed; done := false;
      createdAt := toISOString t |}, e2).

(* ===================================================================== *)
(** ** Statistics *)
(* ===================================================================== *)

(** Numbers here are IEEE-754 binary64, round to nearest even. *)
Definition prec : Z := 53.
Definition emax : Z := 1024.

Definition binary64_of_Z (z : Z) : spec_float :=
  binary_normalize prec emax z 0 false.

Definition binary64_of_nat (n : nat) : spec_float :=
  binary64_of_Z (Z.of_nat n).

(** Math.round: the integral Number closest to the argument, ties towards
    plus infinity; the sign of a zero result is that of the argument. *)
Definition Math_round (x : spec_float) : spec_float :=
  match x with
  | S754_finite s m e =>
      let numerator := (if s then Z.neg m else Z.pos m) in
      let rounded :=
        match e with
        | Z.neg k => ((2 * numerator + 2 ^ Z.pos k) / (2 * 2 ^ Z.pos k))%Z
        | _ => (numerator * 2 ^ e)%Z
        end in
      binary_normalize prec emax rounded 0 s
  | _ => x
  end.

(** [total], [completed] and [pending] are array lengths and their
    difference: integers below [2^32], on which Number arithmetic is exact.
    [completionRate] goes through a division and is kept as a binary64. *)
Record Stats := mkStats {
  total : nat;
  completed : nat;
  pending : nat;
  completionRate : spec_float
}.

Definition calculateStats (notes : list Note) : Stats :=
  let total := length notes in
  let completed := length (List.filter (fun note => done note) notes) in
  let pending := total - completed in
  {| total := total;
     completed := completed;
     pending := pending;
     completionRate :=
       if (0 <? total)%nat then
         Math_round
           (SFmul prec emax
              (SFdiv prec emax (binary64_of_nat completed)
                 (binary64_of_nat total))
              (binary64_of_Z 100))
       else binary64_of_Z 0 |}.

(** The rate as [calculateStats] computes it from the two counts. *)
Definition rate (c t : nat) : spec_float :=
  Math_round
    (SFmul prec emax
       (SFdiv prec emax (binary64_of_nat c) (binary64_of_nat t))
       (binary64_of_Z 100)).

(** The percentage [100 * c / t] rounded to the nearest integer, ties up,
    in exact arithmetic. *)
Definition round_half_up_percent (c t : Z) : Z :=
  ((200 * c + t) / (2 * t))%Z.

(* ===================================================================== *)
(** ** Objects and references *)
(* ===================================================================== *)

(** A Note is an object on the heap and a variable holds a reference to it.
    The object literal in [toggleNote] allocates: the result is a reference
    that was not in use, and no existing object is written. *)
Abbreviation heap := (gmap positive Note).

Definition toggleNote_ref (h : heap) (note : positive)
  : option (heap * positive) :=
  match h !! note with
  | Some n =>
      let r := fresh (dom h) in
      Some (<[r := toggleNote n]> h, r)
  | None => None
  end.

(* ===================================================================== *)
(** ** The query engine on objects *)
(* ===================================================================== *)

(** What the functions of the query engine take and return are references:
    a note is an object, a [Note[]] an array object that holds references
    to notes, the statistics an object of four numbers.  [Runtime] is all
    a call could read or write: the objects, the store and the console,
    the identifier generator and the clock.  A call that reads through a
    reference which does not hold what the TypeScript type says ends with
    a TypeError, here [None].  The Date objects the comparators make are
    dropped as soon as their time value is read and are left out. *)
Inductive object :=
| NoteObject (n : Note)
| ArrayObject (items : list positive)
| StatsObject (s : Stats).

Record Runtime (S : Type) := mkRuntime {
  rt_objects : gmap positive object;
  rt_world : World S;
  rt_env : Env
}.
Arguments mkRuntime {S} rt_objects rt_world rt_env.
Arguments rt_objects {S} r.
Arguments rt_world {S} r.
Arguments rt_env {S} r.

Definition Run (S A : Type) : Type := Runtime S -> option (A * Runtime S).

Module ByReference.

Section Calls.
Context {S : Type}.

Definition unit_run {A} (a : A) : Run S A := fun rt => Some (a, rt).

Definition then_run {A B} (m : Run S A) (k : A -> Run S B) : Run S B :=
  fun rt =>
    match m rt with
    | Some (a, rt') => k a rt'
    | None => None
    end.

(** An object or array literal: a new object under a reference that was
    not in use. *)
Definition allocate (o : object) : Run S positive :=
  fun rt =>
    let r := fresh (dom (rt_objects rt)) in
    Some (r, mkRuntime (<[r := o]> (rt_objects rt)) (rt_world rt) (rt_env rt)).

Definition get_note (r : positive) : Run S Note :=
  fun rt =>
    match rt_objects rt !! r with
    | Some (NoteObject n) => Some (n, rt)
    | _ => None
    end.

Definition get_items (r : positive) : Run S (list positive) :=
  fun rt =>
    match rt_objects rt !! r with
    | Some (ArrayObject items) => Some (items, rt)
    | _ => None
    end.

Fixpoint get_notes (items : list positive) : Run S (list Note) :=
  match items with
  | [] => unit_run []
  | r :: rest =>
      then_run (get_note r) (fun n =>
      then_run (get_notes rest) (fun ns => unit_run (n :: ns)))
  end.

(** The references of [items] whose note passes [callback]. *)
Fixpoint keep (callback : Note -> bool) (items : list positive)
  : Run S (list positive) :=
  match items with
  | [] => unit_run []
  | r :: rest =>
      then_run (get_note r) (fun n =>
      then_run (keep callback rest) (fun kept =>
      unit_run (if callback n then r :: kept else kept)))
  end.

(** [arr.filter(callback)]: a new array; [arr] is only read. *)
Definition Array_filter (arr : positive) (callback : Note -> bool)
  : Run S positive :=
  then_run (get_items arr) (fun items =>
  then_run (keep callback items) (fun kept =>
  allocate (ArrayObject kept))).

(** A comparator on notes, applied to two references. *)
Definition compare_items (objects : gmap positive object)
  (comparefn : Note -> Note -> number) (a b : positive) : number :=
  match objects !! a, objects !! b with
  | Some (NoteObject x), Some (NoteObject y) => comparefn x y
  | _, _ => NaN
  end.

(** [arr.sort(comparefn)] sorts in place: the array object under [arr] is
    overwritten, and [arr] is returned. *)
Definition Array_sort_in_place (arr : positive)
  (comparefn : Note -> Note -> number) : Run S positive :=
  then_run (get_items arr) (fun items =>
  then_run (get_notes items) (fun _ => fun rt =>
    Some (arr,
          mkRuntime
            (<[arr := ArrayObject
                        (Array_sort (compare_items (rt_objects rt) comparefn)
                           items)]> (rt_objects rt))
            (rt_world rt) (rt_env rt)))).

Definition createNote (text : jsstring) : Run S positive :=
  fun rt =>
    let (uuid, e1) := randomUUID (rt_env rt) in
    let trimmed := JsString.trim text in
    let (t, e2) := Date_now e1 in
    allocate
      (NoteObject {| id := uuid; text := trimmed; done := false;
                     createdAt := toISOString t |})
      (mkRuntime (rt_objects rt) (rt_world rt) e2).

Definition toggleNote (note : positive) : Run S positive :=
  then_run (get_note note) (fun n =>
  allocate (NoteObject {| id := id n; text := text n;
                          done := negb (done n);
                          createdAt := createdAt n |})).

Definition searchNotes (notes : positive) (query : jsstring)
  : Run S positive :=
  if negb (JsString.truthy (JsString.trim query)) then unit_run notes
  else
    let searchTerm := JsString.trim (JsString.toLowerCase query) in
    Array_filter notes
      (fun note =>
         JsString.includes (JsString.toLowerCase (text note))
           searchTerm).

Definition sortNotes `{Host} (notes : positive) (sortBy : jsstring)
  : Run S positive :=
  then_run (get_items notes) (fun items =>
  then_run (allocate (ArrayObject items)) (fun sorted =>
  if decide (sortBy = js "alphabetical") then
    Array_sort_in_place sorted by_text
  else if decide (sortBy = js "status") then
    Array_sort_in_place sorted by_status
  else Array_sort_in_place sorted by_date)).

Definition filterNotesByStatus (notes : positive) (filter : jsstring)
  : Run S positive :=
  if decide (filter = js "open") then
    Array_filter notes (fun note => negb (done note))
  else if decide (filter = js "done") then
    Array_filter notes (fun note => done note)
  else unit_run notes.

Definition calculateStats (notes : positive) : Run S positive :=
  then_run (get_items notes) (fun items =>
  let total := length items in
  then_run (Array_filter notes (fun note => done note)) (fun filtered =>
  then_run (get_items filtered) (fun done_items =>
  let completed := length done_items in
  let pending := total - completed in
  allocate
    (StatsObject
       {| total := total;
          completed := completed;
          pending := pending;
          completionRate :=
            if (0 <? total)%nat then rate completed total
            else binary64_of_Z 0 |})))).

End Calls.

(** The array under [r] holds references to notes with the contents
    [ns]. *)
Definition holds_notes (objects : gmap positive object) (r : positive)
  (ns : list Note) : Prop :=
  exists items,
    objects !! r = Some (ArrayObject items) /\
    Forall2 (fun i n => objects !! i = Some (NoteObject n)) items ns.

(** A call that completes, leaves the store, the console, the identifier
    generator and the clock as they were, leaves every object there was as
    it was, and returns something of which [result] holds. *)
Definition pure_call {S A} (call : Run S A) (rt : Runtime S)
  (result : gmap positive object -> A -> Prop) : Prop :=
  exists a rt',
    call rt = Some (a, rt') /\
    rt_world rt' = rt_world rt /\
    rt_env rt' = rt_env rt /\
    rt_objects rt ⊆ rt_objects rt' /\
    result (rt_objects rt') a.

End ByReference.

(* ===================================================================== *)
(** ** A host and a store to run the module on *)
(* ===================================================================== *)

Definition slice (s : jsstring) (from count : nat) : jsstring :=
  firstn count (skipn from s).

Fixpoint decimal_acc (acc : Z) (ds : jsstring) : option Z :=
  match ds with
  | [] => Some acc
  | d :: rest =>
      if is_digit d then decimal_acc (acc * 10 + Z.of_N (d - 48)) rest
      else None
  end.

Definition decimal (ds : jsstring) : option Z := decimal_acc 0 ds.

(** The date-time format [toISOString] writes, read back. *)
Definition iso_getTime (s : jsstring) : number :=
  if negb ((length s =? 24)%nat
           && bool_decide (slice s 4 1 = js "-")
           && bool_decide (slice s 7 1 = js "-")
           && bool_decide (slice s 10 1 = js "T")
           && bool_decide (slice s 13 1 = js ":")
           && bool_decide (slice s 16 1 = js ":")
           && bool_decide (slice s 19 1 = js ".")
           && bool_decide (slice s 23 1 = js "Z"))
  then NaN
  else
    match decimal (slice s 0 4), decimal (slice s 5 2), decimal (slice s 8 2),
          decimal (slice s 11 2), decimal (slice s 14 2),
          decimal (slice s 17 2), decimal (slice s 20 3)
    with
    | Some y, Some m, Some d, Some hh, Some mm, Some ss, Some ms =>
        let days := days_from_civil y m d in
        if bool_decide (civil_from_days days = (y, m, d))
           && ((hh <=? 23) || (hh =? 24) && (mm =? 0) && (ss =? 0) && (ms =? 0))%Z
           && (mm <=? 59)%Z && (ss <=? 59)%Z
        then Num (days * 86400000 + hh * 3600000 + mm * 60000 + ss * 1000 + ms)
        else NaN
    | _, _, _, _, _, _, _ => NaN
    end.

(** Ordering by code units, standing in for a locale's collation. *)
Fixpoint compare_code_units (a b : jsstring) : Z :=
  match a, b with
  | [], [] => 0
  | [], _ :: _ => -1
  | _ :: _, [] => 1
  | x :: a', y :: b' =>
      if (x <? y)%N then -1
      else if (y <? x)%N then 1
      else compare_code_units a' b'
  end.

Definition ExampleHost : Host :=
  {| Date_getTime := iso_getTime; localeCompare := compare_code_units |}.

(** A browser store: a map from keys to values, access that may be denied,
    and a quota on the code units held. *)
Record BrowserStorage := mkStorage {
  items : gmap jsstring jsstring;
  accessible : bool;
  quota : nat
}.

Definition usage (m : gmap jsstring jsstring) : nat :=
  map_fold (fun k v n => length k + length v + n) 0 m.

Definition browser_getItem (k : jsstring) (s : BrowserStorage)
  : completion (option jsstring) * BrowserStorage :=
  if accessible s then (Normal (items s !! k), s)
  else (Throw (DOMException "SecurityError"), s).

Definition browser_setItem (k v : jsstring) (s : BrowserStorage)
  : completion unit * BrowserStorage :=
  if accessible s then
    let items' := <[k := v]> (items s) in
    if (usage items' <=? quota s)%nat
    then (Normal tt, mkStorage items' (accessible s) (quota s))
    else (Throw (DOMException "QuotaExceededError"), s)
  else (Throw (DOMException "SecurityError"), s).

Definition browser_removeItem (k : jsstring) (s : BrowserStorage)
  : completion unit * BrowserStorage :=
  if accessible s
  then (Normal tt, mkStorage (delete k (items s)) (accessible s) (quota s))
  else (Throw (DOMException "SecurityError"), s).

#[export] Instance BrowserStorage_LocalStorage : LocalStorage BrowserStorage :=
  {| getItem := browser_getItem;
     setItem := browser_setItem;
     removeItem := browser_removeItem |}.

(** The notes of the test suite. *)
Definition sampleNotes : list Note :=
  [ mkNote (js "1") (js "Buy groceries") false (js "2023-01-01T10:00:00.000Z");
    mkNote (js "2") (js "Walk the dog") true (js "2023-01-01T11:00:00.000Z");
    mkNote (js "3") (js "Finish project") false (js "2023-01-01T12:00:00.000Z") ].

(** A world whose store holds [payload] under the key, if any. *)
Definition example_world (payload : option jsstring) (quota : nat)
  : World BrowserStorage :=
  mkWorld
    (mkStorage
       match payload with
       | Some p => {[ STORAGE_KEY := p ]}
       | None => ∅
       end true quota)
    [].

(* ===================================================================== *)
(** ** Notions for the statements *)
(* ===================================================================== *)

(** The decimal digit of the units of [k], as a code unit. *)
Definition digit (k : Z) : N := (48 + Z.to_N (k mod 10))%N.

(** The time values whose year [toISOString] writes with four digits. *)
Definition four_digit_year (t : Z) : Prop :=
  (0 <= fst (fst (civil_from_days (t / 86400000))) <= 9999)%Z.

(** A host reads back the dates [toISOString] writes. *)
Definition reads_ISO (H : Host) : Prop :=
  forall t, four_digit_year t -> Date_getTime (toISOString t) = Num t.

(** [f] holds at [count] consecutive integers from [from]. *)
Fixpoint all_from (count : nat) (from : Z) (f : Z -> bool) : bool :=
  match count with
  | O => true
  | S n => f from && all_from n (from + 1) f
  end.

(** The calendar conversions undo each other on this day, and the month and
    day are in range. *)
Definition civil_ok (z : Z) : bool :=
  let '(y, m, d) := civil_from_days z in
  ((days_from_civil y m d =? z) && (1 <=? m) && (m <=? 12)
   && (1 <=? d) && (d <=? 31))%Z.

(** Identifiers and clock readings that differ from call to call. *)
Definition example_env : Env :=
  mkEnv (fun i => js "note-" ++ pad 4 (Z.of_nat i)) 0
        (fun i => 1672567200000 + Z.of_nat i)%Z 0.

(** The notes of the test suite as objects 1 to 3, in an array under 4. *)
Definition example_runtime : Runtime BrowserStorage :=
  mkRuntime
    (list_to_map
       ((4%positive, ArrayObject [1; 2; 3]%positive)
        :: zip [1; 2; 3]%positive (List.map NoteObject sampleNotes)))
    (example_world None 1000) example_env.

(** Forty notes, 23 of them done. *)
Definition forty_notes : list Note :=
  repeat (mkNote (js "d") (js "done") true (js "2023-01-01T10:00:00.000Z")) 23
  ++ repeat (mkNote (js "o") (js "open") false (js "2023-01-01T10:00:00.000Z")) 17.

(** The rate agrees with the exact rounding. *)
Definition rate_exact (c t : nat) : Prop :=
  rate c t = binary64_of_Z (round_half_up_percent (Z.of_nat c) (Z.of_nat t)).

#[local] Instance spec_float_eq_dec : EqDecision spec_float.
Proof. solve_decision. Defined.

#[local] Instance rate_exact_dec (c t : nat) : Decision (rate_exact c t).
Proof. unfold rate_exact. apply _. Defined.

(* ===================================================================== *)
(** ** The application component *)
(* ===================================================================== *)

(** [App.tsx]: the state the component keeps between renders, its three
    handlers, and the two values it derives for display.  A handler reads
    the state of the render it was created in and replaces parts of it;
    moving the input focus afterwards is left to the page. *)
Module App.

Record State := mkState {
  st_notes : list Note;
  st_text : jsstring;
  st_filter : jsstring;
  st_searchQuery : jsstring;
  st_sortBy : jsstring;
  st_focusedInput : option jsstring;
  st_hoveredNote : option jsstring;
  st_hoveredButton : option jsstring
}.

Definition setNotes (ns : list Note) (s : State) : State :=
  mkState ns (st_text s) (st_filter s) (st_searchQuery s) (st_sortBy s)
    (st_focusedInput s) (st_hoveredNote s) (st_hoveredButton s).

Definition setText (t : jsstring) (s : State) : State :=
  mkState (st_notes s) t (st_filter s) (st_searchQuery s) (st_sortBy s)
    (st_focusedInput s) (st_hoveredNote s) (st_hoveredButton s).

Definition setFilter (f : jsstring) (s : State) : State :=
  mkState (st_notes s) (st_text s) f (st_searchQuery s) (st_sortBy s)
    (st_focusedInput s) (st_hoveredNote s) (st_hoveredButton s).

Definition setSearchQuery (q : jsstring) (s : State) : State :=
  mkState (st_notes s) (st_text s) (st_filter s) q (st_sortBy s)
    (st_focusedInput s) (st_hoveredNote s) (st_hoveredButton s).

(** The state after mounting on the loaded notes. *)
Definition initial (loaded : list Note) : State :=
  mkState loaded [] (js "all") [] (js "date") None None None.

Definition add (s : State) (e : Env) : State * Env :=
  let val := JsString.trim (st_text s) in
  if negb (JsString.truthy val) then (s, e)
  else
    let (uuid, e1) := randomUUID e in
    let (t, e2) := Date_now e1 in
    (setText []
       (setNotes
          ({| id := uuid; text := val; done := false;
              createdAt := toISOString t |} :: st_notes s) s),
     e2).

Definition toggle (i : jsstring) (s : State) : State :=
  setNotes
    (List.map
       (fun n =>
          if decide (id n = i)
          then {| id := id n; text := text n; done := negb (done n);
                  createdAt := createdAt n |}
          else n)
       (st_notes s)) s.

Definition remove (i : jsstring) (s : State) : State :=
  setNotes (List.filter (fun n => negb (bool_decide (id n = i))) (st_notes s)) s.

(** [disabled={!text.trim()}] on the Add button. *)
Definition add_disabled (s : State) : bool :=
  negb (JsString.truthy (JsString.trim (st_text s))).

Section Derived.
Context `{Host}.

(** The comparator handed to [result.sort]: the [switch] is inside it. *)
Definition compare (sortBy : jsstring) (a b : Note) : number :=
  if decide (sortBy = js "alphabetical") then
    Num (localeCompare (text a) (text b))
  else if decide (sortBy = js "status") then
    if Bool.eqb (done a) (done b) then
      number_sub (Date_getTime (createdAt b)) (Date_getTime (createdAt a))
    else if done a then Num 1 else Num (-1)
  else
    number_sub (Date_getTime (createdAt b)) (Date_getTime (createdAt a)).

Definition processedNotes (s : State) : list Note :=
  let result := st_notes s in
  let result :=
    if JsString.truthy (JsString.trim (st_searchQuery s)) then
      let query := JsString.trim (JsString.toLowerCase (st_searchQuery s)) in
      List.filter
        (fun n => JsString.includes (JsString.toLowerCase (text n)) query)
        result
    else result in
  let result :=
    if decide (st_filter s = js "open")
    then List.filter (fun n => negb (done n)) result else result in
  let result :=
    if decide (st_filter s = js "done")
    then List.filter (fun n => done n) result else result in
  Array_sort (compare (st_sortBy s)) result.

End Derived.

Record Counts := mkCounts {
  total : nat;
  completed : nat;
  pending : nat
}.

Definition stats (s : State) : Counts :=
  let total := length (st_notes s) in
  let completed := length (List.filter (fun n => done n) (st_notes s)) in
  let pending := total - completed in
  {| total := total; completed := completed; pending := pending |}.

End App.

(* ===================================================================== *)
(** ** The component before the storage module was split off *)
(* ===================================================================== *)

(** The earlier [App.tsx] keeps its own [loadNotes] and [saveNotes]: the
    first falls back to the text of an empty array and catches without
    logging, the second has no [try]. *)
Module LegacyApp.

Definition KEY : jsstring := js "notes.v1".

Section Legacy.
Context {S : Type} `{LocalStorage S}.
Local Open Scope js_scope.

Definition loadNotes : M S json :=
  try_catch
    (stored <- on_storage (getItem KEY) ;;
     JSON_parse_M
       match stored with
       | Some payload => payload
       | None => js "[]"
       end)
    (fun _ => ret (JArray [])).

Definition saveNotes (notes : list Note) : M S unit :=
  on_storage (setItem KEY (JSON_stringify_notes notes)).

End Legacy.

Definition filtered (notes : list Note) (filter : jsstring) : list Note :=
  if decide (filter = js "open") then
    List.filter (fun n => negb (done n)) notes
  else if decide (filter = js "done") then
    List.filter (fun n => done n) notes
  else notes.

End LegacyApp.

(* ===================================================================== *)
(** ** The store of the test suite *)
(* ===================================================================== *)

(** [localStorageMock]: a Map behind mock functions.  A mock function
    records each call and then runs its implementation; [getItem] turns a
    missing or empty value into [null]. *)
Inductive mock_call :=
| GetItem (key : jsstring)
| SetItem (key value : jsstring)
| RemoveItem (key : jsstring).

Record localStorageMock := mkMock {
  store : gmap jsstring jsstring;
  calls : list mock_call
}.

Definition mock_getItem (key : jsstring) (m : localStorageMock)
  : completion (option jsstring) * localStorageMock :=
  (Normal
     match store m !! key with
     | Some v => if JsString.truthy v then Some v else None
     | None => None
     end,
   mkMock (store m) (calls m ++ [GetItem key])).

Definition mock_setItem (key value : jsstring) (m : localStorageMock)
  : completion unit * localStorageMock :=
  (Normal tt, mkMock (<[key := value]> (store m)) (calls m ++ [SetItem key value])).

Definition mock_removeItem (key : jsstring) (m : localStorageMock)
  : completion unit * localStorageMock :=
  (Normal tt, mkMock (delete key (store m)) (calls m ++ [RemoveItem key])).

#[export] Instance localStorageMock_LocalStorage : LocalStorage localStorageMock :=
  {| getItem := mock_getItem;
     setItem := mock_setItem;
     removeItem := mock_removeItem |}.

(* ===================================================================== *)
(** ** More notions for the statements *)
(* ===================================================================== *)

(** A string with no white space at either end. *)
Definition trimmed (s : jsstring) : Prop :=
  (forall c r, s = c :: r -> JsString.is_white_space c = false) /\
  (forall c r, s = r ++ [c] -> JsString.is_white_space c = false).

(** The number of notes with [done = true]. *)
Definition done_count (ns : list Note) : nat :=
  length (List.filter (fun n => done n) ns).

(** A state to run the component on. *)
Definition example_state : App.State :=
  App.mkState sampleNotes (js "  Call mum ") (js "open") (js "o") (js "status")
    None None None.

(* ===================================================================== *)
(** * Properties *)
(* ===================================================================== *)

(** ** Strings *)

Ltac bool_to_prop :=
  repeat (rewrite ?orb_true_iff, ?andb_true_iff, ?orb_false_iff,
            ?andb_false_iff, ?negb_true_iff, ?negb_false_iff,
            ?N.leb_le, ?N.eqb_eq, ?N.leb_gt, ?N.eqb_neq,
            ?N.ltb_lt, ?N.ltb_ge in *).

Lemma startsWith_spec (s p : jsstring) :
  JsString.startsWith s p = true <-> exists post, s = p ++ post.
Proof.
  revert s. induction p as [|a p IH]; intros s; simpl.
  - split; [intros _; exists s; reflexivity | destruct s; reflexivity].
  - destruct s as [|b s].
    + split; [discriminate | intros [post Hp]; discriminate].
    + cbn [JsString.startsWith]. rewrite andb_true_iff, N.eqb_eq, IH. split.
      * intros [-> [post ->]]. exists post. reflexivity.
      * intros [post Hp]. injection Hp as -> ->. eauto.
Qed.

Lemma includes_spec (s p : jsstring) :
  JsString.includes s p = true <-> JsString.substring_of p s.
Proof.
  unfold JsString.substring_of. induction s as [|c s IH].
  - cbn [JsString.includes]. rewrite orb_false_r, startsWith_spec. split.
    + intros [post Hp]. exists [], post. exact Hp.
    + intros [pre [post Hp]]. destruct pre; [|discriminate].
      exists post. exact Hp.
  - cbn [JsString.includes]. rewrite orb_true_iff, startsWith_spec, IH. split.
    + intros [[post Hp]|[pre [post Hp]]].
      * exists [], post. exact Hp.
      * exists (c :: pre), post. rewrite Hp. reflexivity.
    + intros [[|c' pre] [post Hp]].
      * left. exists post. exact Hp.
      * right. injection Hp as -> ->. eauto.
Qed.

Lemma substring_of_trans (a b c : jsstring) :
  JsString.substring_of a b -> JsString.substring_of b c ->
  JsString.substring_of a c.
Proof.
  intros [p1 [q1 ->]] [p2 [q2 ->]].
  exists (p2 ++ p1), (q1 ++ q2). rewrite <- !app_assoc. reflexivity.
Qed.

Lemma trimStart_suffix (s : jsstring) :
  exists pre, s = pre ++ JsString.trimStart s.
Proof.
  induction s as [|c s [pre IH]]; simpl.
  - exists []. reflexivity.
  - destruct (JsString.is_white_space c).
    + exists (c :: pre). simpl. rewrite <- IH. reflexivity.
    + exists []. reflexivity.
Qed.

Lemma trimEnd_prefix (s : jsstring) :
  exists post, s = JsString.trimEnd s ++ post.
Proof.
  unfold JsString.trimEnd. destruct (trimStart_suffix (rev s)) as [pre Hp].
  exists (rev pre). rewrite <- rev_app_distr, <- Hp, rev_involutive.
  reflexivity.
Qed.


(** *** White space and the case tables *)

Lemma assoc_In {A} (c : N) (l : list (N * A)) (v : A) :
  JsString.assoc c l = Some v -> In (c, v) l.
Proof.
  induction l as [|[k x] l IH]; cbn [JsString.assoc]; [discriminate|].
  destruct (N.eqb_spec k c) as [->|_].
  - intros [= ->]. left. reflexivity.
  - intros Hl. right. apply IH, Hl.
Qed.

Lemma white_space_units (c : N) :
  JsString.is_white_space c = true ->
  In c [9; 10; 11; 12; 13; 32; 160; 5760; 8192; 8193; 8194; 8195; 8196;
        8197; 8198; 8199; 8200; 8201; 8202; 8232; 8233; 8239; 8287; 12288;
        65279]%N.
Proof.
  unfold JsString.is_white_space. intros Hc. bool_to_prop. cbn [In]. lia.
Qed.

(** A white-space code unit is a code point by itself and has no case; at
    the end of what precedes or follows a sigma it makes no difference
    (U+FEFF is case-ignorable, the others are neither that nor cased). *)
Lemma white_space_mapped (c : N) :
  JsString.is_white_space c = true ->
  JsString.UTF16EncodeCodePoint c = [c] /\
  JsString.is_leading_surrogate c = false /\
  JsString.is_trailing_surrogate c = false /\
  (c =? 0x3A3)%N = false /\
  JsString.lower_cp c = [c] /\
  JsString.upper_cp c = [c] /\
  JsString.followed_by_cased [c] = false.
Proof.
  intros Hc. apply white_space_units in Hc. cbn [In] in Hc.
  repeat (destruct Hc as [<-|Hc]; [vm_compute; repeat split; reflexivity|]).
  contradiction.
Qed.

Lemma surrogate_not_white_space (c : N) :
  (0xD800 <= c <= 0xDFFF)%N -> JsString.is_white_space c = false.
Proof.
  intros Hc. apply not_true_is_false. intros Hw.
  unfold JsString.is_white_space in Hw. bool_to_prop. lia.
Qed.

Lemma pair_not_white_space (lead trail : N) :
  JsString.is_white_space (JsString.UTF16SurrogatePairToCodePoint lead trail)
  = false.
Proof.
  apply not_true_is_false. intros Hw.
  unfold JsString.is_white_space, JsString.UTF16SurrogatePairToCodePoint in Hw.
  bool_to_prop. lia.
Qed.

Lemma UTF16EncodeCodePoint_units (cp : N) :
  JsString.UTF16EncodeCodePoint cp <> [] /\
  (JsString.is_white_space cp = false ->
   Forall (fun u => JsString.is_white_space u = false)
     (JsString.UTF16EncodeCodePoint cp)).
Proof.
  unfold JsString.UTF16EncodeCodePoint.
  destruct (cp <=? 0xFFFF)%N eqn:Hbmp;
    [split; [discriminate | intros Hc; repeat constructor; exact Hc]|].
  destruct (cp <=? 0x10FFFF)%N eqn:Hmax;
    [|split; [discriminate | intros Hc; repeat constructor; exact Hc]].
  split; [discriminate|]. intros _. bool_to_prop.
  pose proof (N.Div0.mul_div_le (cp - 0x10000) 0x400) as Hq.
  pose proof (N.mod_lt (cp - 0x10000) 0x400 ltac:(discriminate)) as Hr.
  revert Hq Hr.
  generalize ((cp - 0x10000) / 0x400)%N ((cp - 0x10000) mod 0x400)%N.
  intros q r Hq Hr.
  repeat constructor; apply surrogate_not_white_space; lia.
Qed.

Lemma CodePointsToString_app (a b : list N) :
  JsString.CodePointsToString (a ++ b)
  = JsString.CodePointsToString a ++ JsString.CodePointsToString b.
Proof. apply flat_map_app. Qed.

Lemma CodePointsToString_units (cps : list N) :
  cps <> [] ->
  Forall (fun c => JsString.is_white_space c = false) cps ->
  JsString.CodePointsToString cps <> [] /\
  Forall (fun u => JsString.is_white_space u = false)
    (JsString.CodePointsToString cps).
Proof.
  intros Hne Hall. split.
  - destruct cps as [|c cps]; [contradiction|].
    cbn [JsString.CodePointsToString flat_map]. intros Hnil.
    apply app_eq_nil in Hnil as [Hnil _].
    exact (proj1 (UTF16EncodeCodePoint_units c) Hnil).
  - clear Hne. induction Hall as [|c cps Hc _ IH]; [constructor|].
    cbn [JsString.CodePointsToString flat_map]. apply Forall_app. split.
    + apply UTF16EncodeCodePoint_units, Hc.
    + apply IH.
Qed.

(** No case mapping produces white space, or nothing. *)
Lemma lowercase_images_checked :
  forallb
    (fun '(_, l) =>
       match l with
       | [] => false
       | _ :: _ => forallb (fun c => negb (JsString.is_white_space c)) l
       end)
    JsString.lowercase_mapping = true.
Proof. vm_compute. reflexivity. Qed.

Lemma lower_cp_units (c : N) :
  JsString.is_white_space c = false ->
  JsString.lower_cp c <> [] /\
  Forall (fun t => JsString.is_white_space t = false) (JsString.lower_cp c).
Proof.
  intros Hc. unfold JsString.lower_cp.
  destruct (JsString.assoc c JsString.lowercase_mapping) as [l|] eqn:E.
  - apply assoc_In in E. pose proof lowercase_images_checked as Hall.
    rewrite forallb_forall in Hall. specialize (Hall _ E).
    cbn beta iota in Hall. destruct l as [|t l]; [discriminate|].
    split; [discriminate|]. apply List.Forall_forall. intros x Hx.
    rewrite forallb_forall in Hall. apply negb_true_iff, Hall, Hx.
  - split; [discriminate | repeat constructor; exact Hc].
Qed.

Lemma lower_at_white_space (before after : list N) (c : N) :
  JsString.is_white_space c = true -> JsString.lower_at before c after = [c].
Proof.
  intros Hc. destruct (white_space_mapped c Hc) as (_ & _ & _ & Hs & Hl & _).
  unfold JsString.lower_at. rewrite Hs. exact Hl.
Qed.

Lemma lower_at_units (before after : list N) (c : N) :
  JsString.is_white_space c = false ->
  JsString.lower_at before c after <> [] /\
  Forall (fun t => JsString.is_white_space t = false)
    (JsString.lower_at before c after).
Proof.
  intros Hc. unfold JsString.lower_at.
  destruct (c =? 0x3A3)%N; [|apply lower_cp_units, Hc].
  destruct (_ && _); (split; [discriminate | repeat constructor]).
Qed.

Lemma lower_at_not_nil (before after : list N) (c : N) :
  JsString.lower_at before c after <> [].
Proof.
  destruct (JsString.is_white_space c) eqn:Hc.
  - rewrite lower_at_white_space by exact Hc. discriminate.
  - apply lower_at_units, Hc.
Qed.

(** *** Code points of a string with white space at an end *)

Lemma list_ind2 {A} (P : list A -> Prop) :
  P [] -> (forall a, P [a]) ->
  (forall a b l, P l -> P (b :: l) -> P (a :: b :: l)) ->
  forall l, P l.
Proof.
  intros Hnil Hone Htwo l.
  enough (P l /\ forall a, P (a :: l)) as [Hl _] by exact Hl.
  induction l as [|b l [IH1 IH2]]; split; auto.
Qed.

Lemma StringToCodePoints_cons (c : N) (r : jsstring) :
  JsString.is_leading_surrogate c = false ->
  JsString.StringToCodePoints (c :: r) = c :: JsString.StringToCodePoints r.
Proof.
  intros Hc. cbn [JsString.StringToCodePoints].
  destruct r; [reflexivity|]. rewrite Hc. reflexivity.
Qed.

Lemma StringToCodePoints_head (c : N) (r : jsstring) :
  JsString.is_white_space c = false ->
  exists cp cps,
    JsString.StringToCodePoints (c :: r) = cp :: cps /\
    JsString.is_white_space cp = false.
Proof.
  intros Hc. cbn [JsString.StringToCodePoints]. destruct r as [|t r].
  - eauto.
  - destruct (_ && _); eauto using pair_not_white_space.
Qed.

Lemma StringToCodePoints_snoc (s : jsstring) (c : N) :
  JsString.is_trailing_surrogate c = false ->
  JsString.StringToCodePoints (s ++ [c]) = JsString.StringToCodePoints s ++ [c].
Proof.
  intros Hc. induction s as [|a|a b l IH1 IH2] using list_ind2.
  - reflexivity.
  - cbn [app JsString.StringToCodePoints]. rewrite Hc, andb_false_r.
    reflexivity.
  - change ((a :: b :: l) ++ [c]) with (a :: b :: (l ++ [c])).
    change (JsString.StringToCodePoints (a :: b :: (l ++ [c])))
      with (if JsString.is_leading_surrogate a
               && JsString.is_trailing_surrogate b
            then JsString.UTF16SurrogatePairToCodePoint a b
                 :: JsString.StringToCodePoints (l ++ [c])
            else a :: JsString.StringToCodePoints ((b :: l) ++ [c])).
    change (JsString.StringToCodePoints (a :: b :: l))
      with (if JsString.is_leading_surrogate a
               && JsString.is_trailing_surrogate b
            then JsString.UTF16SurrogatePairToCodePoint a b
                 :: JsString.StringToCodePoints l
            else a :: JsString.StringToCodePoints (b :: l)).
    rewrite IH1, IH2. destruct (_ && _); reflexivity.
Qed.

Lemma StringToCodePoints_last (s : jsstring) (c : N) :
  JsString.is_white_space c = false ->
  exists cps cp,
    JsString.StringToCodePoints (s ++ [c]) = cps ++ [cp] /\
    JsString.is_white_space cp = false.
Proof.
  intros Hc. induction s as [|a|a b l IH1 IH2] using list_ind2.
  - exists [], c. auto.
  - cbn [app JsString.StringToCodePoints]. destruct (_ && _).
    + exists [], (JsString.UTF16SurrogatePairToCodePoint a c).
      split; [reflexivity | apply pair_not_white_space].
    + exists [a], c. auto.
  - change ((a :: b :: l) ++ [c]) with (a :: b :: (l ++ [c])).
    change (JsString.StringToCodePoints (a :: b :: (l ++ [c])))
      with (if JsString.is_leading_surrogate a
               && JsString.is_trailing_surrogate b
            then JsString.UTF16SurrogatePairToCodePoint a b
                 :: JsString.StringToCodePoints (l ++ [c])
            else a :: JsString.StringToCodePoints ((b :: l) ++ [c])).
    destruct IH1 as (cps1 & cp1 & -> & H1).
    destruct IH2 as (cps2 & cp2 & -> & H2).
    destruct (_ && _); eexists (_ :: _), _; split; try reflexivity;
      assumption.
Qed.

Lemma StringToCodePoints_nil (s : jsstring) :
  JsString.StringToCodePoints s = [] -> s = [].
Proof.
  destruct s as [|c [|t r]]; [reflexivity | discriminate |].
  cbn [JsString.StringToCodePoints]. destruct (_ && _); discriminate.
Qed.

(** *** Lower-casing next to white space *)

Lemma followed_by_cased_snoc (x : list N) (w : N) :
  JsString.is_white_space w = true ->
  JsString.followed_by_cased (x ++ [w]) = JsString.followed_by_cased x.
Proof.
  intros Hw. destruct (white_space_mapped w Hw) as (_ & _ & _ & _ & _ & _ & Hc).
  induction x as [|c x IH]; [exact Hc|].
  cbn [app JsString.followed_by_cased]. rewrite IH. reflexivity.
Qed.

Lemma toLowercase_before_snoc (before cps : list N) (w : N) :
  JsString.is_white_space w = true ->
  JsString.toLowercase (before ++ [w]) cps = JsString.toLowercase before cps.
Proof.
  intros Hw. revert before.
  induction cps as [|c cps IH]; intros before; [reflexivity|].
  cbn [JsString.toLowercase]. unfold JsString.lower_at.
  rewrite (followed_by_cased_snoc before w Hw).
  change (c :: before ++ [w]) with ((c :: before) ++ [w]).
  rewrite IH. reflexivity.
Qed.

Lemma toLowercase_snoc (before cps : list N) (w : N) :
  JsString.is_white_space w = true ->
  JsString.toLowercase before (cps ++ [w])
  = JsString.toLowercase before cps ++ [w].
Proof.
  intros Hw. revert before.
  induction cps as [|c cps IH]; intros before;
    cbn [app JsString.toLowercase].
  - rewrite lower_at_white_space by exact Hw. reflexivity.
  - rewrite IH, app_assoc. f_equal. f_equal. unfold JsString.lower_at.
    rewrite (followed_by_cased_snoc cps w Hw). reflexivity.
Qed.

Lemma toLowercase_last (before cps : list N) (cp : N) :
  exists pre b,
    JsString.toLowercase before (cps ++ [cp])
    = pre ++ JsString.lower_at b cp [].
Proof.
  revert before. induction cps as [|c cps IH]; intros before;
    cbn [app JsString.toLowercase].
  - exists [], before. rewrite app_nil_r. reflexivity.
  - destruct (IH (c :: before)) as (pre & b & ->).
    eexists (_ ++ pre), b. rewrite app_assoc. reflexivity.
Qed.

Lemma toLowerCase_cons_white_space (w : N) (s : jsstring) :
  JsString.is_white_space w = true ->
  JsString.toLowerCase (w :: s) = w :: JsString.toLowerCase s.
Proof.
  intros Hw. destruct (white_space_mapped w Hw) as (He & Hl & _).
  unfold JsString.toLowerCase. rewrite StringToCodePoints_cons by exact Hl.
  cbn [JsString.toLowercase]. rewrite lower_at_white_space by exact Hw.
  rewrite (toLowercase_before_snoc [] _ w Hw).
  cbn [app JsString.CodePointsToString flat_map]. rewrite He. reflexivity.
Qed.

Lemma toLowerCase_snoc_white_space (s : jsstring) (w : N) :
  JsString.is_white_space w = true ->
  JsString.toLowerCase (s ++ [w]) = JsString.toLowerCase s ++ [w].
Proof.
  intros Hw. destruct (white_space_mapped w Hw) as (He & _ & Ht & _).
  unfold JsString.toLowerCase. rewrite StringToCodePoints_snoc by exact Ht.
  rewrite toLowercase_snoc by exact Hw. rewrite CodePointsToString_app.
  cbn [JsString.CodePointsToString flat_map]. rewrite He. reflexivity.
Qed.

Lemma toLowerCase_head (c : N) (s : jsstring) :
  JsString.is_white_space c = false ->
  exists u rest,
    JsString.toLowerCase (c :: s) = u :: rest /\
    JsString.is_white_space u = false.
Proof.
  intros Hc. unfold JsString.toLowerCase.
  destruct (StringToCodePoints_head c s Hc) as (cp & cps & -> & Hcp).
  cbn [JsString.toLowercase]. rewrite CodePointsToString_app.
  destruct (lower_at_units [] cps cp Hcp) as [Hne Hall].
  destruct (CodePointsToString_units _ Hne Hall) as [Hne' Hall'].
  destruct (JsString.CodePointsToString (JsString.lower_at [] cp cps))
    as [|u rest]; [contradiction|].
  exists u, (rest ++ JsString.CodePointsToString
                       (JsString.toLowercase [cp] cps)).
  split; [reflexivity | exact (Forall_inv Hall')].
Qed.

Lemma toLowerCase_last (s : jsstring) (c : N) :
  JsString.is_white_space c = false ->
  exists rest u,
    JsString.toLowerCase (s ++ [c]) = rest ++ [u] /\
    JsString.is_white_space u = false.
Proof.
  intros Hc. unfold JsString.toLowerCase.
  destruct (StringToCodePoints_last s c Hc) as (cps & cp & -> & Hcp).
  destruct (toLowercase_last [] cps cp) as (pre & b & ->).
  rewrite CodePointsToString_app.
  destruct (lower_at_units b [] cp Hcp) as [Hne Hall].
  destruct (CodePointsToString_units _ Hne Hall) as [Hne' Hall'].
  destruct (exists_last Hne') as (rest & u & Hlast).
  rewrite Hlast in *. exists (JsString.CodePointsToString pre ++ rest), u.
  split; [rewrite app_assoc; reflexivity|].
  apply Forall_app in Hall' as [_ Hu]. exact (Forall_inv Hu).
Qed.

Lemma toLowerCase_nil (s : jsstring) :
  JsString.toLowerCase s = [] <-> s = [].
Proof.
  split; [|intros ->; reflexivity].
  unfold JsString.toLowerCase. intros Hnil.
  apply StringToCodePoints_nil.
  destruct (JsString.StringToCodePoints s) as [|cp cps]; [reflexivity|].
  exfalso. cbn [JsString.toLowercase] in Hnil.
  rewrite CodePointsToString_app in Hnil.
  apply app_eq_nil in Hnil as [Hnil _].
  destruct (JsString.lower_at [] cp cps) as [|t l] eqn:E;
    [exact (lower_at_not_nil _ _ _ E)|].
  cbn [JsString.CodePointsToString flat_map] in Hnil.
  apply app_eq_nil in Hnil as [Hnil _].
  exact (proj1 (UTF16EncodeCodePoint_units t) Hnil).
Qed.

(** *** Trimming and lower-casing commute *)

Lemma trimStart_toLowerCase (s : jsstring) :
  JsString.trimStart (JsString.toLowerCase s)
  = JsString.toLowerCase (JsString.trimStart s).
Proof.
  induction s as [|c s IH]; [reflexivity|].
  cbn [JsString.trimStart]. destruct (JsString.is_white_space c) eqn:Hc.
  - rewrite toLowerCase_cons_white_space by exact Hc.
    cbn [JsString.trimStart]. rewrite Hc. exact IH.
  - destruct (toLowerCase_head c s Hc) as (u & rest & -> & Hu).
    cbn [JsString.trimStart]. rewrite Hu. reflexivity.
Qed.

Lemma trimEnd_snoc (s : jsstring) (c : N) :
  JsString.trimEnd (s ++ [c])
  = if JsString.is_white_space c then JsString.trimEnd s else s ++ [c].
Proof.
  unfold JsString.trimEnd. rewrite rev_app_distr.
  cbn [rev app JsString.trimStart].
  destruct (JsString.is_white_space c); [reflexivity|].
  cbn [rev]. rewrite rev_involutive. reflexivity.
Qed.

Lemma trimEnd_toLowerCase (s : jsstring) :
  JsString.trimEnd (JsString.toLowerCase s)
  = JsString.toLowerCase (JsString.trimEnd s).
Proof.
  induction s as [|c s IH] using rev_ind; [reflexivity|].
  rewrite trimEnd_snoc. destruct (JsString.is_white_space c) eqn:Hc.
  - rewrite toLowerCase_snoc_white_space by exact Hc.
    rewrite trimEnd_snoc, Hc. exact IH.
  - destruct (toLowerCase_last s c Hc) as (rest & u & -> & Hu).
    rewrite trimEnd_snoc, Hu. reflexivity.
Qed.

Lemma trim_toLowerCase (s : jsstring) :
  JsString.trim (JsString.toLowerCase s)
  = JsString.toLowerCase (JsString.trim s).
Proof.
  unfold JsString.trim. rewrite trimStart_toLowerCase.
  apply trimEnd_toLowerCase.
Qed.



(** *** Strings of plain code units *)









(** *** Case-stable code units *)















(** ** Searching *)







(** Lower-casing reaches beyond Latin-1: a Cyrillic text is found by the
    upper-cased word. *)
Example test_searchNotes_cyrillic :
  let n := mkNote (js "1") [0x41F; 0x440; 0x438; 0x432; 0x435; 0x442]%N false
             (js "2023-01-01T10:00:00.000Z") in
  searchNotes [n] [0x41F; 0x420; 0x418; 0x412; 0x415; 0x422]%N = [n].
Proof. vm_compute. reflexivity. Qed.

(** U+03A3 at the end of a word becomes U+03C2, elsewhere U+03C3: a text
    with a capital sigma inside a word is not found by the part that ends
    with the sigma. *)
Example test_searchNotes_final_sigma :
  let n := mkNote (js "1") [0x391; 0x3A3; 0x391]%N false
             (js "2023-01-01T10:00:00.000Z") in
  JsString.toLowerCase [0x391; 0x3A3; 0x391]%N = [0x3B1; 0x3C3; 0x3B1]%N /\
  JsString.toLowerCase [0x391; 0x3A3]%N = [0x3B1; 0x3C2]%N /\
  searchNotes [n] [0x391; 0x3A3]%N = [].
Proof. vm_compute. repeat split. Qed.

(** ** Toggling *)

Lemma toggleNote_involutive (n : Note) : toggleNote (toggleNote n) = n.
Proof.
  destruct n as [i t d c]. unfold toggleNote. simpl.
  rewrite negb_involutive. reflexivity.
Qed.

(** C4: the result has [done] negated and the other fields as they were; it
    is a fresh object and no existing object, the argument included, is
    changed; toggling twice gives back a note equal to the first. *)
Theorem toggleNote_spec (n : Note) (h : heap) (r : positive)
  (Hr : h !! r = Some n) :
  done (toggleNote n) = negb (done n) /\
  id (toggleNote n) = id n /\
  text (toggleNote n) = text n /\
  createdAt (toggleNote n) = createdAt n /\
  toggleNote (toggleNote n) = n /\
  exists h' r',
    toggleNote_ref h r = Some (h', r') /\
    h !! r' = None /\
    h' !! r' = Some (toggleNote n) /\
    h' !! r = Some n /\
    forall q, q <> r' -> h' !! q = h !! q.
Proof.
  repeat (split; [reflexivity|]).
  split; [apply toggleNote_involutive|].
  unfold toggleNote_ref. rewrite Hr.
  pose proof (is_fresh (dom h)) as Hfresh.
  assert (h !! fresh (dom h) = None) as Hnone.
  { apply not_elem_of_dom. exact Hfresh. }
  eexists _, _. split; [reflexivity|].
  split; [exact Hnone|].
  split; [apply lookup_insert_eq|].
  split.
  - rewrite lookup_insert_ne; [exact Hr|]. intros Heq. congruence.
  - intros q Hq. apply lookup_insert_ne. congruence.
Qed.

Lemma toggleNote_spec_witness :
  let n := mkNote (js "1") (js "Buy groceries") false
             (js "2023-01-01T10:00:00.000Z") in
  done (toggleNote n) = true /\ toggleNote (toggleNote n) = n.
Proof.
  intros n.
  destruct (toggleNote_spec n {[ 1%positive := n ]} 1%positive)
    as (Hd & _ & _ & _ & Hinv & _).
  - vm_compute. reflexivity.
  - split; [exact Hd | exact Hinv].
Defined.

(** ** Sorting *)

Section SortFacts.
Context {A : Type} (comparefn : A -> A -> number).

Lemma sort_insert_Permutation (x : A) (l : list A) :
  Permutation (x :: l) (sort_insert comparefn x l).
Proof.
  induction l as [|y l IH]; simpl; [reflexivity|].
  destruct (SortCompare comparefn x y <=? 0)%Z; [reflexivity|].
  rewrite perm_swap. apply perm_skip, IH.
Qed.

Lemma Array_sort_Permutation (l : list A) :
  Permutation l (Array_sort comparefn l).
Proof.
  induction l as [|x l IH]; simpl; [reflexivity|].
  rewrite <- sort_insert_Permutation. apply perm_skip, IH.
Qed.


(** On elements where the comparator is total and transitive, the result is
    sorted: every element precedes all the later ones. *)
Variable P : A -> Prop.
Hypothesis precedes_total :
  forall x y, P x -> P y -> precedes comparefn x y \/ precedes comparefn y x.
Hypothesis precedes_trans :
  forall x y z, P x -> P y -> P z ->
    precedes comparefn x y -> precedes comparefn y z -> precedes comparefn x z.

Lemma sort_insert_sorted (x : A) (l : list A) :
  P x -> Forall P l ->
  StronglySorted (precedes comparefn) l ->
  StronglySorted (precedes comparefn) (sort_insert comparefn x l).
Proof using precedes_total precedes_trans.
  intros Hx Hl Hs. induction Hs as [|y l Hs IH Hy]; simpl.
  - repeat constructor.
  - apply Forall_cons in Hl as [Py Pl].
    destruct (Z.leb_spec (SortCompare comparefn x y) 0) as [Hle|Hgt].
    + constructor; [constructor; assumption|].
      constructor; [exact Hle|].
      rewrite List.Forall_forall in *. intros z Hz.
      apply (precedes_trans x y z);
        [exact Hx | exact Py | apply Pl, Hz | exact Hle | apply Hy, Hz].
    + assert (precedes comparefn y x) as Hyx.
      { destruct (precedes_total x y Hx Py) as [Hc|Hc]; [|exact Hc].
        unfold precedes in Hc. lia. }
      constructor; [apply IH, Pl|].
      rewrite List.Forall_forall in *. intros z Hz.
      apply (Permutation_in _ (Permutation_sym (sort_insert_Permutation x l)))
        in Hz.
      destruct Hz as [<-|Hz]; [exact Hyx | apply Hy, Hz].
Qed.

Lemma Array_sort_sorted (l : list A) :
  Forall P l -> StronglySorted (precedes comparefn) (Array_sort comparefn l).
Proof using precedes_total precedes_trans.
  induction 1 as [|x l Hx Hl IH]; simpl; [constructor|].
  apply sort_insert_sorted; [exact Hx| |exact IH].
  rewrite List.Forall_forall in *. intros z Hz. apply Hl.
  apply (Permutation_in _ (Permutation_sym (Array_sort_Permutation l))), Hz.
Qed.

End SortFacts.

(** In a strongly sorted list the relation holds between any two positions
    in order. *)
Lemma StronglySorted_lookup {A} (R : A -> A -> Prop) (l : list A) :
  StronglySorted R l ->
  forall i j a b, (i < j)%nat -> l !! i = Some a -> l !! j = Some b -> R a b.
Proof.
  induction 1 as [|x l Hs IH Hx]; intros i j a b Hij Hi Hj.
  - rewrite lookup_nil in Hi. discriminate.
  - destruct j as [|j]; [lia|]. simpl in Hj.
    destruct i as [|i]; simpl in Hi.
    + injection Hi as <-. rewrite List.Forall_forall in Hx.
      apply Hx. apply list_elem_of_In. eapply list_elem_of_lookup_2, Hj.
    + eapply IH; [|exact Hi|exact Hj]. lia.
Qed.

Section Conformance.
Context {A : Type} (comparefn : A -> A -> number) (P : A -> Prop).
Hypothesis Hcons : consistent comparefn P.

Lemma consistent_total (x y : A) :
  P x -> P y -> precedes comparefn x y \/ precedes comparefn y x.
Proof using Hcons.
  intros Px Py. unfold precedes.
  destruct (Z.le_gt_cases (SortCompare comparefn x y) 0) as [Hle|Hgt];
    [left; exact Hle|].
  right. apply (consistent_flip _ _ Hcons y x Py Px) in Hgt. lia.
Qed.

Lemma consistent_trans (x y z : A) :
  P x -> P y -> P z ->
  precedes comparefn x y -> precedes comparefn y z -> precedes comparefn x z.
Proof using Hcons.
  intros Px Py Pz Hxy Hyz. unfold precedes in *.
  destruct (Z.le_gt_cases (SortCompare comparefn x z) 0) as [Hle|Hgt];
    [exact Hle|exfalso].
  apply (consistent_flip _ _ Hcons z x Pz Px) in Hgt.
  destruct (Z.eq_dec (SortCompare comparefn x y) 0%Z) as [Exy|Nxy];
    destruct (Z.eq_dec (SortCompare comparefn y z) 0%Z) as [Eyz|Nyz].
  - pose proof (consistent_trans_eq _ _ Hcons x y z Px Py Pz Exy Eyz) as E.
    apply (consistent_sym _ _ Hcons x z Px Pz) in E. lia.
  - assert (SortCompare comparefn y x < 0)%Z as Hyx.
    { apply (consistent_trans_lt _ _ Hcons y z x); auto. lia. }
    apply (consistent_flip _ _ Hcons y x Py Px) in Hyx. lia.
  - assert (SortCompare comparefn z y < 0)%Z as Hzy.
    { apply (consistent_trans_lt _ _ Hcons z x y); auto. lia. }
    apply (consistent_flip _ _ Hcons z y Pz Py) in Hzy. lia.
  - assert (SortCompare comparefn x z < 0)%Z as Hxz.
    { apply (consistent_trans_lt _ _ Hcons x y z); auto; lia. }
    apply (consistent_flip _ _ Hcons x z Px Pz) in Hxz. lia.
Qed.

Lemma Forall_Array_sort (l : list A) :
  Forall P l -> Forall P (Array_sort comparefn l).
Proof.
  intros Hl. rewrite List.Forall_forall in *. intros z Hz. apply Hl.
  apply (Permutation_in _
           (Permutation_sym (Array_sort_Permutation comparefn l))), Hz.
Qed.

(** Insertion moves a value only past values of another rank. *)
Lemma sort_insert_stable (z x : A) (l : list A) :
  P z -> P x -> Forall P l ->
  List.filter (same_rank comparefn z) (sort_insert comparefn x l)
  = List.filter (same_rank comparefn z) (x :: l).
Proof using Hcons.
  intros Pz Px Pl. induction Pl as [|y l Py Pl IH]; [reflexivity|].
  cbn [sort_insert].
  destruct (Z.leb_spec (SortCompare comparefn x y) 0) as [Hle|Hgt];
    [reflexivity|].
  cbn [List.filter] in *. rewrite IH.
  destruct (same_rank comparefn z y) eqn:Ezy,
           (same_rank comparefn z x) eqn:Ezx; try reflexivity.
  exfalso. unfold same_rank in *. apply Z.eqb_eq in Ezy, Ezx.
  apply (consistent_sym _ _ Hcons z x Pz Px) in Ezx.
  pose proof (consistent_trans_eq _ _ Hcons x z y Px Pz Py Ezx Ezy). lia.
Qed.

Lemma Array_sort_stable (z : A) (l : list A) :
  P z -> Forall P l ->
  List.filter (same_rank comparefn z) (Array_sort comparefn l)
  = List.filter (same_rank comparefn z) l.
Proof using Hcons.
  intros Pz Pl. induction Pl as [|x l Px Pl IH]; [reflexivity|].
  cbn [Array_sort].
  rewrite sort_insert_stable by auto using Forall_Array_sort.
  cbn [List.filter]. rewrite IH. reflexivity.
Qed.

(** The model meets the requirement, *)
Lemma Array_sort_conforming (l : list A) :
  Forall P l -> conforming comparefn l (Array_sort comparefn l).
Proof using Hcons.
  intros Pl. split; [apply Array_sort_Permutation|]. split.
  - apply (Array_sort_sorted comparefn P);
      [exact consistent_total | exact consistent_trans | exact Pl].
  - intros x Hx. apply Array_sort_stable; [|exact Pl].
    rewrite List.Forall_forall in Pl. apply Pl, Hx.
Qed.

Lemma sorted_stable_unique (r1 r2 : list A) :
  Forall P r1 -> Forall P r2 ->
  StronglySorted (precedes comparefn) r1 ->
  StronglySorted (precedes comparefn) r2 ->
  (forall x, In x r1 \/ In x r2 ->
     List.filter (same_rank comparefn x) r1
     = List.filter (same_rank comparefn x) r2) ->
  r1 = r2.
Proof using Hcons.
  intros P1. revert r2.
  induction P1 as [|x1 t1 Px1 Pt1 IH]; intros r2 P2 S1 S2 Hf.
  - destruct P2 as [|x2 t2 Px2 _]; [reflexivity|exfalso].
    specialize (Hf x2 (or_intror (or_introl eq_refl))).
    cbn [List.filter] in Hf. unfold same_rank in Hf.
    rewrite (consistent_refl _ _ Hcons x2 Px2) in Hf. discriminate Hf.
  - destruct P2 as [|x2 t2 Px2 Pt2].
    { exfalso. specialize (Hf x1 (or_introl (or_introl eq_refl))).
      cbn [List.filter] in Hf. unfold same_rank in Hf.
      rewrite (consistent_refl _ _ Hcons x1 Px1) in Hf. discriminate Hf. }
    apply StronglySorted_inv in S1 as [S1 H1].
    apply StronglySorted_inv in S2 as [S2 H2].
    rewrite List.Forall_forall in H1, H2.
    assert (precedes comparefn x2 x1) as H21.
    { pose proof (Hf x1 (or_introl (or_introl eq_refl))) as E.
      assert (In x1 (List.filter (same_rank comparefn x1) (x2 :: t2))) as Hin.
      { rewrite <- E. cbn [List.filter]. unfold same_rank.
        rewrite (consistent_refl _ _ Hcons x1 Px1). left. reflexivity. }
      apply filter_In in Hin as [[<-|Hin] _].
      - unfold precedes. rewrite (consistent_refl _ _ Hcons x2 Px2). lia.
      - apply H2, Hin. }
    assert (precedes comparefn x1 x2) as H12.
    { pose proof (Hf x2 (or_intror (or_introl eq_refl))) as E.
      assert (In x2 (List.filter (same_rank comparefn x2) (x1 :: t1))) as Hin.
      { rewrite E. cbn [List.filter]. unfold same_rank.
        rewrite (consistent_refl _ _ Hcons x2 Px2). left. reflexivity. }
      apply filter_In in Hin as [[<-|Hin] _].
      - unfold precedes. rewrite (consistent_refl _ _ Hcons x1 Px1). lia.
      - apply H1, Hin. }
    assert (SortCompare comparefn x1 x2 = 0%Z) as E12.
    { unfold precedes in *.
      destruct (Z.eq_dec (SortCompare comparefn x1 x2) 0%Z) as [E|N]; [exact E|].
      assert (SortCompare comparefn x1 x2 < 0)%Z as Hlt by lia.
      apply (consistent_flip _ _ Hcons x1 x2 Px1 Px2) in Hlt. lia. }
    assert (x1 = x2) as ->.
    { pose proof (Hf x1 (or_introl (or_introl eq_refl))) as E.
      cbn [List.filter] in E. unfold same_rank in E.
      rewrite (consistent_refl _ _ Hcons x1 Px1), E12 in E.
      cbn in E. congruence. }
    f_equal. apply IH; auto.
    intros x Hx.
    assert (In x (x2 :: t1) \/ In x (x2 :: t2)) as Hx'
      by (destruct Hx; [left|right]; right; assumption).
    specialize (Hf x Hx'). cbn [List.filter] in Hf.
    destruct (same_rank comparefn x x2); congruence.
Qed.

(** and the requirement leaves no other result. *)
Lemma conforming_unique (l r : list A) :
  Forall P l -> conforming comparefn l r -> r = Array_sort comparefn l.
Proof using Hcons.
  intros Pl (Hperm & Hsorted & Hstable).
  destruct (Array_sort_conforming l Pl) as (Hperm' & Hsorted' & Hstable').
  assert (forall r', Permutation l r' -> Forall P r') as HP.
  { intros r' Hp. rewrite List.Forall_forall in *. intros z Hz.
    apply Pl, (Permutation_in _ (Permutation_sym Hp)), Hz. }
  apply sorted_stable_unique; auto.
  intros x Hx.
  assert (In x l) as Hl.
  { destruct Hx as [Hx|Hx];
      eapply Permutation_in; try exact Hx; apply Permutation_sym; assumption. }
  rewrite Hstable, Hstable' by exact Hl. reflexivity.
Qed.

End Conformance.

Section NoteSorting.
Context `{Host}.


Lemma by_date_precedes (a b : Note) :
  valid_date a -> valid_date b ->
  (precedes by_date a b <-> date_order a b).
Proof.
  intros [ta Ha] [tb Hb].
  unfold precedes, SortCompare, by_date, date_order, time_of.
  rewrite Ha, Hb. simpl. lia.
Qed.

Lemma by_status_precedes (a b : Note) :
  valid_date a -> valid_date b ->
  (precedes by_status a b <-> status_order a b).
Proof.
  intros [ta Ha] [tb Hb].
  unfold precedes, SortCompare, by_status, status_order, time_of.
  rewrite Ha, Hb.
  destruct (done a), (done b); simpl; split; intros Hc;
    try lia; try (right; split; [reflexivity|lia]);
    try (left; split; reflexivity);
    destruct Hc as [[? ?]|[? ?]]; try discriminate; lia.
Qed.

Lemma status_order_total (a b : Note) : status_order a b \/ status_order b a.
Proof.
  unfold status_order. destruct (done a), (done b);
    destruct (Z.le_ge_cases (time_of a) (time_of b)); auto.
Qed.

Lemma status_order_trans (a b c : Note) :
  status_order a b -> status_order b c -> status_order a c.
Proof.
  unfold status_order.
  intros [[Ha Hb]|[Hab Ht]] [[Hb' Hc]|[Hbc Ht']]; try congruence.
  - left. split; congruence.
  - left. split; congruence.
  - right. split; [congruence | lia].
Qed.

(** Positions in the result of a sort whose comparator agrees, on valid
    notes, with a total and transitive order. *)
Lemma Array_sort_positions (comparefn : Note -> Note -> number)
  (order : Note -> Note -> Prop) (notes : list Note) :
  (forall a b, valid_date a -> valid_date b ->
               (precedes comparefn a b <-> order a b)) ->
  (forall a b, order a b \/ order b a) ->
  (forall a b c, order a b -> order b c -> order a c) ->
  Forall valid_date notes ->
  forall i j a b, (i < j)%nat ->
    Array_sort comparefn notes !! i = Some a ->
    Array_sort comparefn notes !! j = Some b ->
    order a b.
Proof.
  intros Hagree Htotal Htrans Hv i j a b Hij Hi Hj.
  assert (forall z, In z (Array_sort comparefn notes) -> valid_date z) as Hv'.
  { rewrite List.Forall_forall in Hv. intros z Hz. apply Hv.
    apply (Permutation_in _
             (Permutation_sym (Array_sort_Permutation comparefn notes))), Hz. }
  assert (valid_date a) as Va.
  { apply Hv', list_elem_of_In. eapply list_elem_of_lookup_2, Hi. }
  assert (valid_date b) as Vb.
  { apply Hv', list_elem_of_In. eapply list_elem_of_lookup_2, Hj. }
  apply Hagree; [exact Va | exact Vb |].
  refine (StronglySorted_lookup (precedes comparefn) _ _ i j a b Hij Hi Hj).
  apply (Array_sort_sorted comparefn valid_date); [| |exact Hv].
  - intros x y Vx Vy. rewrite !Hagree by assumption. apply Htotal.
  - intros x y z Vx Vy Vz. rewrite !Hagree by assumption. apply Htrans.
Qed.

(** C10: whatever the criterion, the result holds the notes of the input,
    each as often as the input does, and so has the same length. *)
Theorem sortNotes_permutation (notes : list Note) (sortBy : jsstring) :
  Permutation notes (sortNotes notes sortBy) /\
  length (sortNotes notes sortBy) = length notes.
Proof.
  assert (Permutation notes (sortNotes notes sortBy)) as Hp.
  { unfold sortNotes. repeat case_decide; apply Array_sort_Permutation. }
  split; [exact Hp | symmetry; apply Permutation_length, Hp].
Qed.

(** C5: with [createdAt] values the host reads as dates, sorting by status
    puts no done note before an open one and, among notes of one status, no
    older note before a newer one; three notes open/T1, done/T2, open/T3
    with T3 after T1 come out as T3, T1, T2. *)
Theorem sortNotes_status_order (notes : list Note)
  (Hvalid : Forall valid_date notes) :
  (forall i j a b, (i < j)%nat ->
     sortNotes notes (js "status") !! i = Some a ->
     sortNotes notes (js "status") !! j = Some b ->
     (done a = true -> done b = true) /\
     (done a = done b -> (time_of b <= time_of a)%Z)) /\
  (forall n1 n2 n3, notes = [n1; n2; n3] ->
     done n1 = false -> done n2 = true -> done n3 = false ->
     (time_of n1 < time_of n3)%Z ->
     sortNotes notes (js "status") = [n3; n1; n2]).
Proof.
  split.
  - intros i j a b Hij Hi Hj.
    assert (status_order a b) as Ho.
    { unfold sortNotes in Hi, Hj.
      rewrite decide_False in Hi, Hj by (vm_compute; congruence).
      rewrite decide_True in Hi, Hj by reflexivity.
      eapply (Array_sort_positions by_status status_order notes);
        eauto using by_status_precedes, status_order_total, status_order_trans. }
    unfold status_order in Ho. split.
    + intros Ha. destruct Ho as [[? ?]|[? ?]]; congruence.
    + intros Hab. destruct Ho as [[? ?]|[? ?]]; [congruence | assumption].
  - intros n1 n2 n3 -> H1 H2 H3 Ht.
    apply Forall_cons in Hvalid as [[t1 V1] Hvalid].
    apply Forall_cons in Hvalid as [_ Hvalid].
    apply Forall_cons in Hvalid as [[t3 V3] _].
    unfold time_of in Ht. rewrite V1, V3 in Ht.
    unfold sortNotes.
    rewrite decide_False by (vm_compute; congruence).
    rewrite decide_True by reflexivity.
    assert (SortCompare by_status n2 n3 = 1%Z) as E23.
    { unfold SortCompare, by_status. rewrite H2, H3. reflexivity. }
    assert (SortCompare by_status n1 n3 = (t3 - t1)%Z) as E13.
    { unfold SortCompare, by_status. rewrite H1, H3, V1, V3. reflexivity. }
    assert (SortCompare by_status n1 n2 = (-1)%Z) as E12.
    { unfold SortCompare, by_status. rewrite H1, H2. reflexivity. }
    cbn [Array_sort sort_insert]. rewrite E23.
    change (1 <=? 0)%Z with false. cbn [sort_insert]. rewrite E13.
    destruct (Z.leb_spec (t3 - t1) 0); [lia|].
    rewrite E12. reflexivity.
Qed.


(** C7: a criterion that is neither "alphabetical" nor "status" sorts as
    "date" does, newer notes first when the dates are valid; a filter that is
    neither "open" nor "done" returns the input, as "all" does. *)
Theorem unrecognized_criteria_default (notes : list Note)
  (sortBy filter : jsstring)
  (Hs1 : sortBy <> js "alphabetical") (Hs2 : sortBy <> js "status")
  (Hf1 : filter <> js "open") (Hf2 : filter <> js "done") :
  sortNotes notes sortBy = sortNotes notes (js "date") /\
  (Forall valid_date notes ->
   forall i j a b, (i < j)%nat ->
     sortNotes notes sortBy !! i = Some a ->
     sortNotes notes sortBy !! j = Some b ->
     (time_of b <= time_of a)%Z) /\
  filterNotesByStatus notes filter = filterNotesByStatus notes (js "all") /\
  filterNotesByStatus notes filter = notes.
Proof.
  assert (sortNotes notes sortBy = Array_sort by_date notes) as Hsort.
  { unfold sortNotes. rewrite !decide_False by assumption. reflexivity. }
  assert (filterNotesByStatus notes filter = notes) as Hfilter.
  { unfold filterNotesByStatus. rewrite !decide_False by assumption.
    reflexivity. }
  split; [rewrite Hsort; reflexivity|].
  split.
  - intros Hv i j a b Hij. rewrite Hsort. intros Hi Hj.
    eapply (Array_sort_positions by_date date_order notes); eauto.
    + apply by_date_precedes.
    + intros x y. unfold date_order. lia.
    + intros x y z. unfold date_order. lia.
  - split; [|exact Hfilter]. rewrite Hfilter. reflexivity.
Qed.


End NoteSorting.

Section EngineIndependence.
Context `{Host}.

Lemma by_status_consistent : consistent by_status valid_date.
Proof.
  assert (forall a b, valid_date a -> valid_date b ->
            SortCompare by_status a b
            = if Bool.eqb (done a) (done b) then (time_of b - time_of a)%Z
              else if done a then 1%Z else (-1)%Z) as Hcmp.
  { intros a b [ta Ha] [tb Hb]. unfold SortCompare, by_status, time_of.
    rewrite Ha, Hb. destruct (Bool.eqb (done a) (done b)); [reflexivity|].
    destruct (done a); reflexivity. }
  split.
  - intros a Va. rewrite Hcmp by assumption.
    rewrite Bool.eqb_reflx. lia.
  - intros a b Va Vb. rewrite !Hcmp by assumption.
    destruct (done a), (done b); simpl; lia.
  - intros a b Va Vb. rewrite !Hcmp by assumption.
    destruct (done a), (done b); simpl; lia.
  - intros a b c Va Vb Vc. rewrite !Hcmp by assumption.
    destruct (done a), (done b), (done c); simpl; lia.
  - intros a b c Va Vb Vc. rewrite !Hcmp by assumption.
    destruct (done a), (done b), (done c); simpl; lia.
Qed.

(** Any engine that meets the requirement returns, for notes with valid
    dates, what [sortNotes] returns. *)
Lemma sortNotes_status_any_engine (notes result : list Note) :
  Forall valid_date notes ->
  conforming by_status notes result ->
  result = sortNotes notes (js "status").
Proof.
  intros Hv Hc. unfold sortNotes.
  rewrite decide_False by (vm_compute; congruence).
  rewrite decide_True by reflexivity.
  apply (conforming_unique by_status valid_date by_status_consistent);
    assumption.
Qed.

Lemma by_date_consistent : consistent by_date valid_date.
Proof.
  assert (forall a b, valid_date a -> valid_date b ->
            SortCompare by_date a b = (time_of b - time_of a)%Z) as Hcmp.
  { intros a b [ta Ha] [tb Hb]. unfold SortCompare, by_date, time_of.
    rewrite Ha, Hb. reflexivity. }
  split.
  - intros a Va. rewrite Hcmp by assumption. lia.
  - intros a b Va Vb. rewrite !Hcmp by assumption. lia.
  - intros a b Va Vb. rewrite !Hcmp by assumption. lia.
  - intros a b c Va Vb Vc. rewrite !Hcmp by assumption. lia.
  - intros a b c Va Vb Vc. rewrite !Hcmp by assumption. lia.
Qed.

Lemma sortNotes_date_any_engine (notes result : list Note) :
  Forall valid_date notes ->
  conforming by_date notes result ->
  result = sortNotes notes (js "date").
Proof.
  intros Hv Hc. unfold sortNotes.
  rewrite !decide_False by (vm_compute; congruence).
  apply (conforming_unique by_date valid_date by_date_consistent);
    assumption.
Qed.

End EngineIndependence.

Lemma sortNotes_status_order_witness :
  Forall (@valid_date ExampleHost) sampleNotes /\
  @sortNotes ExampleHost sampleNotes (js "status")
  = [ mkNote (js "3") (js "Finish project") false (js "2023-01-01T12:00:00.000Z");
      mkNote (js "1") (js "Buy groceries") false (js "2023-01-01T10:00:00.000Z");
      mkNote (js "2") (js "Walk the dog") true (js "2023-01-01T11:00:00.000Z") ].
Proof.
  assert (Forall (@valid_date ExampleHost) sampleNotes) as Hv.
  { repeat constructor; eexists; vm_compute; reflexivity. }
  split; [exact Hv|].
  apply (proj2 (@sortNotes_status_order ExampleHost sampleNotes Hv));
    [reflexivity | reflexivity | reflexivity | reflexivity | vm_compute; reflexivity].
Defined.

Lemma unrecognized_criteria_default_witness :
  @sortNotes ExampleHost sampleNotes (js "priority")
  = @sortNotes ExampleHost sampleNotes (js "date") /\
  filterNotesByStatus sampleNotes (js "archived") = sampleNotes.
Proof.
  destruct (@unrecognized_criteria_default ExampleHost sampleNotes
              (js "priority") (js "archived"))
    as (Hs & _ & _ & Hf); try (vm_compute; congruence).
  split; [exact Hs | exact Hf].
Defined.

(** ** JSON: reading back what was written *)


Lemma run_app (p : parser) (s1 s2 : jsstring) :
  run p (s1 ++ s2) = and_then (run p s1) (fun p' => run p' s2).
Proof.
  revert p. induction s1 as [|c s1 IH]; intros p; simpl; [reflexivity|].
  destruct (step p c); [apply IH | reflexivity].
Qed.

Lemma hex_value_hex_digit (d : N) :
  (d < 16)%N -> hex_value (hex_digit d) = Some d.
Proof.
  intros Hd. unfold hex_digit, hex_value.
  destruct (N.ltb_spec d 10).
  - replace ((48 <=? 48 + d) && (48 + d <=? 57))%N with true
      by (symmetry; apply andb_true_iff; split; apply N.leb_le; lia).
    f_equal. lia.
  - replace ((48 <=? 87 + d) && (87 + d <=? 57))%N with false
      by (symmetry; apply andb_false_iff; right; apply N.leb_gt; lia).
    replace ((97 <=? 87 + d) && (87 + d <=? 102))%N with true
      by (symmetry; apply andb_true_iff; split; apply N.leb_le; lia).
    f_equal. lia.
Qed.

Lemma run_hex4 (k : bool) (acc : jsstring) (stack : list frame)
  (result : option json) (d3 d2 d1 d0 : N) :
  (d3 < 16)%N -> (d2 < 16)%N -> (d1 < 16)%N -> (d0 < 16)%N ->
  run (mkParser (MUnicode k acc 0 0%N) stack result)
    [hex_digit d3; hex_digit d2; hex_digit d1; hex_digit d0]
  = Some (mkParser (MString k ((((d3 * 16 + d2) * 16 + d1) * 16 + d0)%N :: acc))
            stack result).
Proof.
  intros H3 H2 H1 H0.
  cbn [run step p_mode p_stack p_result].
  rewrite (hex_value_hex_digit d3 H3). cbn [Nat.eqb].
  cbn [run step p_mode p_stack p_result].
  rewrite (hex_value_hex_digit d2 H2). cbn [Nat.eqb].
  cbn [run step p_mode p_stack p_result].
  rewrite (hex_value_hex_digit d1 H1). cbn [Nat.eqb].
  cbn [run step p_mode p_stack p_result].
  rewrite (hex_value_hex_digit d0 H0). cbn [Nat.eqb].
  rewrite N.mul_0_l, N.add_0_l. reflexivity.
Qed.

Lemma hex4_value (c : N) :
  (c < 65536)%N ->
  ((((c / 4096 mod 16) * 16 + c / 256 mod 16) * 16 + c / 16 mod 16) * 16
   + c mod 16)%N = c.
Proof.
  intros Hc.
  replace (c / 4096)%N with (c / 16 / 16 / 16)%N by (rewrite !N.Div0.div_div; reflexivity).
  replace (c / 256)%N with (c / 16 / 16)%N by (rewrite !N.Div0.div_div; reflexivity).
  pose proof (N.div_mod' c 16) as E0.
  pose proof (N.div_mod' (c / 16) 16) as E1.
  pose proof (N.div_mod' (c / 16 / 16) 16) as E2.
  pose proof (N.div_mod' (c / 16 / 16 / 16) 16) as E3.
  assert (c / 16 / 16 / 16 / 16 = 0)%N as Z4.
  { rewrite !N.Div0.div_div. apply N.div_small. exact Hc. }
  rewrite Z4 in E3. lia.
Qed.

Lemma run_unicode_escape (k : bool) (acc : jsstring) (stack : list frame)
  (result : option json) (c : N) :
  (c < 65536)%N ->
  run (mkParser (MString k acc) stack result) (unicode_escape c)
  = Some (mkParser (MString k (c :: acc)) stack result).
Proof.
  intros Hc. unfold unicode_escape.
  change (run ?p (92%N :: 117%N :: ?r))
    with (run (mkParser (MUnicode k acc 0 0%N) stack result) r).
  rewrite run_hex4 by (apply N.mod_lt; discriminate).
  rewrite (hex4_value c Hc). reflexivity.
Qed.

Lemma run_plain_unit (k : bool) (acc : jsstring) (stack : list frame)
  (result : option json) (c : N) :
  (c =? 34)%N = false -> (c =? 92)%N = false -> (c <? 32)%N = false ->
  step (mkParser (MString k acc) stack result) c
  = Some (mkParser (MString k (c :: acc)) stack result).
Proof.
  intros H1 H2 H3. cbn [step p_mode p_stack p_result].
  rewrite H1, H2, H3. reflexivity.
Qed.

Lemma run_quote_unit (k : bool) (acc : jsstring) (stack : list frame)
  (result : option json) (c : N) :
  run (mkParser (MString k acc) stack result) (quote_unit c)
  = Some (mkParser (MString k (c :: acc)) stack result).
Proof.
  unfold quote_unit.
  repeat match goal with
         | |- context [if (c =? ?n)%N then _ else _] =>
             destruct (N.eqb_spec c n); [subst c; reflexivity|]
         end.
  destruct (N.ltb_spec c 32); [apply run_unicode_escape; lia|].
  destruct (is_high_surrogate c || is_low_surrogate c) eqn:Hs.
  - apply run_unicode_escape.
    unfold is_high_surrogate, is_low_surrogate in Hs.
    apply orb_true_iff in Hs as [Hs|Hs];
      apply andb_true_iff in Hs as [_ Hs]; apply N.leb_le in Hs; lia.
  - cbn [run]. rewrite run_plain_unit; [reflexivity | | |].
    + apply N.eqb_neq. assumption.
    + apply N.eqb_neq. assumption.
    + apply N.ltb_ge. assumption.
Qed.

Lemma quote_units_cons2 (c d : N) (r : jsstring) :
  quote_units (c :: d :: r)
  = if is_high_surrogate c && is_low_surrogate d
    then c :: d :: quote_units r
    else quote_unit c ++ quote_units (d :: r).
Proof. reflexivity. Qed.

Lemma run_quote_units (k : bool) (stack : list frame) (result : option json)
  (s : jsstring) :
  forall acc,
    run (mkParser (MString k acc) stack result) (quote_units s)
    = Some (mkParser (MString k (rev s ++ acc)) stack result).
Proof.
  assert (forall n s, (length s <= n)%nat -> forall acc,
            run (mkParser (MString k acc) stack result) (quote_units s)
            = Some (mkParser (MString k (rev s ++ acc)) stack result)) as Hn.
  { clear s. induction n as [|n IH]; intros s Hlen acc.
    - destruct s; [reflexivity | simpl in Hlen; lia].
    - destruct s as [|c [|d r]]; [reflexivity | apply run_quote_unit |].
      rewrite quote_units_cons2.
      destruct (is_high_surrogate c && is_low_surrogate d) eqn:Hpair.
      + apply andb_true_iff in Hpair as [Hc Hd].
        unfold is_high_surrogate in Hc. unfold is_low_surrogate in Hd.
        apply andb_true_iff in Hc as [Hc _]. apply N.leb_le in Hc.
        apply andb_true_iff in Hd as [Hd _]. apply N.leb_le in Hd.
        cbn [run].
        rewrite run_plain_unit
          by first [apply N.eqb_neq; lia | apply N.ltb_ge; lia].
        rewrite run_plain_unit
          by first [apply N.eqb_neq; lia | apply N.ltb_ge; lia].
        rewrite IH by (simpl in Hlen |- *; lia).
        cbn [rev]. rewrite <- !app_assoc. reflexivity.
      + rewrite run_app, run_quote_unit. cbn [and_then].
        rewrite IH by (simpl in Hlen |- *; lia).
        cbn [rev]. rewrite <- !app_assoc. reflexivity. }
  apply (Hn (length s)). lia.
Qed.

Lemma run_string_literal (k : bool) (stack : list frame)
  (result : option json) (s rest : jsstring) :
  run (mkParser (MString k []) stack result) (quote_units s ++ 34%N :: rest)
  = and_then (end_string k s stack result) (fun p => run p rest).
Proof.
  rewrite run_app, run_quote_units. cbn [and_then run].
  cbn [step p_mode p_stack p_result]. rewrite N.eqb_refl.
  rewrite app_nil_r, rev_involutive.
  destruct (end_string k s stack result); reflexivity.
Qed.

Lemma run_QuoteJSONString (k : bool) (m : mode) (stack : list frame)
  (result : option json) (s rest : jsstring) :
  step (mkParser m stack result) 34%N
  = Some (mkParser (MString k []) stack result) ->
  run (mkParser m stack result) (QuoteJSONString s ++ rest)
  = and_then (end_string k s stack result) (fun p => run p rest).
Proof.
  intros Hopen. unfold QuoteJSONString.
  rewrite <- app_comm_cons, <- app_assoc. cbn [run app]. rewrite Hopen.
  apply run_string_literal.
Qed.

(** The pieces of an object, one lemma each. *)
Lemma run_open_object (m : mode) (stack : list frame) (result : option json)
  (rest : jsstring) :
  m = MValue \/ m = MArrayStart ->
  run (mkParser m stack result) (js "{" ++ rest)
  = run (mkParser MObjectStart (FObject [] None :: stack) result) rest.
Proof. intros [-> | ->]; reflexivity. Qed.

Lemma run_key (m : mode) (ps : list (jsstring * json)) (up : list frame)
  (result : option json) (key rest : jsstring) :
  m = MObjectStart \/ m = MKey ->
  run (mkParser m (FObject ps None :: up) result)
    (QuoteJSONString key ++ js ":" ++ rest)
  = run (mkParser MValue (FObject ps (Some key) :: up) result) rest.
Proof.
  intros Hm. rewrite (run_QuoteJSONString true).
  - reflexivity.
  - destruct Hm as [-> | ->]; reflexivity.
Qed.

Lemma run_string_value (ps : list (jsstring * json)) (key : jsstring)
  (up : list frame) (result : option json) (s rest : jsstring) :
  run (mkParser MValue (FObject ps (Some key) :: up) result)
    (QuoteJSONString s ++ rest)
  = run (mkParser MAfter
           (FObject (set_property ps key (JString s)) None :: up) result) rest.
Proof. rewrite (run_QuoteJSONString false); reflexivity. Qed.

Lemma run_bool_value (ps : list (jsstring * json)) (key : jsstring)
  (up : list frame) (result : option json) (b : bool) (rest : jsstring) :
  run (mkParser MValue (FObject ps (Some key) :: up) result)
    (stringify_bool b ++ rest)
  = run (mkParser MAfter
           (FObject (set_property ps key (JBool b)) None :: up) result) rest.
Proof. destruct b; reflexivity. Qed.

Lemma run_next_property (ps : list (jsstring * json)) (up : list frame)
  (result : option json) (rest : jsstring) :
  run (mkParser MAfter (FObject ps None :: up) result) (js "," ++ rest)
  = run (mkParser MKey (FObject ps None :: up) result) rest.
Proof. reflexivity. Qed.

Lemma run_close_object (ps : list (jsstring * json)) (es : list json)
  (up : list frame) (result : option json) (rest : jsstring) :
  run (mkParser MAfter (FObject ps None :: FArray es :: up) result)
    (js "}" ++ rest)
  = run (mkParser MAfter (FArray (JObject ps :: es) :: up) result) rest.
Proof. reflexivity. Qed.

(** One note, read as an element of the array being filled. *)
Lemma run_stringify_note (m : mode) (es : list json) (up : list frame)
  (result : option json) (n : Note) (rest : jsstring) :
  m = MValue \/ m = MArrayStart ->
  run (mkParser m (FArray es :: up) result) (stringify_note n ++ rest)
  = run (mkParser MAfter (FArray (json_of_note n :: es) :: up) result) rest.
Proof.
  intros Hm. unfold stringify_note. repeat rewrite <- app_assoc.
  rewrite (run_open_object m) by exact Hm.
  rewrite run_key by (left; reflexivity).
  rewrite run_string_value, run_next_property.
  rewrite run_key by (right; reflexivity).
  rewrite run_string_value, run_next_property.
  rewrite run_key by (right; reflexivity).
  rewrite run_bool_value, run_next_property.
  rewrite run_key by (right; reflexivity).
  rewrite run_string_value, run_close_object.
  reflexivity.
Qed.

Lemma run_stringify_elements (ns : list Note) :
  ns <> [] ->
  forall (m : mode) (es : list json) (up : list frame)
         (result : option json) (rest : jsstring),
    m = MValue \/ m = MArrayStart ->
    run (mkParser m (FArray es :: up) result) (stringify_elements ns ++ rest)
    = run (mkParser MAfter
             (FArray (rev (List.map json_of_note ns) ++ es) :: up) result)
        rest.
Proof.
  induction ns as [|n ns IH]; [congruence|]. intros _ m es up result rest Hm.
  destruct ns as [|n' ns].
  - cbn [stringify_elements]. rewrite run_stringify_note by exact Hm.
    reflexivity.
  - change (stringify_elements (n :: n' :: ns))
      with (stringify_note n ++ js "," ++ stringify_elements (n' :: ns)).
    repeat rewrite <- app_assoc. rewrite run_stringify_note by exact Hm.
    change (run ?p (js "," ++ ?r))
      with (run (mkParser MValue (FArray (json_of_note n :: es) :: up) result) r).
    rewrite IH by (congruence || (left; reflexivity)).
    cbn [List.map rev]. rewrite <- !app_assoc. reflexivity.
Qed.

(** What [JSON.stringify] writes for an array of notes, [JSON.parse] reads
    back as that array. *)
Lemma JSON_parse_stringify_notes (ns : list Note) :
  JSON_parse (JSON_stringify_notes ns) = Some (json_of_notes ns).
Proof.
  destruct ns as [|n ns]; [reflexivity|].
  unfold JSON_parse, JSON_stringify_notes.
  change (run ?p (js "[" ++ ?r))
    with (run (mkParser MArrayStart [FArray []] None) r).
  rewrite <- (app_nil_r (js "]")).
  rewrite run_stringify_elements by (congruence || (right; reflexivity)).
  rewrite app_nil_r.
  change (run ?p (js "]" ++ []))
    with (Some (mkParser MAfter []
                  (Some (JArray (rev (rev (List.map json_of_note (n :: ns)))))))).
  cbn [finish p_mode p_stack p_result]. rewrite rev_involutive. reflexivity.
Qed.

Lemma JSON_stringify_notes_truthy (ns : list Note) :
  JsString.truthy (JSON_stringify_notes ns) = true.
Proof. reflexivity. Qed.

Lemma note_of_json_of_note (n : Note) : note_of_json (json_of_note n) = Some n.
Proof. destruct n. reflexivity. Qed.

Lemma notes_of_json_of_notes (ns : list Note) :
  notes_of_json (json_of_notes ns) = Some ns.
Proof.
  unfold json_of_notes, notes_of_json.
  induction ns as [|n ns IH]; [reflexivity|].
  cbn [List.map notes_of_elements]. rewrite note_of_json_of_note, IH.
  reflexivity.
Qed.

(** ** The repository *)

Section RepositoryFacts.
Context {S : Type} `{LocalStorage S}.


Lemma loadNotes_unfold (w : World S) :
  loadNotes w =
  match getItem STORAGE_KEY (storage w) with
  | (Throw e, s') =>
      (Normal (JArray []), mkWorld s' (console w ++ [load_warning e]))
  | (Normal None, s') => (Normal (JArray []), mkWorld s' (console w))
  | (Normal (Some payload), s') =>
      if JsString.truthy payload then
        match JSON_parse payload with
        | Some v => (Normal v, mkWorld s' (console w))
        | None =>
            (Normal (JArray []),
             mkWorld s' (console w ++ [load_warning SyntaxError]))
        end
      else (Normal (JArray []), mkWorld s' (console w))
  end.
Proof.
  unfold loadNotes, try_catch, bind, on_storage.
  destruct (getItem STORAGE_KEY (storage w)) as [[[payload|]|e] s'];
    try reflexivity.
  destruct (JsString.truthy payload); [|reflexivity].
  unfold JSON_parse_M. destruct (JSON_parse payload); reflexivity.
Qed.

Lemma saveNotes_unfold (notes : list Note) (w : World S) :
  saveNotes notes w =
  match setItem STORAGE_KEY (JSON_stringify_notes notes) (storage w) with
  | (Normal _, s') => (Normal tt, mkWorld s' (console w))
  | (Throw e, s') => (Normal tt, mkWorld s' (console w ++ [save_error e]))
  end.
Proof.
  unfold saveNotes, try_catch, on_storage.
  destruct (setItem _ _ _) as [[[]|e] s']; reflexivity.
Qed.

Lemma clearNotes_unfold (w : World S) :
  clearNotes w =
  match removeItem STORAGE_KEY (storage w) with
  | (Normal _, s') => (Normal tt, mkWorld s' (console w))
  | (Throw e, s') => (Normal tt, mkWorld s' (console w ++ [clear_error e]))
  end.
Proof.
  unfold clearNotes, try_catch, on_storage.
  destruct (removeItem _ _) as [[[]|e] s']; reflexivity.
Qed.

(** What [loadNotes] does, case by case.  It always completes normally;
    it returns the empty array when the key is absent or holds the empty
    string, when the text is not JSON, or when the store throws, with a
    warning in the last two cases; any other text it hands to [JSON.parse]
    and returns the outcome as it is. *)
Lemma loadNotes_cases (w : World S) :
  (exists v w', loadNotes w = (Normal v, w')) /\
  (forall e s', getItem STORAGE_KEY (storage w) = (Throw e, s') ->
     loadNotes w
     = (Normal (JArray []), mkWorld s' (console w ++ [load_warning e]))) /\
  (forall s', getItem STORAGE_KEY (storage w) = (Normal None, s') ->
     loadNotes w = (Normal (JArray []), mkWorld s' (console w))) /\
  (forall s', getItem STORAGE_KEY (storage w) = (Normal (Some []), s') ->
     loadNotes w = (Normal (JArray []), mkWorld s' (console w))) /\
  (forall payload s',
     getItem STORAGE_KEY (storage w) = (Normal (Some payload), s') ->
     payload <> [] -> JSON_parse payload = None ->
     loadNotes w
     = (Normal (JArray []),
        mkWorld s' (console w ++ [load_warning SyntaxError]))) /\
  (forall payload s' v,
     getItem STORAGE_KEY (storage w) = (Normal (Some payload), s') ->
     payload <> [] -> JSON_parse payload = Some v ->
     loadNotes w = (Normal v, mkWorld s' (console w))) /\
  (forall notes s',
     getItem STORAGE_KEY (storage w)
     = (Normal (Some (JSON_stringify_notes notes)), s') ->
     loadNotes w = (Normal (json_of_notes notes), mkWorld s' (console w))).
Proof.
  rewrite loadNotes_unfold. repeat split.
  - destruct (getItem STORAGE_KEY (storage w)) as [[[payload|]|e] s'];
      eauto.
    destruct (JsString.truthy payload); eauto.
    destruct (JSON_parse payload); eauto.
  - intros e s' ->. reflexivity.
  - intros s' ->. reflexivity.
  - intros s' ->. reflexivity.
  - intros payload s' -> Hne Hparse. rewrite Hparse.
    destruct payload; [contradiction | reflexivity].
  - intros payload s' v -> Hne Hparse. rewrite Hparse.
    destruct payload; [contradiction | reflexivity].
  - intros notes s' ->.
    rewrite JSON_stringify_notes_truthy, JSON_parse_stringify_notes.
    reflexivity.
Qed.

(** C1: [loadNotes] returns what [JSON.parse] gives without looking at
    it.  With the text [null] under the key it returns [null] and logs
    nothing: no array, where the claim, and the function's own
    documentation ("Array of notes, empty array if no notes or parsing
    fails"), have the empty array and a warning. *)
Theorem loadNotes_null_payload (w : World S) (s' : S)
  (Hstored :
     getItem STORAGE_KEY (storage w) = (Normal (Some (js "null")), s')) :
  loadNotes w = (Normal JNull, mkWorld s' (console w)) /\
  (forall items, JNull <> JArray items) /\
  notes_of_json JNull = None.
Proof.
  split; [|split; [discriminate | reflexivity]].
  rewrite loadNotes_unfold, Hstored. reflexivity.
Qed.

(** C8: [saveNotes] and [clearNotes] always complete normally; when the
    store throws, the error is logged at error severity and the store is
    left as the failed call left it. *)
Theorem save_clear_never_throw (notes : list Note) (w : World S) :
  (exists w', saveNotes notes w = (Normal tt, w')) /\
  (exists w', clearNotes w = (Normal tt, w')) /\
  (forall e s',
     setItem STORAGE_KEY (JSON_stringify_notes notes) (storage w)
     = (Throw e, s') ->
     saveNotes notes w
     = (Normal tt, mkWorld s' (console w ++ [save_error e]))) /\
  (forall e s', removeItem STORAGE_KEY (storage w) = (Throw e, s') ->
     clearNotes w = (Normal tt, mkWorld s' (console w ++ [clear_error e]))) /\
  (forall e, level (save_error e) = Error /\ level (clear_error e) = Error /\
             level (load_warning e) = Warn).
Proof.
  rewrite saveNotes_unfold, clearNotes_unfold. repeat split.
  - destruct (setItem _ _ _) as [[[]|e] s']; eauto.
  - destruct (removeItem _ _) as [[[]|e] s']; eauto.
  - intros e s' ->. reflexivity.
  - intros e s' ->. reflexivity.
Qed.

(** C6: on a store that accepts the write and returns it on the next read,
    [loadNotes] right after [saveNotes ns] returns the array of [ns], read
    back as notes it is [ns], and nothing is logged. *)
Theorem save_load_roundtrip (notes : list Note) (w : World S)
  (Hhealthy : healthy (storage w) STORAGE_KEY (JSON_stringify_notes notes)) :
  exists w1 w2,
    saveNotes notes w = (Normal tt, w1) /\
    loadNotes w1 = (Normal (json_of_notes notes), w2) /\
    notes_of_json (json_of_notes notes) = Some notes /\
    console w2 = console w.
Proof.
  destruct Hhealthy as (s1 & s2 & Hset & Hget).
  exists (mkWorld s1 (console w)), (mkWorld s2 (console w)).
  split; [rewrite saveNotes_unfold, Hset; reflexivity|].
  split; [|split; [apply notes_of_json_of_notes | reflexivity]].
  rewrite loadNotes_unfold. cbn [storage console]. rewrite Hget.
  rewrite JSON_stringify_notes_truthy, JSON_parse_stringify_notes.
  reflexivity.
Qed.

End RepositoryFacts.


(** The browser store is left as it was by a method that throws. *)
Lemma browser_throw_unchanged (k v : jsstring) (s s' : BrowserStorage)
  (e : jserror) :
  (getItem k s = (Throw e, s') -> s' = s) /\
  (setItem k v s = (Throw e, s') -> s' = s) /\
  (removeItem k s = (Throw e, s') -> s' = s).
Proof.
  cbn [getItem setItem removeItem BrowserStorage_LocalStorage].
  unfold browser_getItem, browser_setItem, browser_removeItem.
  repeat split; intros Hthrow;
    repeat match type of Hthrow with
           | context [if ?b then _ else _] => destruct b
           end;
    congruence.
Qed.

Example test_loadNotes_invalid_json :
  loadNotes (example_world (Some (js "invalid json")) 1000)
  = (Normal (JArray []),
     mkWorld (storage (example_world (Some (js "invalid json")) 1000))
       [load_warning SyntaxError]).
Proof.
  destruct (loadNotes_cases (example_world (Some (js "invalid json")) 1000))
    as (_ & _ & _ & _ & Hbad & _).
  apply (Hbad (js "invalid json")).
  - reflexivity.
  - discriminate.
  - reflexivity.
Qed.

Lemma loadNotes_null_payload_witness :
  loadNotes (example_world (Some (js "null")) 1000)
  = (Normal JNull, example_world (Some (js "null")) 1000).
Proof.
  refine (proj1 (loadNotes_null_payload
                   (example_world (Some (js "null")) 1000) _ _)).
  reflexivity.
Defined.

Lemma save_clear_never_throw_witness :
  saveNotes sampleNotes (example_world None 10)
  = (Normal tt,
     mkWorld (storage (example_world None 10))
       [save_error (DOMException "QuotaExceededError")]).
Proof.
  destruct (save_clear_never_throw sampleNotes (example_world None 10))
    as (_ & _ & Hsave & _).
  apply Hsave. reflexivity.
Defined.

Lemma save_load_roundtrip_witness :
  exists w1 w2,
    saveNotes sampleNotes (example_world None 1000) = (Normal tt, w1) /\
    loadNotes w1 = (Normal (json_of_notes sampleNotes), w2) /\
    notes_of_json (json_of_notes sampleNotes) = Some sampleNotes /\
    console w2 = [].
Proof.
  apply (save_load_roundtrip sampleNotes (example_world None 1000)).
  eexists _, _. split; vm_compute; reflexivity.
Defined.

(** ** Creating *)


Lemma all_from_spec (count : nat) (from : Z) (f : Z -> bool) :
  all_from count from f = true ->
  forall z, (from <= z < from + Z.of_nat count)%Z -> f z = true.
Proof.
  revert from. induction count as [|n IH]; intros from Hall z Hz; [lia|].
  cbn [all_from] in Hall. apply andb_true_iff in Hall as [Hhere Hrest].
  destruct (Z.eq_dec z from) as [->|Hne]; [exact Hhere|].
  apply (IH (from + 1)%Z Hrest). lia.
Qed.

Lemma civil_ok_first_era :
  all_from (Z.to_nat 146097) (-719468) civil_ok = true.
Proof. vm_compute. reflexivity. Qed.

Lemma civil_from_days_shift (z e : Z) :
  civil_from_days (z + e * 146097)
  = let '(y, m, d) := civil_from_days z in ((y + 400 * e)%Z, m, d).
Proof.
  unfold civil_from_days. cbv zeta.
  replace (z + e * 146097 + 719468)%Z with (z + 719468 + e * 146097)%Z by lia.
  rewrite Z.div_add by lia.
  replace (z + 719468 + e * 146097 - ((z + 719468) / 146097 + e) * 146097)%Z
    with (z + 719468 - (z + 719468) / 146097 * 146097)%Z by lia.
  set (doe := (z + 719468 - (z + 719468) / 146097 * 146097)%Z).
  set (yoe := ((doe - doe / 1460 + doe / 36524 - doe / 146096) / 365)%Z).
  set (doy := (doe - (365 * yoe + yoe / 4 - yoe / 100))%Z).
  set (mp := ((5 * doy + 2) / 153)%Z).
  destruct (mp <? 10)%Z;
    match goal with |- context [(?m <=? 2)%Z] => destruct (m <=? 2)%Z end.
  all: f_equal; f_equal; ring.
Qed.

Lemma days_from_civil_shift (y m d e : Z) :
  days_from_civil (y + 400 * e) m d = (days_from_civil y m d + e * 146097)%Z.
Proof.
  unfold days_from_civil. cbv zeta.
  destruct (m <=? 2)%Z.
  - replace (y + 400 * e - 1)%Z with (y - 1 + e * 400)%Z by lia.
    rewrite Z.div_add by lia.
    replace (y - 1 + e * 400 - ((y - 1) / 400 + e) * 400)%Z
      with (y - 1 - (y - 1) / 400 * 400)%Z by ring.
    ring.
  - replace (y + 400 * e)%Z with (y + e * 400)%Z by lia.
    rewrite Z.div_add by lia.
    replace (y + e * 400 - (y / 400 + e) * 400)%Z
      with (y - y / 400 * 400)%Z by ring.
    ring.
Qed.

Lemma civil_ok_all (z : Z) : civil_ok z = true.
Proof.
  set (e := ((z + 719468) / 146097)%Z).
  set (z0 := (z - e * 146097)%Z).
  assert (civil_ok z0 = true) as H0.
  { apply (all_from_spec _ _ _ civil_ok_first_era).
    rewrite Z2Nat.id by lia. subst z0 e.
    pose proof (Z.div_mod (z + 719468) 146097 ltac:(lia)) as Hdm.
    pose proof (Z.mod_pos_bound (z + 719468) 146097 ltac:(lia)) as Hb.
    lia. }
  replace z with (z0 + e * 146097)%Z by (subst z0; lia).
  unfold civil_ok in *. rewrite civil_from_days_shift.
  destruct (civil_from_days z0) as [[y m] d].
  rewrite days_from_civil_shift.
  bool_to_prop.
  repeat rewrite andb_true_iff in *.
  rewrite ?Z.eqb_eq, ?Z.leb_le in *. lia.
Qed.


Lemma pad_2 (n : Z) : pad 2 n = [digit (n / 10); digit n].
Proof. reflexivity. Qed.

Lemma pad_3 (n : Z) : pad 3 n = [digit (n / 10 / 10); digit (n / 10); digit n].
Proof. reflexivity. Qed.

Lemma pad_4 (n : Z) :
  pad 4 n = [digit (n / 10 / 10 / 10); digit (n / 10 / 10); digit (n / 10);
             digit n].
Proof. reflexivity. Qed.

Lemma decimal_acc_digit (acc k : Z) (rest : jsstring) :
  decimal_acc acc (digit k :: rest) = decimal_acc (acc * 10 + k mod 10) rest.
Proof.
  pose proof (Z.mod_pos_bound k 10 ltac:(lia)) as Hk.
  cbn [decimal_acc]. unfold is_digit, digit.
  replace ((48 <=? 48 + Z.to_N (k mod 10)) && (48 + Z.to_N (k mod 10) <=? 57))%N
    with true by (symmetry; apply andb_true_iff; split; apply N.leb_le; lia).
  f_equal. lia.
Qed.

Lemma digits_2 (n : Z) :
  (0 <= n < 100)%Z -> ((0 * 10 + n / 10 mod 10) * 10 + n mod 10)%Z = n.
Proof.
  intros Hn. rewrite (Z.mod_small (n / 10) 10).
  - pose proof (Z.div_mod n 10 ltac:(lia)). lia.
  - split; [apply Z.div_pos; lia | apply Z.div_lt_upper_bound; lia].
Qed.

Lemma digits_3 (n : Z) :
  (0 <= n < 1000)%Z ->
  (((0 * 10 + n / 10 / 10 mod 10) * 10 + n / 10 mod 10) * 10 + n mod 10)%Z = n.
Proof.
  intros Hn.
  assert (0 <= n / 10 < 100)%Z as H1
    by (split; [apply Z.div_pos; lia | apply Z.div_lt_upper_bound; lia]).
  pose proof (digits_2 (n / 10) H1) as E.
  pose proof (Z.div_mod n 10 ltac:(lia)). lia.
Qed.

Lemma digits_4 (n : Z) :
  (0 <= n < 10000)%Z ->
  ((((0 * 10 + n / 10 / 10 / 10 mod 10) * 10 + n / 10 / 10 mod 10) * 10
    + n / 10 mod 10) * 10 + n mod 10)%Z = n.
Proof.
  intros Hn.
  assert (0 <= n / 10 < 1000)%Z as H1
    by (split; [apply Z.div_pos; lia | apply Z.div_lt_upper_bound; lia]).
  pose proof (digits_3 (n / 10) H1) as E.
  pose proof (Z.div_mod n 10 ltac:(lia)). lia.
Qed.


Lemma iso_getTime_toISOString (t : Z) :
  four_digit_year t -> iso_getTime (toISOString t) = Num t.
Proof.
  unfold four_digit_year, toISOString. intros Hyear.
  pose proof (civil_ok_all (t / 86400000)) as Hok. unfold civil_ok in Hok.
  destruct (civil_from_days (t / 86400000)) as [[y m] d] eqn:Hcivil.
  cbn [fst] in Hyear.
  repeat rewrite andb_true_iff in Hok.
  destruct Hok as ((((Hdays & Hm1) & Hm2) & Hd1) & Hd2).
  apply Z.eqb_eq in Hdays. apply Z.leb_le in Hm1, Hm2, Hd1, Hd2.
  replace ((0 <=? y)%Z && (y <=? 9999)%Z) with true
    by (symmetry; apply andb_true_iff; split; apply Z.leb_le; lia).
  set (ms := (t mod 86400000)%Z).
  assert (0 <= ms < 86400000)%Z as Hms by (apply Z.mod_pos_bound; lia).
  rewrite pad_4, !pad_2, pad_3.
  unfold iso_getTime.
  change (js "-") with [45%N]. change (js "T") with [84%N].
  change (js ":") with [58%N]. change (js ".") with [46%N].
  change (js "Z") with [90%N].
  cbn [app length Nat.eqb slice firstn skipn].
  rewrite !bool_decide_eq_true_2 by reflexivity.
  cbn [andb negb]. unfold decimal.
  rewrite !decimal_acc_digit. cbn [decimal_acc].
  rewrite (digits_4 y) by lia.
  rewrite (digits_2 m), (digits_2 d) by lia.
  rewrite (digits_2 (ms / 3600000)).
  2:{ split; [apply Z.div_pos; lia | apply Z.div_lt_upper_bound; lia]. }
  rewrite (digits_2 (ms / 60000 mod 60)), (digits_2 (ms / 1000 mod 60)).
  2,3: pose proof (Z.mod_pos_bound (ms / 1000) 60 ltac:(lia));
       pose proof (Z.mod_pos_bound (ms / 60000) 60 ltac:(lia)); lia.
  rewrite (digits_3 (ms mod 1000))
    by (pose proof (Z.mod_pos_bound ms 1000 ltac:(lia)); lia).
  rewrite Hdays, Hcivil.
  rewrite bool_decide_eq_true_2 by reflexivity.
  assert (0 <= ms / 3600000 <= 23)%Z as Hh.
  { split; [apply Z.div_pos; lia|].
    assert (ms / 3600000 < 24)%Z by (apply Z.div_lt_upper_bound; lia). lia. }
  pose proof (Z.mod_pos_bound (ms / 60000) 60 ltac:(lia)) as Hmi.
  pose proof (Z.mod_pos_bound (ms / 1000) 60 ltac:(lia)) as Hs.
  replace (ms / 3600000 <=? 23)%Z with true by (symmetry; apply Z.leb_le; lia).
  replace (ms / 60000 mod 60 <=? 59)%Z with true
    by (symmetry; apply Z.leb_le; lia).
  replace (ms / 1000 mod 60 <=? 59)%Z with true
    by (symmetry; apply Z.leb_le; lia).
  cbn [orb andb]. f_equal.
  subst ms. clear -t.
  Z.div_mod_to_equations. lia.
Qed.

Lemma ExampleHost_reads_ISO : reads_ISO ExampleHost.
Proof. intros t Ht. apply iso_getTime_toISOString, Ht. Qed.

(** A note made by [createNote] carries a date the host reads, and
    [toggleNote] keeps it: the notes the module makes meet the condition
    under which the sorts are ordered. *)
Lemma createNote_valid_date `{H : Host} (text : jsstring) (e : Env) :
  reads_ISO H ->
  four_digit_year (clock_source e (clock_reads e)) ->
  valid_date (fst (createNote text e)).
Proof.
  intros Hiso Hyear. exists (clock_source e (clock_reads e)).
  apply Hiso, Hyear.
Qed.

Lemma toggleNote_valid_date `{H : Host} (n : Note) :
  valid_date n -> valid_date (toggleNote n).
Proof. intros [t Ht]. exists t. exact Ht. Qed.

(** ** The query engine on objects *)

Lemma sort_insert_Forall2 {A B} (R : A -> B -> Prop)
  (ca : A -> A -> number) (cb : B -> B -> number) (a : A) (b : B)
  (la : list A) (lb : list B) :
  (forall a a' b b', R a b -> R a' b' -> ca a a' = cb b b') ->
  R a b -> Forall2 R la lb ->
  Forall2 R (sort_insert ca a la) (sort_insert cb b lb).
Proof.
  intros Hagree Hab Hall.
  induction Hall as [|a' b' la lb Hab' Hall IH]; cbn [sort_insert].
  - repeat constructor. exact Hab.
  - unfold SortCompare. rewrite (Hagree a a' b b' Hab Hab').
    destruct (_ <=? 0)%Z; repeat constructor; assumption.
Qed.

(** Sorting references by what they refer to sorts what they refer to. *)
Lemma Array_sort_Forall2 {A B} (R : A -> B -> Prop)
  (ca : A -> A -> number) (cb : B -> B -> number)
  (la : list A) (lb : list B) :
  (forall a a' b b', R a b -> R a' b' -> ca a a' = cb b b') ->
  Forall2 R la lb ->
  Forall2 R (Array_sort ca la) (Array_sort cb lb).
Proof.
  intros Hagree Hall.
  induction Hall as [|a b la lb Hab Hall IH]; cbn [Array_sort];
    [constructor|].
  apply sort_insert_Forall2; assumption.
Qed.

Section ByReferenceFacts.
Context {S : Type}.
Implicit Types (rt : Runtime S) (objects : gmap positive object).

Lemma allocate_fresh (o : object) rt :
  exists r,
    ByReference.allocate o rt
    = Some (r, mkRuntime (<[r := o]> (rt_objects rt)) (rt_world rt)
                 (rt_env rt)) /\
    rt_objects rt !! r = None.
Proof.
  exists (fresh (dom (rt_objects rt))). split; [reflexivity|].
  apply not_elem_of_dom, is_fresh.
Qed.

Lemma holds_notes_weaken objects objects' (r : positive) (ns : list Note) :
  objects ⊆ objects' ->
  ByReference.holds_notes objects r ns ->
  ByReference.holds_notes objects' r ns.
Proof.
  intros Hsub (items & Hr & Hitems). exists items. split.
  - exact (lookup_weaken _ _ _ _ Hr Hsub).
  - eapply Forall2_impl; [exact Hitems|]. intros i n Hi.
    exact (lookup_weaken _ _ _ _ Hi Hsub).
Qed.

Lemma get_notes_holds rt (items : list positive) (ns : list Note) :
  Forall2 (fun i n => rt_objects rt !! i = Some (NoteObject n)) items ns ->
  ByReference.get_notes items rt = Some (ns, rt).
Proof.
  induction 1 as [|i n items ns Hi _ IH]; [reflexivity|].
  cbn [ByReference.get_notes].
  unfold ByReference.then_run, ByReference.get_note. rewrite Hi, IH.
  reflexivity.
Qed.

Lemma keep_holds rt (callback : Note -> bool) (items : list positive)
  (ns : list Note) :
  Forall2 (fun i n => rt_objects rt !! i = Some (NoteObject n)) items ns ->
  exists kept,
    ByReference.keep callback items rt = Some (kept, rt) /\
    Forall2 (fun i n => rt_objects rt !! i = Some (NoteObject n)) kept
      (List.filter callback ns).
Proof.
  induction 1 as [|i n items ns Hi _ (kept & Hkept & Hall)].
  - exists []. split; [reflexivity | constructor].
  - cbn [ByReference.keep List.filter].
    unfold ByReference.then_run, ByReference.get_note. rewrite Hi, Hkept.
    unfold ByReference.unit_run. destruct (callback n); eexists;
      (split; [reflexivity|]); [constructor|]; assumption.
Qed.

(** [filter] allocates the array it returns and writes nothing else. *)
Lemma Array_filter_pure rt (arr : positive) (callback : Note -> bool)
  (ns : list Note) :
  ByReference.holds_notes (rt_objects rt) arr ns ->
  ByReference.pure_call (ByReference.Array_filter arr callback) rt
    (fun objects r =>
       ByReference.holds_notes objects r (List.filter callback ns) /\
       rt_objects rt !! r = None).
Proof.
  intros (items & Harr & Hitems).
  destruct (keep_holds rt callback items ns Hitems) as (kept & Hkept & Hall).
  destruct (allocate_fresh (ArrayObject kept) rt) as (r & Halloc & Hfresh).
  exists r, (mkRuntime (<[r := ArrayObject kept]> (rt_objects rt))
               (rt_world rt) (rt_env rt)).
  pose proof (insert_subseteq (rt_objects rt) r (ArrayObject kept) Hfresh)
    as Hsub.
  split.
  { unfold ByReference.Array_filter, ByReference.then_run,
      ByReference.get_items. rewrite Harr, Hkept. exact Halloc. }
  cbn [rt_world rt_env rt_objects]. repeat split; try assumption.
  exists kept. split; [apply lookup_insert_eq|].
  eapply Forall2_impl; [exact Hall|]. intros i n Hi.
  exact (lookup_weaken _ _ _ _ Hi Hsub).
Qed.

(** [sort] on a copy: the copy is the one object written. *)
Lemma sort_copy_pure rt (notes : positive) (ns : list Note)
  (comparefn : Note -> Note -> number) :
  ByReference.holds_notes (rt_objects rt) notes ns ->
  ByReference.pure_call
    (ByReference.then_run (ByReference.get_items notes) (fun items =>
     ByReference.then_run (ByReference.allocate (ArrayObject items))
       (fun sorted => ByReference.Array_sort_in_place sorted comparefn)))
    rt
    (fun objects r =>
       ByReference.holds_notes objects r (Array_sort comparefn ns) /\
       rt_objects rt !! r = None).
Proof.
  intros (items & Harr & Hitems).
  destruct (allocate_fresh (ArrayObject items) rt) as (r & Halloc & Hfresh).
  set (copied := <[r := ArrayObject items]> (rt_objects rt)).
  pose proof (insert_subseteq (rt_objects rt) r (ArrayObject items) Hfresh)
    as Hsub. fold copied in Hsub.
  assert (Forall2 (fun i n => copied !! i = Some (NoteObject n)) items ns)
    as Hcopied.
  { eapply Forall2_impl; [exact Hitems|]. intros i n Hi.
    exact (lookup_weaken _ _ _ _ Hi Hsub). }
  set (sorted := Array_sort (ByReference.compare_items copied comparefn)
                   items).
  exists r, (mkRuntime (<[r := ArrayObject sorted]> (rt_objects rt))
               (rt_world rt) (rt_env rt)).
  split.
  { unfold ByReference.then_run at 1 2, ByReference.get_items at 1.
    rewrite Harr, Halloc.
    unfold ByReference.Array_sort_in_place, ByReference.then_run,
      ByReference.get_items.
    cbn [rt_objects rt_world rt_env]. fold copied.
    unfold copied at 1. rewrite lookup_insert_eq.
    rewrite (get_notes_holds
               (mkRuntime copied (rt_world rt) (rt_env rt)) items ns Hcopied).
    cbn [rt_objects rt_world rt_env]. fold sorted.
    unfold copied. rewrite insert_insert_eq. reflexivity. }
  cbn [rt_world rt_env rt_objects]. repeat split; try assumption.
  { apply insert_subseteq, Hfresh. }
  exists sorted. split; [apply lookup_insert_eq|].
  assert (Forall2 (fun i n => copied !! i = Some (NoteObject n)) sorted
            (Array_sort comparefn ns)) as Hsorted.
  { apply Array_sort_Forall2; [|exact Hcopied].
    intros a a' b b' Ha Ha'. unfold ByReference.compare_items.
    rewrite Ha, Ha'. reflexivity. }
  eapply Forall2_impl; [exact Hsorted|]. intros i n Hi.
  rewrite lookup_insert_ne; [|intros <-; unfold copied in Hi;
                              rewrite lookup_insert_eq in Hi; discriminate].
  unfold copied in Hi. rewrite lookup_insert_ne in Hi; [exact Hi|].
  intros <-. rewrite lookup_insert_eq in Hi. discriminate.
Qed.

Lemma unit_run_pure {A} rt (a : A)
  (result : gmap positive object -> A -> Prop) :
  result (rt_objects rt) a ->
  ByReference.pure_call (ByReference.unit_run a) rt result.
Proof. intros Hr. exists a, rt. repeat split; [reflexivity | exact Hr]. Qed.

Lemma pure_call_weaken {A} (call : Run S A) rt
  (P Q : gmap positive object -> A -> Prop) :
  (forall objects a, P objects a -> Q objects a) ->
  ByReference.pure_call call rt P -> ByReference.pure_call call rt Q.
Proof.
  intros HPQ (a & rt' & Hcall & Hw & He & Hsub & HP).
  exists a, rt'. auto 10.
Qed.

End ByReferenceFacts.

Section QueryEngine.
Context `{Host} {S : Type}.

(** C9 (as amended): in every state of the objects, the store, the console,
    the identifier generator and the clock, each of [toggleNote],
    [searchNotes], [sortNotes], [filterNotesByStatus] and [calculateStats]
    completes, leaves all of these as they were, its arguments included
    (it only adds objects), and returns a result whose contents are the
    function of the contents of its arguments that the value-level
    definition computes; so two calls with equal inputs return equal
    results.  [createNote] writes neither store nor console nor any
    existing object either, but it draws an identifier and reads the clock:
    the note it makes is determined by the text together with these
    two. *)
Theorem query_engine_determinism (rt : Runtime S) (notes note : positive)
  (ns : list Note) (n : Note) (text0 query sortBy filter : jsstring)
  (Hnotes : ByReference.holds_notes (rt_objects rt) notes ns)
  (Hnote : rt_objects rt !! note = Some (NoteObject n)) :
  (exists r,
     ByReference.createNote text0 rt
     = Some (r,
             mkRuntime
               (<[r := NoteObject (fst (createNote text0 (rt_env rt)))]>
                  (rt_objects rt))
               (rt_world rt) (snd (createNote text0 (rt_env rt)))) /\
     rt_objects rt !! r = None) /\
  fst (createNote text0 (rt_env rt))
  = mkNote (uuid_source (rt_env rt) (uuids_drawn (rt_env rt)))
      (JsString.trim text0) false
      (toISOString (clock_source (rt_env rt) (clock_reads (rt_env rt)))) /\
  ByReference.pure_call (ByReference.toggleNote note) rt
    (fun objects r =>
       objects !! r = Some (NoteObject (toggleNote n)) /\
       rt_objects rt !! r = None) /\
  ByReference.pure_call (ByReference.searchNotes notes query) rt
    (fun objects r => ByReference.holds_notes objects r (searchNotes ns query)) /\
  ByReference.pure_call (ByReference.sortNotes notes sortBy) rt
    (fun objects r =>
       ByReference.holds_notes objects r (sortNotes ns sortBy) /\
       rt_objects rt !! r = None) /\
  ByReference.pure_call (ByReference.filterNotesByStatus notes filter) rt
    (fun objects r =>
       ByReference.holds_notes objects r (filterNotesByStatus ns filter)) /\
  ByReference.pure_call (ByReference.calculateStats notes) rt
    (fun objects r => objects !! r = Some (StatsObject (calculateStats ns))).
Proof.
  split.
  { exists (fresh (dom (rt_objects rt))). split; [reflexivity|].
    apply not_elem_of_dom, is_fresh. }
  split; [reflexivity|].
  split.
  { destruct (allocate_fresh (NoteObject (toggleNote n)) rt)
      as (r & Halloc & Hfresh).
    exists r, (mkRuntime (<[r := NoteObject (toggleNote n)]> (rt_objects rt))
                 (rt_world rt) (rt_env rt)).
    split.
    { unfold ByReference.toggleNote, ByReference.then_run,
        ByReference.get_note. rewrite Hnote. exact Halloc. }
    cbn [rt_world rt_env rt_objects]. repeat split; try assumption.
    - apply insert_subseteq, Hfresh.
    - apply lookup_insert_eq. }
  split.
  { unfold ByReference.searchNotes, searchNotes.
    destruct (negb (JsString.truthy (JsString.trim query))).
    - apply unit_run_pure, Hnotes.
    - eapply pure_call_weaken; [|apply Array_filter_pure, Hnotes].
      intros objects r [Hr _]. exact Hr. }
  split.
  { unfold ByReference.sortNotes, sortNotes.
    repeat case_decide; apply sort_copy_pure, Hnotes. }
  split.
  { unfold ByReference.filterNotesByStatus, filterNotesByStatus.
    repeat case_decide;
      try (eapply pure_call_weaken; [|apply Array_filter_pure, Hnotes];
           intros objects r [Hr _]; exact Hr).
    apply unit_run_pure, Hnotes. }
  destruct (Array_filter_pure rt notes (fun note => done note) ns Hnotes)
    as (r1 & rt1 & Hcall & Hw & He & Hsub & (kept & Hr1 & Hkept) & _).
  destruct Hnotes as (items & Harr & Hitems).
  pose proof (is_fresh (dom (rt_objects rt1))) as Hfresh.
  apply not_elem_of_dom in Hfresh.
  eexists _, _. split.
  { unfold ByReference.calculateStats, ByReference.then_run at 1 2,
      ByReference.get_items at 1.
    rewrite Harr, Hcall.
    unfold ByReference.then_run, ByReference.get_items. rewrite Hr1.
    unfold ByReference.allocate. reflexivity. }
  cbn [rt_world rt_env rt_objects]. repeat split; try assumption.
  - etransitivity; [exact Hsub|]. apply insert_subseteq, Hfresh.
  - rewrite lookup_insert_eq. do 2 f_equal.
    unfold calculateStats, rate.
    rewrite (Forall2_length _ _ _ Hitems), (Forall2_length _ _ _ Hkept).
    reflexivity.
Qed.

End QueryEngine.

Lemma query_engine_determinism_witness :
  exists r rt',
    @ByReference.sortNotes _ ExampleHost 4%positive (js "status")
      example_runtime = Some (r, rt') /\
    rt_world rt' = rt_world example_runtime /\
    rt_env rt' = rt_env example_runtime /\
    rt_objects example_runtime ⊆ rt_objects rt' /\
    ByReference.holds_notes (rt_objects rt') r
      (@sortNotes ExampleHost sampleNotes (js "status")) /\
    rt_objects example_runtime !! r = None.
Proof.
  refine (proj1 (proj2 (proj2 (proj2 (proj2
            (@query_engine_determinism ExampleHost _ example_runtime
               4%positive 1%positive sampleNotes
               (mkNote (js "1") (js "Buy groceries") false
                  (js "2023-01-01T10:00:00.000Z"))
               (js " Call mum ") (js "o") (js "status") (js "open")
               _ _)))))).
  - exists [1; 2; 3]%positive. split; [reflexivity|].
    repeat constructor.
  - reflexivity.
Defined.

(** C9 (as stated) fails for [createNote]: a second call with the same text
    returns a different note. *)
Lemma createNote_depends_on_env :
  ~ (forall (text : jsstring) (e e' : Env),
       fst (createNote text e) = fst (createNote text e')).
Proof.
  intros Hclaim.
  specialize (Hclaim (js "Buy milk") example_env
                (snd (createNote (js "Buy milk") example_env))).
  vm_compute in Hclaim. discriminate Hclaim.
Qed.

(** ** Statistics *)




Lemma rate_exact_below_40 :
  Forall (fun t => Forall (fun c => rate_exact c t) (seq 0 (S t))) (seq 1 39).
Proof. apply (bool_decide_unpack _). vm_compute. exact I. Qed.

Lemma rate_exact_small (c t : nat) :
  (0 < t < 40)%nat -> (c <= t)%nat -> rate_exact c t.
Proof.
  intros Ht Hc. pose proof rate_exact_below_40 as Hall.
  rewrite List.Forall_forall in Hall.
  specialize (Hall t). rewrite List.Forall_forall in Hall.
  apply Hall; apply in_seq; lia.
Qed.

Lemma filter_length_le {A} (f : A -> bool) (l : list A) :
  (length (List.filter f l) <= length l)%nat.
Proof.
  induction l as [|x l IH]; simpl; [lia|]. destruct (f x); simpl; lia.
Qed.

(** C2 (as amended): [total] is the length, [completed] the number of done
    notes, [pending] their difference; [completionRate] is 0 for no notes
    and otherwise Math.round of the binary64 product (completed / total) *
    100, which for fewer than 40 notes is the exact percentage rounded half
    up (33 for 1 of 3, 67 for 2 of 3). *)
Theorem calculateStats_spec (notes : list Note) :
  total (calculateStats notes) = length notes /\
  completed (calculateStats notes)
  = length (List.filter (fun n => done n) notes) /\
  pending (calculateStats notes)
  = (total (calculateStats notes) - completed (calculateStats notes))%nat /\
  (completed (calculateStats notes) + pending (calculateStats notes)
   = total (calculateStats notes))%nat /\
  (length notes = 0%nat ->
   completionRate (calculateStats notes) = binary64_of_Z 0) /\
  ((0 < length notes)%nat ->
   completionRate (calculateStats notes)
   = Math_round
       (SFmul prec emax
          (SFdiv prec emax
             (binary64_of_nat (completed (calculateStats notes)))
             (binary64_of_nat (total (calculateStats notes))))
          (binary64_of_Z 100))) /\
  ((0 < length notes < 40)%nat ->
   completionRate (calculateStats notes)
   = binary64_of_Z
       (round_half_up_percent
          (Z.of_nat (completed (calculateStats notes)))
          (Z.of_nat (total (calculateStats notes))))) /\
  (total (calculateStats notes) = 3%nat ->
   completed (calculateStats notes) = 1%nat ->
   completionRate (calculateStats notes) = binary64_of_Z 33) /\
  (total (calculateStats notes) = 3%nat ->
   completed (calculateStats notes) = 2%nat ->
   completionRate (calculateStats notes) = binary64_of_Z 67).
Proof.
  pose proof (filter_length_le (fun n => done n) notes) as Hle.
  unfold calculateStats; cbn [total completed pending completionRate].
  split; [reflexivity|]. split; [reflexivity|]. split; [reflexivity|].
  split; [lia|].
  split; [intros ->; reflexivity|].
  split.
  { intros Hpos. destruct (Nat.ltb_spec 0 (length notes)); [reflexivity|lia]. }
  split.
  { intros Hlen. destruct (Nat.ltb_spec 0 (length notes)); [|lia].
    apply (rate_exact_small _ _ Hlen Hle). }
  split; intros -> ->; reflexivity.
Qed.


Lemma calculateStats_spec_witness :
  completionRate (calculateStats sampleNotes) = binary64_of_Z 33 /\
  pending (calculateStats sampleNotes) = 2%nat.
Proof.
  destruct (calculateStats_spec sampleNotes)
    as (_ & _ & Hp & _ & _ & _ & _ & H33 & _).
  split; [apply H33; reflexivity | rewrite Hp; reflexivity].
Defined.

(** C2 (as stated) fails at 23 done notes of 40: the exact percentage is
    57.5, the binary64 product is just below it, and the rate is 57. *)
Lemma calculateStats_rate_not_half_up :
  ~ (forall notes : list Note,
       (0 < length notes)%nat ->
       completionRate (calculateStats notes)
       = binary64_of_Z
           (round_half_up_percent
              (Z.of_nat (completed (calculateStats notes)))
              (Z.of_nat (total (calculateStats notes))))).
Proof.
  intros Hclaim. specialize (Hclaim forty_notes).
  assert (0 < length forty_notes)%nat as Hpos by (vm_compute; lia).
  specialize (Hclaim Hpos). vm_compute in Hclaim. discriminate Hclaim.
Qed.

(* ===================================================================== *)
(** ** The cases of the test suite, run on the model *)
(* ===================================================================== *)

Example test_createNote_trims :
  fst (createNote (js "  Test note  ")
         (mkEnv (fun _ => js "test-uuid-123") 0 (fun _ => 1672567200000%Z) 0))
  = mkNote (js "test-uuid-123") (js "Test note") false
      (js "2023-01-01T10:00:00.000Z").
Proof. vm_compute. reflexivity. Qed.

Example test_toggleNote_false_to_true :
  List.map (fun n => done (toggleNote n)) sampleNotes = [true; false; true].
Proof. reflexivity. Qed.

Example test_searchNotes_empty_query :
  searchNotes sampleNotes [] = sampleNotes /\
  searchNotes sampleNotes (js "   ") = sampleNotes.
Proof. split; reflexivity. Qed.

Example test_searchNotes_case_insensitive :
  List.map id (searchNotes sampleNotes (js "buy")) = [js "1"] /\
  List.map id (searchNotes sampleNotes (js "BUY")) = [js "1"] /\
  List.map id (searchNotes sampleNotes (js "project")) = [js "3"] /\
  searchNotes sampleNotes (js "nonexistent") = [].
Proof. repeat split; vm_compute; reflexivity. Qed.

Example test_sortNotes_date :
  List.map id (@sortNotes ExampleHost sampleNotes (js "date"))
  = [js "3"; js "2"; js "1"].
Proof. vm_compute. reflexivity. Qed.

Example test_sortNotes_alphabetical :
  List.map text (@sortNotes ExampleHost sampleNotes (js "alphabetical"))
  = [js "Buy groceries"; js "Finish project"; js "Walk the dog"].
Proof. vm_compute. reflexivity. Qed.

Example test_sortNotes_status :
  List.map done (@sortNotes ExampleHost sampleNotes (js "status"))
  = [false; false; true].
Proof. vm_compute. reflexivity. Qed.

Example test_filterNotesByStatus :
  filterNotesByStatus sampleNotes (js "all") = sampleNotes /\
  List.map id (filterNotesByStatus sampleNotes (js "open")) = [js "1"; js "3"] /\
  List.map id (filterNotesByStatus sampleNotes (js "done")) = [js "2"] /\
  filterNotesByStatus (List.map (fun n => mkNote (id n) (text n) true (createdAt n))
                         sampleNotes) (js "open") = [].
Proof. repeat split; vm_compute; reflexivity. Qed.

Example test_calculateStats_mixed :
  calculateStats sampleNotes = mkStats 3 1 2 (binary64_of_Z 33).
Proof. vm_compute. reflexivity. Qed.

Example test_calculateStats_empty :
  calculateStats [] = mkStats 0 0 0 (binary64_of_Z 0).
Proof. vm_compute. reflexivity. Qed.

Example test_calculateStats_all_done :
  completionRate
    (calculateStats
       (List.map (fun n => mkNote (id n) (text n) true (createdAt n)) sampleNotes))
  = binary64_of_Z 100 /\
  completionRate
    (calculateStats
       (List.map (fun n => mkNote (id n) (text n) false (createdAt n)) sampleNotes))
  = binary64_of_Z 0.
Proof. split; vm_compute; reflexivity. Qed.

Example test_calculateStats_23_of_40 :
  calculateStats forty_notes = mkStats 40 23 17 (binary64_of_Z 57) /\
  round_half_up_percent 23 40 = 58%Z.
Proof. split; vm_compute; reflexivity. Qed.

Example test_saveNotes_writes_the_key :
  items (storage (snd (saveNotes sampleNotes (example_world None 1000))))
    !! js "notes.v1"
  = Some (JSON_stringify_notes sampleNotes).
Proof. vm_compute. reflexivity. Qed.

Example test_loadNotes_no_data :
  loadNotes (example_world None 1000)
  = (Normal (JArray []), example_world None 1000).
Proof. reflexivity. Qed.

Example test_loadNotes_access_denied :
  loadNotes (mkWorld (mkStorage ∅ false 1000) [])
  = (Normal (JArray []),
     mkWorld (mkStorage ∅ false 1000)
       [load_warning (DOMException "SecurityError")]).
Proof. reflexivity. Qed.

Example test_loadNotes_null_payload :
  fst (loadNotes (example_world (Some (js "null")) 1000)) = Normal JNull.
Proof. reflexivity. Qed.

Example test_clearNotes :
  items (storage (snd (clearNotes
                         (example_world (Some (js "[]")) 1000))))
    !! js "notes.v1" = None /\
  fst (clearNotes (mkWorld (mkStorage ∅ false 1000) [])) = Normal tt /\
  console (snd (clearNotes (mkWorld (mkStorage ∅ false 1000) [])))
  = [clear_error (DOMException "SecurityError")].
Proof. repeat split; vm_compute; reflexivity. Qed.

(** A write refused for quota leaves what was persisted before. *)
Example test_save_quota_then_load :
  let w0 := example_world None 200 in
  let w1 := snd (saveNotes (firstn 1 sampleNotes) w0) in
  let w2 := snd (saveNotes sampleNotes w1) in
  console w2 = [save_error (DOMException "QuotaExceededError")] /\
  fst (loadNotes w2) = Normal (json_of_notes (firstn 1 sampleNotes)).
Proof. split; vm_compute; reflexivity. Qed.


(* ===================================================================== *)
(** ** More on filtering and searching *)
(* ===================================================================== *)

Lemma filter_comm {A} (p q : A -> bool) (l : list A) :
  List.filter p (List.filter q l) = List.filter q (List.filter p l).
Proof.
  induction l as [|x l IH]; [reflexivity|]. cbn [List.filter].
  destruct (p x) eqn:Hp, (q x) eqn:Hq; cbn [List.filter];
    rewrite ?Hp, ?Hq, IH; reflexivity.
Qed.

Lemma filter_idem {A} (p : A -> bool) (l : list A) :
  List.filter p (List.filter p l) = List.filter p l.
Proof.
  induction l as [|x l IH]; [reflexivity|]. cbn [List.filter].
  destruct (p x) eqn:Hp; cbn [List.filter]; rewrite ?Hp, IH; reflexivity.
Qed.

Lemma filter_narrow {A} (p q : A -> bool) (l : list A) :
  (forall x, q x = true -> p x = true) ->
  List.filter q (List.filter p l) = List.filter q l.
Proof.
  intros Himp. induction l as [|x l IH]; [reflexivity|]. cbn [List.filter].
  destruct (p x) eqn:Hp; cbn [List.filter].
  - rewrite IH. reflexivity.
  - destruct (q x) eqn:Hq; [|exact IH].
    apply Himp in Hq. congruence.
Qed.

Lemma filter_sublist {A} (p : A -> bool) (l : list A) :
  sublist (List.filter p l) l.
Proof.
  induction l as [|x l IH]; [constructor|]. cbn [List.filter].
  destruct (p x); [apply sublist_skip | apply sublist_cons]; exact IH.
Qed.

Lemma filter_partition_Permutation {A} (p : A -> bool) (l : list A) :
  Permutation l (List.filter (fun x => negb (p x)) l ++ List.filter p l).
Proof.
  induction l as [|x l IH]; [reflexivity|]. cbn [List.filter].
  destruct (p x); cbn [negb app].
  - rewrite <- Permutation_middle. apply perm_skip, IH.
  - apply perm_skip, IH.
Qed.

(** What [filterNotesByStatus] and [searchNotes] are: a filter each, or the
    identity. *)
Lemma filterNotesByStatus_filter (filter : jsstring) :
  exists p, forall l, filterNotesByStatus l filter = List.filter p l.
Proof.
  unfold filterNotesByStatus. repeat case_decide; eauto.
  exists (fun _ => true). intros l. induction l; simpl; congruence.
Qed.

Lemma searchNotes_as_filter (query : jsstring) :
  exists p, forall l, searchNotes l query = List.filter p l.
Proof.
  unfold searchNotes.
  destruct (negb (JsString.truthy (JsString.trim query))); eauto.
  exists (fun _ => true). intros l. induction l; simpl; congruence.
Qed.

(** X1: the open and the done notes split the collection: each note is in
    exactly one of the two views, both keep the order of the input, and
    their sizes add up. *)
Theorem filterNotesByStatus_partition (notes : list Note) :
  Permutation notes
    (filterNotesByStatus notes (js "open")
     ++ filterNotesByStatus notes (js "done")) /\
  length (filterNotesByStatus notes (js "open"))
  + length (filterNotesByStatus notes (js "done")) = length notes /\
  Forall (fun n => done n = false) (filterNotesByStatus notes (js "open")) /\
  Forall (fun n => done n = true) (filterNotesByStatus notes (js "done")) /\
  sublist (filterNotesByStatus notes (js "open")) notes /\
  sublist (filterNotesByStatus notes (js "done")) notes.
Proof.
  assert (filterNotesByStatus notes (js "open")
          = List.filter (fun n => negb (done n)) notes) as ->
    by reflexivity.
  assert (filterNotesByStatus notes (js "done")
          = List.filter (fun n => done n) notes) as ->
    by reflexivity.
  pose proof (filter_partition_Permutation (fun n => done n) notes) as Hp.
  split; [exact Hp|]. split.
  - apply Permutation_length in Hp. rewrite length_app in Hp. lia.
  - repeat split; try apply filter_sublist;
      apply List.Forall_forall; intros n Hn; apply filter_In in Hn as [_ Hn];
      [apply negb_true_iff in Hn|]; exact Hn.
Qed.

(** X2: searching and filtering by status commute, and applying either one
    twice changes nothing more. *)
Theorem search_filter_commute (notes : list Note) (query filter : jsstring) :
  searchNotes (filterNotesByStatus notes filter) query
  = filterNotesByStatus (searchNotes notes query) filter /\
  filterNotesByStatus (filterNotesByStatus notes filter) filter
  = filterNotesByStatus notes filter /\
  searchNotes (searchNotes notes query) query = searchNotes notes query.
Proof.
  destruct (filterNotesByStatus_filter filter) as [p Hp].
  destruct (searchNotes_as_filter query) as [q Hq].
  repeat rewrite ?Hp, ?Hq. repeat split.
  - apply filter_comm.
  - apply filter_idem.
  - apply filter_idem.
Qed.

(** X3: a query that contains the previous one (after trimming and
    lower-casing) finds, among the previous results, exactly what it finds
    in the whole collection; and the results are always a subsequence of
    the input. *)
Theorem searchNotes_refine (notes : list Note) (query query' : jsstring)
  (Hcontains :
     JsString.substring_of
       (JsString.trim (JsString.toLowerCase query))
       (JsString.trim (JsString.toLowerCase query'))) :
  searchNotes (searchNotes notes query) query' = searchNotes notes query' /\
  sublist (searchNotes notes query') (searchNotes notes query) /\
  sublist (searchNotes notes query) notes.
Proof.
  assert (sublist (searchNotes notes query) notes) as Hsub.
  { destruct (searchNotes_as_filter query) as [q Hq]. rewrite Hq.
    apply filter_sublist. }
  assert (searchNotes (searchNotes notes query) query'
          = searchNotes notes query') as Href.
  { unfold searchNotes at 2.
    destruct (JsString.trim query) as [|c r] eqn:Eq; [reflexivity|].
    cbn [JsString.truthy negb]. unfold searchNotes.
    destruct (JsString.trim query') as [|c' r'] eqn:Eq'.
    - exfalso. rewrite !trim_toLowerCase, Eq, Eq' in Hcontains.
      destruct Hcontains as (pre & post & Hc).
      change (JsString.toLowerCase []) with (@nil N) in Hc. symmetry in Hc.
      apply app_eq_nil in Hc as [_ Hc]. apply app_eq_nil in Hc as [Hc _].
      apply (proj1 (toLowerCase_nil _)) in Hc. discriminate Hc.
    - cbn [JsString.truthy negb]. apply filter_narrow. intros n Hn.
      apply includes_spec. apply includes_spec in Hn.
      eapply substring_of_trans; eassumption. }
  split; [exact Href|]. split; [|exact Hsub].
  rewrite <- Href.
  destruct (searchNotes_as_filter query') as [q' Hq']. rewrite Hq'.
  apply filter_sublist.
Qed.

Lemma searchNotes_refine_witness :
  searchNotes (searchNotes sampleNotes (js "o")) (js " GRO ")
  = searchNotes sampleNotes (js " GRO ").
Proof.
  refine (proj1 (searchNotes_refine sampleNotes (js "o") (js " GRO ") _)).
  exists (js "gr"), []. vm_compute. reflexivity.
Defined.

(* ===================================================================== *)
(** ** More on sorting *)
(* ===================================================================== *)

Lemma Array_sort_fixed {A} (comparefn : A -> A -> number) (l : list A) :
  StronglySorted (precedes comparefn) l -> Array_sort comparefn l = l.
Proof.
  induction 1 as [|x l Hs IH Hx]; [reflexivity|].
  cbn [Array_sort]. rewrite IH.
  destruct l as [|y l]; [reflexivity|]. cbn [sort_insert].
  apply Forall_inv in Hx. unfold precedes in Hx.
  destruct (Z.leb_spec (SortCompare comparefn x y) 0); [reflexivity | lia].
Qed.

Lemma sort_insert_ext {A} (c1 c2 : A -> A -> number) (x : A) (l : list A) :
  (forall a b, c1 a b = c2 a b) -> sort_insert c1 x l = sort_insert c2 x l.
Proof.
  intros Hext. induction l as [|y l IH]; [reflexivity|].
  cbn [sort_insert]. unfold SortCompare. rewrite Hext, IH. reflexivity.
Qed.

Lemma Array_sort_ext {A} (c1 c2 : A -> A -> number) (l : list A) :
  (forall a b, c1 a b = c2 a b) -> Array_sort c1 l = Array_sort c2 l.
Proof.
  intros Hext. induction l as [|x l IH]; [reflexivity|].
  cbn [Array_sort]. rewrite IH. apply sort_insert_ext, Hext.
Qed.

Lemma Permutation_filter {A} (p : A -> bool) (l l' : list A) :
  Permutation l l' -> Permutation (List.filter p l) (List.filter p l').
Proof.
  induction 1 as [|x l l' _ IH|x y l|l l' l'' _ IH1 _ IH2]; cbn [List.filter].
  - reflexivity.
  - destruct (p x); [apply perm_skip|]; exact IH.
  - destruct (p x), (p y); try reflexivity. apply perm_swap.
  - etransitivity; eassumption.
Qed.

Lemma StronglySorted_filter {A} (R : A -> A -> Prop) (p : A -> bool)
  (l : list A) :
  StronglySorted R l -> StronglySorted R (List.filter p l).
Proof.
  induction 1 as [|x l Hs IH Hx]; [constructor|]. cbn [List.filter].
  destruct (p x); [|exact IH]. constructor; [exact IH|].
  rewrite List.Forall_forall in *. intros y Hy.
  apply filter_In in Hy as [Hy _]. apply Hx, Hy.
Qed.

Lemma consistent_weaken {A} (comparefn : A -> A -> number)
  (P Q : A -> Prop) :
  (forall x, Q x -> P x) -> consistent comparefn P -> consistent comparefn Q.
Proof.
  intros Himp [Hr Hs Hf Hte Htl]. split; eauto.
Qed.

Section FilterSort.
Context {A : Type} (comparefn : A -> A -> number) (l : list A).
Hypothesis Hcons : consistent comparefn (fun x => In x l).

Lemma In_self_Forall : Forall (fun x => In x l) l.
Proof. apply List.Forall_forall. auto. Qed.

Lemma Array_sort_idempotent :
  Array_sort comparefn (Array_sort comparefn l) = Array_sort comparefn l.
Proof using Hcons.
  apply Array_sort_fixed.
  apply (Array_sort_conforming comparefn _ Hcons l In_self_Forall).
Qed.

(** Filtering the sorted list is sorting the filtered list. *)
Lemma filter_Array_sort (p : A -> bool) :
  List.filter p (Array_sort comparefn l)
  = Array_sort comparefn (List.filter p l).
Proof using Hcons.
  destruct (Array_sort_conforming comparefn _ Hcons l In_self_Forall)
    as (Hperm & Hsorted & Hstable).
  apply (conforming_unique comparefn (fun x => In x l) Hcons).
  - apply List.Forall_forall. intros x Hx. apply filter_In in Hx as [Hx _].
    exact Hx.
  - split; [apply Permutation_filter, Hperm|].
    split; [apply StronglySorted_filter, Hsorted|].
    intros x Hx. apply filter_In in Hx as [Hx _].
    rewrite filter_comm, (Hstable x Hx). apply filter_comm.
Qed.

End FilterSort.

(** Ordering by code units is a consistent comparator. *)
Lemma compare_code_units_range (a b : jsstring) :
  compare_code_units a b = (-1)%Z \/ compare_code_units a b = 0%Z \/
  compare_code_units a b = 1%Z.
Proof.
  revert b. induction a as [|x a IH]; intros [|y b]; cbn; auto.
  destruct (x <? y)%N; auto. destruct (y <? x)%N; auto.
Qed.

Lemma compare_code_units_eq (a b : jsstring) :
  compare_code_units a b = 0%Z <-> a = b.
Proof.
  revert b. induction a as [|x a IH]; intros [|y b]; cbn;
    try (split; [discriminate | discriminate]); [tauto|].
  destruct (N.ltb_spec x y); [split; [discriminate | intros [= -> ->]; lia]|].
  destruct (N.ltb_spec y x); [split; [discriminate | intros [= -> ->]; lia]|].
  rewrite IH. assert (x = y) as -> by lia.
  split; [intros ->; reflexivity | intros [= ->]; reflexivity].
Qed.

Lemma compare_code_units_flip (a b : jsstring) :
  (compare_code_units a b < 0)%Z <-> (0 < compare_code_units b a)%Z.
Proof.
  revert b. induction a as [|x a IH]; intros [|y b]; cbn; try lia.
  destruct (N.ltb_spec x y), (N.ltb_spec y x); try lia. apply IH.
Qed.

Lemma compare_code_units_trans (a b c : jsstring) :
  (compare_code_units a b < 0)%Z -> (compare_code_units b c < 0)%Z ->
  (compare_code_units a c < 0)%Z.
Proof.
  revert b c. induction a as [|x a IH]; intros [|y b] [|z c]; cbn; try lia.
  destruct (N.ltb_spec x y), (N.ltb_spec y x), (N.ltb_spec y z),
    (N.ltb_spec z y), (N.ltb_spec x z), (N.ltb_spec z x); try lia.
  apply IH.
Qed.

Lemma ExampleHost_by_text_consistent (P : Note -> Prop) :
  consistent (@by_text ExampleHost) P.
Proof.
  assert (forall a b, SortCompare (@by_text ExampleHost) a b
                      = compare_code_units (text a) (text b)) as Hcmp
    by reflexivity.
  split; intros *; rewrite ?Hcmp.
  - intros _. apply compare_code_units_eq. reflexivity.
  - intros _ _ E. apply compare_code_units_eq in E.
    apply compare_code_units_eq. congruence.
  - intros _ _. apply compare_code_units_flip.
  - intros _ _ _ E1 E2. apply compare_code_units_eq in E1, E2.
    apply compare_code_units_eq. congruence.
  - intros _ _ _. apply compare_code_units_trans.
Qed.

Lemma sampleNotes_valid : Forall (@valid_date ExampleHost) sampleNotes.
Proof. repeat constructor; eexists; vm_compute; reflexivity. Qed.

Section MoreNoteSorting.
Context `{Host}.

(** The comparator [sortNotes] selects. *)
Lemma sortNotes_comparator (sortBy : jsstring) :
  exists comparefn,
    (forall l, sortNotes l sortBy = Array_sort comparefn l) /\
    (comparefn = by_text \/ comparefn = by_status \/ comparefn = by_date).
Proof.
  unfold sortNotes. repeat case_decide; eauto 6.
Qed.

Lemma selected_comparator_consistent (notes : list Note)
  (comparefn : Note -> Note -> number) :
  Forall valid_date notes ->
  consistent by_text (fun n => In n notes) ->
  comparefn = by_text \/ comparefn = by_status \/ comparefn = by_date ->
  consistent comparefn (fun n => In n notes).
Proof.
  intros Hv Ht [-> | [-> | ->]]; [exact Ht| |];
    rewrite List.Forall_forall in Hv;
    eapply consistent_weaken;
    eauto using by_status_consistent, by_date_consistent.
Qed.

(** X4: sorting what is already sorted by the same criterion changes
    nothing, when the dates are valid and the collation is a consistent
    comparator on the texts. *)
Theorem sortNotes_idempotent (notes : list Note) (sortBy : jsstring)
  (Hdates : Forall valid_date notes)
  (Htext : consistent by_text (fun n => In n notes)) :
  sortNotes (sortNotes notes sortBy) sortBy = sortNotes notes sortBy.
Proof.
  destruct (sortNotes_comparator sortBy) as (comparefn & Hsort & Hwhich).
  rewrite !Hsort. apply Array_sort_idempotent.
  apply selected_comparator_consistent; assumption.
Qed.

(** X5: sorting commutes with filtering by status and with searching:
    the view is the same whichever is done first. *)
Theorem sort_commutes_with_views (notes : list Note)
  (sortBy filter query : jsstring)
  (Hdates : Forall valid_date notes)
  (Htext : consistent by_text (fun n => In n notes)) :
  filterNotesByStatus (sortNotes notes sortBy) filter
  = sortNotes (filterNotesByStatus notes filter) sortBy /\
  searchNotes (sortNotes notes sortBy) query
  = sortNotes (searchNotes notes query) sortBy.
Proof.
  destruct (sortNotes_comparator sortBy) as (comparefn & Hsort & Hwhich).
  destruct (filterNotesByStatus_filter filter) as [p Hp].
  destruct (searchNotes_as_filter query) as [q Hq].
  pose proof (selected_comparator_consistent notes comparefn Hdates Htext
                Hwhich) as Hcons.
  rewrite !Hsort, !Hp, !Hq.
  split; apply filter_Array_sort, Hcons.
Qed.

(** X6: sorted alphabetically, no note comes before one whose text the
    collation puts first, and notes whose texts collate as equal keep the
    order they had. *)
Theorem sortNotes_alphabetical_order (notes : list Note)
  (Htext : consistent by_text (fun n => In n notes)) :
  (forall i j a b, (i < j)%nat ->
     sortNotes notes (js "alphabetical") !! i = Some a ->
     sortNotes notes (js "alphabetical") !! j = Some b ->
     (localeCompare (text a) (text b) <= 0)%Z) /\
  (forall x, In x notes ->
     List.filter (fun n => (localeCompare (text x) (text n) =? 0)%Z)
       (sortNotes notes (js "alphabetical"))
     = List.filter (fun n => (localeCompare (text x) (text n) =? 0)%Z) notes).
Proof.
  assert (sortNotes notes (js "alphabetical") = Array_sort by_text notes)
    as -> by reflexivity.
  destruct (Array_sort_conforming by_text _ Htext notes (In_self_Forall notes))
    as (_ & Hsorted & Hstable).
  split.
  - intros i j a b Hij Hi Hj.
    apply (StronglySorted_lookup _ _ Hsorted i j a b Hij Hi Hj).
  - intros x Hx. apply (Hstable x Hx).
Qed.

Lemma filter_nothing {A} (p : A -> bool) (l : list A) :
  (forall x, In x l -> p x = false) -> List.filter p l = [].
Proof.
  intros Hnone. induction l as [|x l IH]; [reflexivity|]. cbn [List.filter].
  rewrite (Hnone x (or_introl eq_refl)). apply IH. intros y Hy.
  apply Hnone. right. exact Hy.
Qed.

(** X7: sorted by date, notes created at the same instant keep the order
    they had; sorted by status, so do notes of one status created at the
    same instant. *)
Theorem sortNotes_ties_keep_order (notes : list Note) (t : Z) (d : bool)
  (Hdates : Forall valid_date notes) :
  List.filter (fun n => (time_of n =? t)%Z) (sortNotes notes (js "date"))
  = List.filter (fun n => (time_of n =? t)%Z) notes /\
  List.filter (fun n => (time_of n =? t)%Z && Bool.eqb (done n) d)
    (sortNotes notes (js "status"))
  = List.filter (fun n => (time_of n =? t)%Z && Bool.eqb (done n) d) notes.
Proof.
  assert (sortNotes notes (js "date") = Array_sort by_date notes) as ->
    by reflexivity.
  assert (sortNotes notes (js "status") = Array_sort by_status notes) as ->
    by reflexivity.
  pose proof (Forall_Array_sort by_date valid_date notes Hdates) as Vd.
  pose proof (Forall_Array_sort by_status valid_date notes Hdates) as Vs.
  rewrite List.Forall_forall in Hdates, Vd, Vs.
  assert (forall x n, valid_date x -> valid_date n ->
            same_rank by_date x n = (time_of n =? time_of x)%Z) as Rd.
  { intros x n [tx Hx] [tn Hn]. unfold same_rank, SortCompare, by_date, time_of.
    rewrite Hx, Hn. cbn.
    destruct (Z.eqb_spec (tn - tx) 0), (Z.eqb_spec tn tx); lia || reflexivity. }
  assert (forall x n, valid_date x -> valid_date n ->
            same_rank by_status x n
            = (time_of n =? time_of x)%Z && Bool.eqb (done n) (done x)) as Rs.
  { intros x n [tx Hx] [tn Hn].
    unfold same_rank, SortCompare, by_status, time_of. rewrite Hx, Hn.
    destruct (done x), (done n); cbn;
      rewrite ?andb_true_r, ?andb_false_r; try reflexivity;
      destruct (Z.eqb_spec (tn - tx) 0), (Z.eqb_spec tn tx);
      lia || reflexivity. }
  split.
  - destruct (List.find (fun n => (time_of n =? t)%Z) notes) as [x|] eqn:Hfind.
    + apply find_some in Hfind as [Hx Ht]. apply Z.eqb_eq in Ht. subst t.
      transitivity (List.filter (same_rank by_date x) (Array_sort by_date notes)).
      { apply filter_ext_in. intros n Hn. symmetry. apply Rd; auto. }
      rewrite (Array_sort_stable by_date valid_date by_date_consistent x)
        by (try apply List.Forall_forall; auto).
      apply filter_ext_in. intros n Hn. apply Rd; auto.
    + rewrite !filter_nothing; [reflexivity| |].
      * intros n Hn. apply (find_none _ _ Hfind n Hn).
      * intros n Hn. apply (find_none _ _ Hfind n).
        apply (Permutation_in _
                 (Permutation_sym (Array_sort_Permutation by_date notes))), Hn.
  - destruct (List.find
                (fun n => (time_of n =? t)%Z && Bool.eqb (done n) d) notes)
      as [x|] eqn:Hfind.
    + apply find_some in Hfind as [Hx Ht]. apply andb_true_iff in Ht as [Ht Hd].
      apply Z.eqb_eq in Ht. apply Bool.eqb_prop in Hd. subst t d.
      transitivity
        (List.filter (same_rank by_status x) (Array_sort by_status notes)).
      { apply filter_ext_in. intros n Hn. symmetry. apply Rs; auto. }
      rewrite (Array_sort_stable by_status valid_date by_status_consistent x)
        by (try apply List.Forall_forall; auto).
      apply filter_ext_in. intros n Hn. apply Rs; auto.
    + rewrite !filter_nothing; [reflexivity| |].
      * intros n Hn. apply (find_none _ _ Hfind n Hn).
      * intros n Hn. apply (find_none _ _ Hfind n).
        apply (Permutation_in _
                 (Permutation_sym (Array_sort_Permutation by_status notes))), Hn.
Qed.

End MoreNoteSorting.

Lemma sortNotes_idempotent_witness :
  @sortNotes ExampleHost (@sortNotes ExampleHost sampleNotes (js "alphabetical"))
    (js "alphabetical")
  = @sortNotes ExampleHost sampleNotes (js "alphabetical").
Proof.
  apply (@sortNotes_idempotent ExampleHost sampleNotes (js "alphabetical")).
  - repeat constructor; eexists; vm_compute; reflexivity.
  - apply ExampleHost_by_text_consistent.
Defined.

Lemma sort_commutes_with_views_witness :
  filterNotesByStatus (@sortNotes ExampleHost sampleNotes (js "status"))
    (js "open")
  = @sortNotes ExampleHost (filterNotesByStatus sampleNotes (js "open"))
      (js "status").
Proof.
  refine (proj1 (@sort_commutes_with_views ExampleHost sampleNotes
                   (js "status") (js "open") (js "o") _ _)).
  - repeat constructor; eexists; vm_compute; reflexivity.
  - apply ExampleHost_by_text_consistent.
Defined.

Lemma sortNotes_alphabetical_order_witness :
  List.filter
    (fun n => (compare_code_units (js "Buy groceries") (text n) =? 0)%Z)
    (@sortNotes ExampleHost sampleNotes (js "alphabetical"))
  = List.filter
      (fun n => (compare_code_units (js "Buy groceries") (text n) =? 0)%Z)
      sampleNotes.
Proof.
  refine (proj2 (@sortNotes_alphabetical_order ExampleHost sampleNotes _)
            (mkNote (js "1") (js "Buy groceries") false
               (js "2023-01-01T10:00:00.000Z")) _).
  - apply ExampleHost_by_text_consistent.
  - left. reflexivity.
Defined.

Lemma sortNotes_ties_keep_order_witness :
  List.filter (fun n => (@time_of ExampleHost n =? 1672567200000)%Z)
    (@sortNotes ExampleHost sampleNotes (js "date"))
  = List.filter (fun n => (@time_of ExampleHost n =? 1672567200000)%Z)
      sampleNotes.
Proof.
  refine (proj1 (@sortNotes_ties_keep_order ExampleHost sampleNotes
                   1672567200000%Z false _)).
  repeat constructor; eexists; vm_compute; reflexivity.
Defined.

(* ===================================================================== *)
(** ** More on statistics and creation *)
(* ===================================================================== *)

Lemma filter_length_Permutation {A} (p : A -> bool) (l l' : list A) :
  Permutation l l' -> length (List.filter p l) = length (List.filter p l').
Proof. intros Hp. apply Permutation_length, Permutation_filter, Hp. Qed.

Lemma filter_length_split {A} (p : A -> bool) (l : list A) :
  length (List.filter (fun x => negb (p x)) l) + length (List.filter p l)
  = length l.
Proof.
  pose proof (filter_partition_Permutation p l) as Hp.
  apply Permutation_length in Hp. rewrite length_app in Hp. lia.
Qed.

Lemma sortNotes_Permuted `{Host} (notes : list Note) (sortBy : jsstring) :
  Permutation notes (sortNotes notes sortBy).
Proof. unfold sortNotes. repeat case_decide; apply Array_sort_Permutation. Qed.

(** X8: the counts of the statistics are the sizes of the status views,
    [completed] never exceeds [total], and sorting the notes by any
    criterion leaves every statistic, the rate included, as it was. *)
Theorem calculateStats_views `{Host} (notes : list Note) (sortBy : jsstring) :
  completed (calculateStats notes)
  = length (filterNotesByStatus notes (js "done")) /\
  pending (calculateStats notes)
  = length (filterNotesByStatus notes (js "open")) /\
  (completed (calculateStats notes) <= total (calculateStats notes))%nat /\
  calculateStats (sortNotes notes sortBy) = calculateStats notes.
Proof.
  pose proof (filter_length_split (fun n => done n) notes) as Hlen.
  pose proof (filter_length_le (fun n => done n) notes) as Hle.
  pose proof (sortNotes_Permuted notes sortBy) as Hperm.
  change (filterNotesByStatus notes (js "done"))
    with (List.filter (fun n => done n) notes).
  change (filterNotesByStatus notes (js "open"))
    with (List.filter (fun n => negb (done n)) notes).
  unfold calculateStats; cbn [total completed pending completionRate].
  split; [reflexivity|]. split; [lia|]. split; [exact Hle|].
  rewrite <- (Permutation_length Hperm).
  rewrite <- (filter_length_Permutation (fun n => done n) _ _ Hperm).
  reflexivity.
Qed.

Lemma trimStart_head (s : jsstring) (c : N) (r : jsstring) :
  JsString.trimStart s = c :: r -> JsString.is_white_space c = false.
Proof.
  induction s as [|x s IH]; [discriminate|]. cbn [JsString.trimStart].
  destruct (JsString.is_white_space x) eqn:Hx; [exact IH|].
  intros [= <- _]. exact Hx.
Qed.

Lemma trimStart_fixed (s : jsstring) :
  (forall c r, s = c :: r -> JsString.is_white_space c = false) ->
  JsString.trimStart s = s.
Proof.
  intros Hhead. destruct s as [|c r]; [reflexivity|].
  cbn [JsString.trimStart]. rewrite (Hhead c r eq_refl). reflexivity.
Qed.

Lemma trim_trimmed (s : jsstring) : trimmed (JsString.trim s).
Proof.
  unfold trimmed, JsString.trim, JsString.trimEnd. split.
  - intros c r Hc.
    destruct (trimEnd_prefix (JsString.trimStart s)) as [post Hpost].
    unfold JsString.trimEnd in Hpost. rewrite Hc in Hpost.
    apply (trimStart_head s c (r ++ post)). exact Hpost.
  - intros c r Hc.
    apply (trimStart_head (rev (JsString.trimStart s)) c (rev r)).
    rewrite <- (rev_involutive (JsString.trimStart _)), Hc, rev_app_distr.
    reflexivity.
Qed.

Lemma trimmed_trim (s : jsstring) : trimmed s -> JsString.trim s = s.
Proof.
  intros [Hhead Hlast]. unfold JsString.trim, JsString.trimEnd.
  rewrite (trimStart_fixed s Hhead).
  rewrite trimStart_fixed; [apply rev_involutive|].
  intros c r Hc. apply (Hlast c (rev r)).
  rewrite <- (rev_involutive s), Hc. reflexivity.
Qed.

(** X9: the text of a created note has no white space at either end, so
    creating from it again gives the same text; the note is open, and one
    identifier and one clock reading are consumed. *)
Theorem createNote_trimmed (text0 : jsstring) (e : Env) :
  trimmed (text (fst (createNote text0 e))) /\
  text (fst (createNote (text (fst (createNote text0 e))) e))
  = text (fst (createNote text0 e)) /\
  done (fst (createNote text0 e)) = false /\
  uuids_drawn (snd (createNote text0 e)) = S (uuids_drawn e) /\
  clock_reads (snd (createNote text0 e)) = S (clock_reads e).
Proof.
  assert (text (fst (createNote text0 e)) = JsString.trim text0) as ->
    by reflexivity.
  split; [apply trim_trimmed|]. split; [|repeat split].
  apply (trimmed_trim _ (trim_trimmed text0)).
Qed.







(* ===================================================================== *)
(** ** More on the repository *)
(* ===================================================================== *)

Lemma JSON_parse_empty_array : JSON_parse (js "[]") = Some (JArray []).
Proof. reflexivity. Qed.

Lemma JSON_parse_empty_text : JSON_parse [] = None.
Proof. reflexivity. Qed.


(** X11: each operation of the repository makes one call on the store, on
    the key "notes.v1": loading never writes, and saving and clearing leave
    every other key as it was. *)
Theorem repository_footprint (notes : list Note) (w : World localStorageMock)
  (k : jsstring) (Hk : k <> STORAGE_KEY) :
  store (storage (snd (loadNotes w))) = store (storage w) /\
  calls (storage (snd (loadNotes w)))
  = calls (storage w) ++ [GetItem STORAGE_KEY] /\
  store (storage (snd (saveNotes notes w))) !! k = store (storage w) !! k /\
  calls (storage (snd (saveNotes notes w)))
  = calls (storage w) ++ [SetItem STORAGE_KEY (JSON_stringify_notes notes)] /\
  store (storage (snd (clearNotes w))) !! k = store (storage w) !! k /\
  calls (storage (snd (clearNotes w)))
  = calls (storage w) ++ [RemoveItem STORAGE_KEY].
Proof.
  rewrite loadNotes_unfold, saveNotes_unfold, clearNotes_unfold.
  cbn [getItem setItem removeItem localStorageMock_LocalStorage mock_getItem
         mock_setItem mock_removeItem snd storage store calls].
  assert (forall (v : option jsstring) (m : localStorageMock) (c : list log_entry),
            storage
              (snd
                 match v with
                 | Some payload =>
                     if JsString.truthy payload then
                       match JSON_parse payload with
                       | Some j => (Normal j, mkWorld m c)
                       | None =>
                           (Normal (JArray []),
                            mkWorld m (c ++ [load_warning SyntaxError]))
                       end
                     else (Normal (JArray []), mkWorld m c)
                 | None => (Normal (JArray []), mkWorld m c)
                 end) = m) as Hload.
  { intros [payload|] m c; [|reflexivity].
    destruct (JsString.truthy payload); [|reflexivity].
    destruct (JSON_parse payload); reflexivity. }
  rewrite !Hload. cbn [store calls].
  repeat split.
  - apply lookup_insert_ne. congruence.
  - apply lookup_delete_ne. congruence.
Qed.

Lemma repository_footprint_witness :
  store (storage (snd (saveNotes sampleNotes
                         (mkWorld (mkMock {[ js "theme" := js "dark" ]} []) []))))
    !! js "theme" = Some (js "dark").
Proof.
  destruct (repository_footprint sampleNotes
              (mkWorld (mkMock {[ js "theme" := js "dark" ]} []) [])
              (js "theme")) as (_ & _ & Hsave & _).
  - vm_compute. congruence.
  - rewrite Hsave. vm_compute. reflexivity.
Defined.

Section LegacyFacts.
Context {S : Type} `{LocalStorage S}.

Lemma legacy_loadNotes_unfold (w : World S) :
  LegacyApp.loadNotes w =
  match getItem STORAGE_KEY (storage w) with
  | (Throw e, s') => (Normal (JArray []), mkWorld s' (console w))
  | (Normal None, s') => (Normal (JArray []), mkWorld s' (console w))
  | (Normal (Some payload), s') =>
      match JSON_parse payload with
      | Some v => (Normal v, mkWorld s' (console w))
      | None => (Normal (JArray []), mkWorld s' (console w))
      end
  end.
Proof.
  unfold LegacyApp.loadNotes, try_catch, bind, on_storage, JSON_parse_M, ret,
    throw.
  change LegacyApp.KEY with STORAGE_KEY.
  destruct (getItem STORAGE_KEY (storage w)) as [[[payload|]|e] s'];
    try reflexivity.
  destruct (JSON_parse payload); reflexivity.
Qed.

Lemma legacy_saveNotes_unfold (notes : list Note) (w : World S) :
  LegacyApp.saveNotes notes w =
  match setItem STORAGE_KEY (JSON_stringify_notes notes) (storage w) with
  | (c, s') => (c, mkWorld s' (console w))
  end.
Proof. reflexivity. Qed.

(** X12: the earlier [loadNotes] returns, in every state of the store, the
    value the module's [loadNotes] returns, and leaves the store the same;
    it differs only in never logging. *)
Theorem legacy_loadNotes_agrees (w : World S) :
  fst (LegacyApp.loadNotes w) = fst (loadNotes w) /\
  storage (snd (LegacyApp.loadNotes w)) = storage (snd (loadNotes w)) /\
  console (snd (LegacyApp.loadNotes w)) = console w.
Proof.
  rewrite loadNotes_unfold, legacy_loadNotes_unfold.
  destruct (getItem STORAGE_KEY (storage w)) as [[[payload|]|e] s'];
    cbn [fst snd storage console]; auto.
  destruct payload as [|c r] eqn:Hp.
  - rewrite JSON_parse_empty_text. cbn. auto.
  - cbn [JsString.truthy]. destruct (JSON_parse (c :: r)); cbn; auto.
Qed.

(** X13: the earlier [saveNotes] lets an error of the store escape to its
    caller, where the module's [saveNotes] completes and logs it; when the
    store accepts the write the two do the same. *)
Theorem legacy_saveNotes_throws (notes : list Note) (w : World S) :
  (forall e s',
     setItem STORAGE_KEY (JSON_stringify_notes notes) (storage w)
     = (Throw e, s') ->
     LegacyApp.saveNotes notes w = (Throw e, mkWorld s' (console w)) /\
     saveNotes notes w
     = (Normal tt, mkWorld s' (console w ++ [save_error e]))) /\
  (forall s',
     setItem STORAGE_KEY (JSON_stringify_notes notes) (storage w)
     = (Normal tt, s') ->
     LegacyApp.saveNotes notes w = saveNotes notes w).
Proof.
  rewrite saveNotes_unfold, legacy_saveNotes_unfold.
  split.
  - intros e s' ->. auto.
  - intros s' ->. reflexivity.
Qed.

(** X14: the two versions share the key and the format: on a healthy store,
    notes saved by either version are loaded by the other. *)
Theorem versions_interoperate (notes : list Note) (w : World S)
  (Hhealthy : healthy (storage w) STORAGE_KEY (JSON_stringify_notes notes)) :
  (exists w1, LegacyApp.saveNotes notes w = (Normal tt, w1) /\
              fst (loadNotes w1) = Normal (json_of_notes notes)) /\
  (exists w1, saveNotes notes w = (Normal tt, w1) /\
              fst (LegacyApp.loadNotes w1) = Normal (json_of_notes notes)).
Proof.
  destruct Hhealthy as (s1 & s2 & Hset & Hget).
  split; exists (mkWorld s1 (console w)); split.
  - rewrite legacy_saveNotes_unfold, Hset. reflexivity.
  - rewrite loadNotes_unfold. cbn [storage console]. rewrite Hget.
    rewrite JSON_stringify_notes_truthy, JSON_parse_stringify_notes.
    reflexivity.
  - rewrite saveNotes_unfold, Hset. reflexivity.
  - rewrite legacy_loadNotes_unfold. cbn [storage console]. rewrite Hget.
    rewrite JSON_parse_stringify_notes. reflexivity.
Qed.

End LegacyFacts.

Lemma legacy_saveNotes_throws_witness :
  LegacyApp.saveNotes sampleNotes (example_world None 10)
  = (Throw (DOMException "QuotaExceededError"), example_world None 10).
Proof.
  destruct (legacy_saveNotes_throws sampleNotes (example_world None 10))
    as [Hthrow _].
  apply Hthrow. vm_compute. reflexivity.
Defined.

Lemma versions_interoperate_witness :
  exists w1,
    LegacyApp.saveNotes sampleNotes (example_world None 1000) = (Normal tt, w1) /\
    fst (loadNotes w1) = Normal (json_of_notes sampleNotes).
Proof.
  refine (proj1 (versions_interoperate sampleNotes (example_world None 1000) _)).
  eexists _, _. split; vm_compute; reflexivity.
Defined.

(* ===================================================================== *)
(** ** The application component *)
(* ===================================================================== *)

Lemma toggle_notes (i : jsstring) (s : App.State) :
  App.st_notes (App.toggle i s)
  = List.map (fun n => if decide (id n = i) then toggleNote n else n)
      (App.st_notes s).
Proof. reflexivity. Qed.

Lemma remove_notes (i : jsstring) (s : App.State) :
  App.st_notes (App.remove i s)
  = List.filter (fun n => negb (bool_decide (id n = i))) (App.st_notes s).
Proof. reflexivity. Qed.

Lemma state_eq (s s' : App.State) :
  App.st_notes s = App.st_notes s' ->
  App.st_text s = App.st_text s' ->
  App.st_filter s = App.st_filter s' ->
  App.st_searchQuery s = App.st_searchQuery s' ->
  App.st_sortBy s = App.st_sortBy s' ->
  App.st_focusedInput s = App.st_focusedInput s' ->
  App.st_hoveredNote s = App.st_hoveredNote s' ->
  App.st_hoveredButton s = App.st_hoveredButton s' ->
  s = s'.
Proof. destruct s, s'. cbn. intros; subst; reflexivity. Qed.

Lemma map_toggle_absent (i : jsstring) (ns : list Note) :
  (forall n, In n ns -> id n <> i) ->
  List.map (fun n => if decide (id n = i) then toggleNote n else n) ns = ns.
Proof.
  intros Habsent. induction ns as [|n ns IH]; [reflexivity|]. cbn [List.map].
  rewrite decide_False by (apply Habsent; left; reflexivity).
  rewrite IH; [reflexivity|]. intros m Hm. apply Habsent. right. exact Hm.
Qed.

Lemma map_toggle_twice (i : jsstring) (ns : list Note) :
  List.map (fun n => if decide (id n = i) then toggleNote n else n)
    (List.map (fun n => if decide (id n = i) then toggleNote n else n) ns)
  = ns.
Proof.
  induction ns as [|n ns IH]; [reflexivity|]. cbn [List.map]. rewrite IH.
  f_equal. destruct (decide (id n = i)) as [E|N].
  - rewrite decide_True by exact E. apply toggleNote_involutive.
  - rewrite decide_False by exact N. reflexivity.
Qed.

Lemma done_count_toggle (i : jsstring) (ns : list Note) (n : Note) :
  List.NoDup (List.map id ns) -> In n ns -> id n = i ->
  (done_count
     (List.map (fun m => if decide (id m = i) then toggleNote m else m) ns)
   + (if done n then 1 else 0)
   = done_count ns + (if done n then 0 else 1))%nat.
Proof.
  unfold done_count. intros Hnodup Hin Hid.
  induction ns as [|m ns IH]; [destruct Hin|].
  cbn [List.map] in Hnodup. apply List.NoDup_cons_iff in Hnodup as [Hfresh Hnodup].
  cbn [List.map List.filter]. destruct Hin as [->|Hin].
  - rewrite decide_True by exact Hid.
    rewrite map_toggle_absent.
    + cbn [toggleNote done]. destruct (done n); cbn [negb length]; lia.
    + intros k Hk Ek. apply Hfresh. rewrite Hid, <- Ek.
      apply in_map, Hk.
  - assert (id m <> i) as Hne.
    { intros Em. apply Hfresh. rewrite Em, <- Hid. apply in_map, Hin. }
    rewrite decide_False by exact Hne.
    specialize (IH Hnodup Hin).
    destruct (done m); cbn [length]; lia.
Qed.

(** X15: in every state, toggling by identifier keeps the identifiers,
    their order and the total; toggling twice restores the state; an
    identifier no note has changes nothing; a note with the identifier is
    replaced by its toggled copy and the others are kept; and when
    identifiers are unique, toggling a note moves exactly one unit between
    the completed and pending counts. *)
Theorem toggle_spec (i : jsstring) (s : App.State) :
  List.map id (App.st_notes (App.toggle i s)) = List.map id (App.st_notes s) /\
  App.total (App.stats (App.toggle i s)) = App.total (App.stats s) /\
  App.toggle i (App.toggle i s) = s /\
  (forall j, (forall m, In m (App.st_notes s) -> id m <> j) ->
             App.toggle j s = s) /\
  (forall n, In n (App.st_notes s) -> id n = i ->
             In (toggleNote n) (App.st_notes (App.toggle i s))) /\
  (forall m, In m (App.st_notes s) -> id m <> i ->
             In m (App.st_notes (App.toggle i s))) /\
  (forall n, List.NoDup (List.map id (App.st_notes s)) ->
             In n (App.st_notes s) -> id n = i ->
     (App.completed (App.stats (App.toggle i s)) + (if done n then 1 else 0)
      = App.completed (App.stats s) + (if done n then 0 else 1))%nat).
Proof.
  assert (List.map id (App.st_notes (App.toggle i s))
          = List.map id (App.st_notes s)) as Hids.
  { rewrite toggle_notes, map_map. apply map_ext. intros m.
    destruct (decide (id m = i)); reflexivity. }
  split; [exact Hids|]. split.
  { unfold App.stats; cbn [App.total].
    rewrite <- (length_map id), Hids, length_map. reflexivity. }
  split.
  { apply state_eq; try reflexivity.
    rewrite !toggle_notes. apply map_toggle_twice. }
  split.
  { intros j Habsent. apply state_eq; try reflexivity.
    rewrite toggle_notes. apply map_toggle_absent, Habsent. }
  split.
  { intros n Hin Hid. rewrite toggle_notes.
    apply in_map_iff. exists n. rewrite decide_True by exact Hid. auto. }
  split.
  { intros m Hm Hne. rewrite toggle_notes.
    apply in_map_iff. exists m. rewrite decide_False by exact Hne. auto. }
  intros n Hunique Hin Hid.
  unfold App.stats; cbn [App.completed]. rewrite toggle_notes.
  apply (done_count_toggle i _ n Hunique Hin Hid).
Qed.

Lemma toggle_spec_witness :
  App.completed (App.stats (App.toggle (js "2") example_state)) = 0%nat /\
  App.toggle (js "2") (App.toggle (js "2") example_state) = example_state.
Proof.
  destruct (toggle_spec (js "2") example_state)
    as (_ & _ & Htwice & _ & _ & _ & Hcount).
  split; [|exact Htwice].
  specialize (Hcount (mkNote (js "2") (js "Walk the dog") true
                        (js "2023-01-01T11:00:00.000Z"))).
  cbn [done] in Hcount.
  change (App.completed (App.stats example_state)) with 1%nat in Hcount.
  enough (App.completed (App.stats (App.toggle (js "2") example_state)) + 1
          = 1 + 0)%nat by lia.
  apply Hcount.
  - vm_compute. repeat constructor; cbn; intuition discriminate.
  - right. left. reflexivity.
  - reflexivity.
Defined.

Lemma filter_id_absent (i : jsstring) (ns : list Note) :
  (forall m, In m ns -> id m <> i) ->
  List.filter (fun m => negb (bool_decide (id m = i))) ns = ns.
Proof.
  intros Habsent. induction ns as [|m ms IH]; [reflexivity|].
  cbn [List.filter].
  rewrite bool_decide_eq_false_2 by (apply Habsent; left; reflexivity).
  cbn [negb]. f_equal. apply IH. intros k Hk. apply Habsent. right. exact Hk.
Qed.

Lemma filter_id_unique (i : jsstring) (ns : list Note) (n : Note) :
  List.NoDup (List.map id ns) -> In n ns -> id n = i ->
  Permutation ns (n :: List.filter (fun m => negb (bool_decide (id m = i))) ns).
Proof.
  intros Hunique Hin Hid. induction ns as [|m ms IH]; [destruct Hin|].
  cbn [List.map] in Hunique.
  apply List.NoDup_cons_iff in Hunique as [Hfresh Hunique].
  cbn [List.filter]. destruct Hin as [->|Hin].
  - rewrite bool_decide_eq_true_2 by exact Hid. cbn [negb].
    apply perm_skip. rewrite filter_id_absent; [reflexivity|].
    intros k Hk Ek. apply Hfresh. rewrite Hid, <- Ek. apply in_map, Hk.
  - assert (id m <> i) as Hne.
    { intros Em. apply Hfresh. rewrite Em, <- Hid. apply in_map, Hin. }
    rewrite bool_decide_eq_false_2 by exact Hne. cbn [negb].
    rewrite perm_swap. apply perm_skip. apply IH; assumption.
Qed.

(** X16: in every state, removing by identifier leaves no note with that
    identifier, keeps every other note in its place, leaves the state as
    it was when no note has the identifier, and is idempotent; with unique
    identifiers it removes exactly one note. *)
Theorem remove_spec (i : jsstring) (s : App.State) :
  Forall (fun m => id m <> i) (App.st_notes (App.remove i s)) /\
  sublist (App.st_notes (App.remove i s)) (App.st_notes s) /\
  (forall m, In m (App.st_notes s) -> id m <> i ->
             In m (App.st_notes (App.remove i s))) /\
  (forall j, (forall m, In m (App.st_notes s) -> id m <> j) ->
             App.remove j s = s) /\
  App.remove i (App.remove i s) = App.remove i s /\
  (forall n, List.NoDup (List.map id (App.st_notes s)) ->
             In n (App.st_notes s) -> id n = i ->
     S (length (App.st_notes (App.remove i s))) = length (App.st_notes s) /\
     Permutation (App.st_notes s) (n :: App.st_notes (App.remove i s))).
Proof.
  rewrite !remove_notes.
  split.
  { apply List.Forall_forall. intros m Hm. apply filter_In in Hm as [_ Hm].
    apply negb_true_iff, bool_decide_eq_false in Hm. exact Hm. }
  split; [apply filter_sublist|].
  split.
  { intros m Hm Hne. apply filter_In. split; [exact Hm|].
    apply negb_true_iff, bool_decide_eq_false. exact Hne. }
  split.
  { intros j Habsent. apply state_eq; try reflexivity.
    rewrite remove_notes. apply filter_id_absent, Habsent. }
  split.
  { apply state_eq; try reflexivity. rewrite !remove_notes. apply filter_idem. }
  intros n Hunique Hin Hid.
  pose proof (filter_id_unique i _ n Hunique Hin Hid) as Hperm.
  split; [|exact Hperm].
  apply Permutation_length in Hperm. cbn [length] in Hperm. lia.
Qed.

Lemma remove_spec_witness :
  S (length (App.st_notes (App.remove (js "2") example_state)))
  = length (App.st_notes example_state).
Proof.
  destruct (remove_spec (js "2") example_state)
    as (_ & _ & _ & _ & _ & Hone).
  refine (proj1 (Hone (mkNote (js "2") (js "Walk the dog") true
                         (js "2023-01-01T11:00:00.000Z")) _ _ _)).
  - vm_compute. repeat constructor; cbn; intuition discriminate.
  - right. left. reflexivity.
  - reflexivity.
Defined.

Lemma add_unfold (s : App.State) (e : Env) :
  App.add s e
  = if App.add_disabled s then (s, e)
    else (App.setText []
            (App.setNotes
               (fst (createNote (App.st_text s) e) :: App.st_notes s) s),
          snd (createNote (App.st_text s) e)).
Proof.
  unfold App.add, App.add_disabled.
  destruct (JsString.trim (App.st_text s)) as [|c r] eqn:Htrim;
    cbn [JsString.truthy negb]; [reflexivity|].
  unfold createNote, randomUUID, Date_now. cbn. rewrite Htrim. reflexivity.
Qed.

(** X17: [add] does nothing exactly when the Add button is disabled, that
    is when the input is blank; otherwise it puts in front of the notes
    the note [createNote] makes from the input, clears the input, and
    leaves the other notes and the view settings as they were. *)
Theorem add_spec (s : App.State) (e : Env) :
  (App.add_disabled s = true -> App.add s e = (s, e)) /\
  (App.add_disabled s = false ->
   App.add s e
   = (App.setText []
        (App.setNotes (fst (createNote (App.st_text s) e) :: App.st_notes s) s),
      snd (createNote (App.st_text s) e))) /\
  (App.add_disabled s = false <-> fst (App.add s e) <> s) /\
  (JsString.trim (App.st_text s) = [] <-> App.add_disabled s = true).
Proof.
  rewrite add_unfold.
  assert (JsString.trim (App.st_text s) = [] <-> App.add_disabled s = true)
    as Hblank.
  { unfold App.add_disabled.
    destruct (JsString.trim (App.st_text s)); cbn; split; congruence. }
  destruct (App.add_disabled s).
  - repeat split; try discriminate; try reflexivity; try apply Hblank.
    intros Hne. exfalso. apply Hne. reflexivity.
  - split; [discriminate|]. split; [reflexivity|].
    split; [|exact Hblank]. split; [|reflexivity].
    intros _ Heq. apply (f_equal App.st_notes) in Heq.
    apply (f_equal (@length Note)) in Heq. cbn in Heq. lia.
Qed.

Lemma add_spec_witness :
  List.map text (App.st_notes (fst (App.add example_state example_env)))
  = js "Call mum" :: List.map text sampleNotes /\
  App.st_text (fst (App.add example_state example_env)) = [].
Proof.
  destruct (add_spec example_state example_env) as (_ & Hadd & _).
  rewrite Hadd by reflexivity. split; vm_compute; reflexivity.
Defined.

(** X18: removing the note just added gives back the notes there were,
    provided the identifier drawn for it is not one already in use. *)
Theorem add_then_remove (s : App.State) (e : Env)
  (Henabled : App.add_disabled s = false)
  (Hfresh : forall n, In n (App.st_notes s) ->
                      id n <> uuid_source e (uuids_drawn e)) :
  App.st_notes
    (App.remove (uuid_source e (uuids_drawn e)) (fst (App.add s e)))
  = App.st_notes s.
Proof.
  rewrite add_unfold, Henabled.
  rewrite remove_notes. cbn [fst App.setText App.setNotes App.st_notes].
  cbn [List.filter].
  assert (id (fst (createNote (App.st_text s) e))
          = uuid_source e (uuids_drawn e)) as Hid by reflexivity.
  rewrite bool_decide_eq_true_2 by exact Hid. cbn [negb].
  apply filter_id_absent, Hfresh.
Qed.

Lemma add_then_remove_witness :
  App.st_notes
    (App.remove (js "note-0000") (fst (App.add example_state example_env)))
  = sampleNotes.
Proof.
  apply (add_then_remove example_state example_env).
  - reflexivity.
  - intros n [<-|[<-|[<-|[]]]]; vm_compute; congruence.
Defined.

Lemma NoDup_map_filter {A B} (f : A -> B) (p : A -> bool) (l : list A) :
  List.NoDup (List.map f l) -> List.NoDup (List.map f (List.filter p l)).
Proof.
  induction l as [|x l IH]; [intros; constructor|].
  cbn [List.map List.filter]. intros Hnd.
  apply List.NoDup_cons_iff in Hnd as [Hfresh Hnd].
  destruct (p x); [|apply IH, Hnd]. cbn [List.map].
  constructor; [|apply IH, Hnd].
  intros Hin. apply Hfresh. apply in_map_iff in Hin as (y & Hy & Hin).
  apply filter_In in Hin as [Hin _]. rewrite <- Hy. apply in_map, Hin.
Qed.

(** X19: the three handlers keep identifiers unique: toggling and removing
    always, adding whenever the identifier drawn is not already in use. *)
Theorem handlers_keep_ids_unique (i : jsstring) (s : App.State) (e : Env)
  (Hunique : List.NoDup (List.map id (App.st_notes s)))
  (Hfresh : forall n, In n (App.st_notes s) ->
                      id n <> uuid_source e (uuids_drawn e)) :
  List.NoDup (List.map id (App.st_notes (App.toggle i s))) /\
  List.NoDup (List.map id (App.st_notes (App.remove i s))) /\
  List.NoDup (List.map id (App.st_notes (fst (App.add s e)))).
Proof.
  split.
  { replace (List.map id (App.st_notes (App.toggle i s)))
      with (List.map id (App.st_notes s)); [exact Hunique|].
    rewrite toggle_notes, map_map. apply map_ext. intros m.
    destruct (decide (id m = i)); reflexivity. }
  split; [rewrite remove_notes; apply NoDup_map_filter, Hunique|].
  rewrite add_unfold.
  destruct (App.add_disabled s).
  - exact Hunique.
  - cbn [fst App.setText App.setNotes App.st_notes List.map].
    constructor; [|exact Hunique].
    intros Hin. apply in_map_iff in Hin as (n & Hn & Hin).
    apply (Hfresh n Hin). exact Hn.
Qed.

Lemma handlers_keep_ids_unique_witness :
  List.NoDup
    (List.map id (App.st_notes (fst (App.add example_state example_env)))).
Proof.
  refine (proj2 (proj2 (handlers_keep_ids_unique (js "1") example_state
                          example_env _ _))).
  - vm_compute. repeat constructor; cbn; intuition discriminate.
  - intros n [<-|[<-|[<-|[]]]]; vm_compute; congruence.
Defined.

(** X20: removing and toggling commute, whatever the two identifiers. *)
Theorem remove_toggle_commute (i j : jsstring) (s : App.State) :
  App.remove i (App.toggle j s) = App.toggle j (App.remove i s) /\
  App.toggle i (App.toggle j s) = App.toggle j (App.toggle i s) /\
  App.remove i (App.remove j s) = App.remove j (App.remove i s).
Proof.
  repeat split; apply state_eq; try reflexivity;
    rewrite ?remove_notes, ?toggle_notes, ?remove_notes, ?toggle_notes.
  - induction (App.st_notes s) as [|n ns IH]; [reflexivity|].
    cbn [List.map List.filter].
    assert (id (if decide (id n = j) then toggleNote n else n) = id n) as ->
      by (destruct (decide (id n = j)); reflexivity).
    destruct (bool_decide (id n = i)); cbn [negb List.map]; rewrite IH;
      reflexivity.
  - rewrite !map_map. apply map_ext. intros n.
    repeat (progress change (id (toggleNote n)) with (id n) || case_decide);
      reflexivity || contradiction.
  - apply filter_comm.
Qed.

Section ViewFacts.
Context `{Host}.

Lemma compare_selected (sortBy : jsstring) (l : list Note) :
  Array_sort (App.compare sortBy) l = sortNotes l sortBy.
Proof.
  unfold sortNotes, App.compare.
  repeat case_decide; apply Array_sort_ext; reflexivity.
Qed.

Lemma processedNotes_unfold (s : App.State) :
  App.processedNotes s
  = sortNotes
      (filterNotesByStatus
         (searchNotes (App.st_notes s) (App.st_searchQuery s))
         (App.st_filter s))
      (App.st_sortBy s).
Proof.
  unfold App.processedNotes. cbv zeta. rewrite compare_selected.
  f_equal. unfold filterNotesByStatus, searchNotes.
  destruct (JsString.truthy (JsString.trim (App.st_searchQuery s)));
    cbn [negb];
    destruct (decide (App.st_filter s = js "open")) as [Ho|Ho];
    destruct (decide (App.st_filter s = js "done")) as [Hd|Hd];
    try reflexivity;
    rewrite Ho in Hd; vm_compute in Hd; discriminate Hd.
Qed.

(** X21: the list the component shows is the storage module's own
    functions in a row: search, then filter by status, then sort.  Every
    note shown is one of the notes, and on the first render all of them
    are shown. *)
Theorem processedNotes_pipeline (s : App.State) :
  App.processedNotes s
  = sortNotes
      (filterNotesByStatus
         (searchNotes (App.st_notes s) (App.st_searchQuery s))
         (App.st_filter s))
      (App.st_sortBy s) /\
  (forall n, In n (App.processedNotes s) -> In n (App.st_notes s)) /\
  (forall loaded, Permutation loaded (App.processedNotes (App.initial loaded))).
Proof.
  pose proof (processedNotes_unfold s) as Hpipe.
  split; [exact Hpipe|]. split.
  - intros n Hn. rewrite Hpipe in Hn.
    apply (Permutation_in _
             (Permutation_sym (sortNotes_Permuted _ _))) in Hn.
    destruct (filterNotesByStatus_filter (App.st_filter s)) as [p Hp].
    destruct (searchNotes_as_filter (App.st_searchQuery s)) as [q Hq].
    rewrite Hp, Hq in Hn.
    apply filter_In in Hn as [Hn _]. apply filter_In in Hn as [Hn _].
    exact Hn.
  - intros loaded.
    assert (App.processedNotes (App.initial loaded)
            = Array_sort (App.compare (js "date")) loaded) as -> by reflexivity.
    apply Array_sort_Permutation.
Qed.

(** X22: the three numbers of the statistics panel are the lengths of the
    lists shown under the three filters when the search box is empty, and
    they are the counts [calculateStats] gives. *)
Theorem stats_match_views (s : App.State) :
  App.total (App.stats s)
  = length (App.processedNotes
              (App.setFilter (js "all") (App.setSearchQuery [] s))) /\
  App.pending (App.stats s)
  = length (App.processedNotes
              (App.setFilter (js "open") (App.setSearchQuery [] s))) /\
  App.completed (App.stats s)
  = length (App.processedNotes
              (App.setFilter (js "done") (App.setSearchQuery [] s))) /\
  App.total (App.stats s) = total (calculateStats (App.st_notes s)) /\
  App.pending (App.stats s) = pending (calculateStats (App.st_notes s)) /\
  App.completed (App.stats s) = completed (calculateStats (App.st_notes s)).
Proof.
  pose proof (filter_length_split (fun n => done n) (App.st_notes s))
    as Hsplit.
  assert (completed (calculateStats (App.st_notes s))
          = length (filterNotesByStatus (App.st_notes s) (js "done")))
    as Hc by reflexivity.
  assert (pending (calculateStats (App.st_notes s))
          = length (filterNotesByStatus (App.st_notes s) (js "open")))
    as Hp.
  { change (filterNotesByStatus (App.st_notes s) (js "open"))
      with (List.filter (fun n => negb (done n)) (App.st_notes s)).
    cbv beta in Hsplit.
    unfold calculateStats; cbv zeta; cbn [total completed pending]. lia. }
  assert (forall f,
            length (App.processedNotes
                      (App.setFilter f (App.setSearchQuery [] s)))
            = length (filterNotesByStatus (App.st_notes s) f)) as Hlen.
  { intros f.
    rewrite processedNotes_unfold.
    rewrite <- (Permutation_length (sortNotes_Permuted _ _)). reflexivity. }
  rewrite !Hlen, <- Hc, <- Hp. repeat split.
Qed.

End ViewFacts.

Section VersionViews.
Context `{Host}.

(** X24: with the search box empty, the list the component shows is the
    list the earlier component showed under the same filter, sorted by the
    chosen criterion: the same notes, each as often, in both. *)
Theorem legacy_filtered_view (s : App.State) :
  App.processedNotes (App.setSearchQuery [] s)
  = sortNotes (LegacyApp.filtered (App.st_notes s) (App.st_filter s))
      (App.st_sortBy s) /\
  Permutation (LegacyApp.filtered (App.st_notes s) (App.st_filter s))
    (App.processedNotes (App.setSearchQuery [] s)) /\
  sublist (LegacyApp.filtered (App.st_notes s) (App.st_filter s))
    (App.st_notes s).
Proof.
  assert (App.processedNotes (App.setSearchQuery [] s)
          = sortNotes (LegacyApp.filtered (App.st_notes s) (App.st_filter s))
              (App.st_sortBy s)) as Hview.
  { rewrite processedNotes_unfold. reflexivity. }
  split; [exact Hview|]. split.
  - rewrite Hview. apply sortNotes_Permuted.
  - unfold LegacyApp.filtered.
    repeat case_decide; try apply filter_sublist. reflexivity.
Qed.

End VersionViews.
